(** * Spending analyser and subscription detector

    A shallow embedding of the analytics core of the financial agent
    ([main.go]: [analyzeTransactions], [categorizeTransaction],
    [analyzeForSubscriptions], [isRegularPattern], [detectFrequency],
    [calculateConfidence], [calculateTotalMonthlyCost], [generateWarnings])
    and of the dashboard's copy of the spending summary
    ([calculateSpending] and [categorizeTransaction] of the banking-data hook),
    followed by the verification of the specification's claims.

    Go's [float64] and JavaScript's [number] are IEEE-754 binary64 values:
    they are modelled by Rocq's primitive floats, whose operations are the
    binary64 operations.  Go's [int] is a 64-bit integer, modelled in [Z]
    with the wrap-around written out where a value is accumulated from
    data.  A Go [map[string]interface{}] is a finite map from strings to
    dynamically typed values. *)

From Stdlib Require Import ZArith Floats String Ascii List Lia Bool.
From stdpp Require Import base option list gmap strings pretty.

#[local] Set Warnings "-inexact-float".
#[local] Open Scope Z_scope.

(** ** Binary64 helpers *)

Module F64.

(** [float64(n)] for an integer [n]: the nearest double, ties to even. *)
Definition of_int (z : Z) : float :=
  SF2Prim (binary_normalize prec emax z 0 false).

Definition min_int64 : Z := - 2 ^ 63.
Definition max_int64 : Z := 2 ^ 63 - 1.

(** Go's [int] arithmetic wraps around modulo [2^64]. *)
Definition wrap64 (z : Z) : Z := (z + 2 ^ 63) mod 2 ^ 64 - 2 ^ 63.

(** [int(f)]: the fractional part is discarded (truncation toward zero).
    Where the value does not fit (or is not a number) Go leaves the result
    to the implementation; amd64 yields the least [int64]. *)
Definition to_int (f : float) : Z :=
  match Prim2SF f with
  | S754_zero _ => 0
  | S754_finite s m e =>
      let mag := match e with
                 | Zneg p => Z.shiftr (Zpos m) (Zpos p)
                 | _ => Z.shiftl (Zpos m) e
                 end in
      let v := if s then - mag else mag in
      if (min_int64 <=? v) && (v <=? max_int64) then v else min_int64
  | _ => min_int64
  end.

(** Go comparison operators on [float64]; every comparison with NaN is false. *)
Definition le (x y : float) : bool := PrimFloat.leb x y.
Definition lt (x y : float) : bool := PrimFloat.ltb x y.
Definition ge (x y : float) : bool := PrimFloat.leb y x.
Definition gt (x y : float) : bool := PrimFloat.ltb y x.

(** [math.Round]: the nearest integer, halves away from zero; zeros,
    infinities and NaN are returned as they are. *)
Definition Round (x : float) : float :=
  match Prim2SF x with
  | S754_finite s m e =>
      match e with
      | Zneg p =>
          let d := 2 ^ Zpos p in
          let q := Zpos m / d in
          let r := Zpos m mod d in
          let n := if d <=? 2 * r then q + 1 else q in
          if n =? 0 then SF2Prim (S754_zero s)
          else of_int (if s then - n else n)
      | _ => x
      end
  | _ => x
  end.

(** JavaScript's [Math.round]: the nearest integer, halves toward
    positive infinity; a result that rounds to zero from below is [-0]. *)
Definition jsRound (x : float) : float :=
  match Prim2SF x with
  | S754_finite s m e =>
      match e with
      | Zneg p =>
          let d := 2 ^ Zpos p in
          let q := Zpos m / d in
          let r := Zpos m mod d in
          let n := if s then (if d <? 2 * r then q + 1 else q)
                   else (if d <=? 2 * r then q + 1 else q) in
          if n =? 0 then SF2Prim (S754_zero s)
          else of_int (if s then - n else n)
      | _ => x
      end
  | _ => x
  end.

(** Decimal digits of a natural number, left-padded with zeros to [w]. *)
Fixpoint zeros (n : nat) : string :=
  match n with O => EmptyString | S k => String "0" (zeros k) end.

Definition pad_left (w : nat) (s : string) : string :=
  zeros (w - String.length s) +:+ s.

(** The integer nearest to [n / d], ties to the even one ([0 < d]). *)
Definition div_half_even (n d : Z) : Z :=
  let q := n / d in
  let r := n mod d in
  match 2 * r ?= d with
  | Lt => q
  | Gt => q + 1
  | Eq => if Z.even q then q else q + 1
  end.

(** [fmt.Sprintf("%.<digits>f", x)]: the exact binary value, correctly
    rounded to [digits] decimals (ties to even), sign first. *)
Definition format_fixed (digits : nat) (x : float) : string :=
  let p10 := 10 ^ Z.of_nat digits in
  let body (n : Z) : string :=
    let ip := pretty (Z.to_N (n / p10)) in
    match digits with
    | O => ip
    | _ => ip +:+ "." +:+ pad_left digits (pretty (Z.to_N (n mod p10)))
    end in
  match Prim2SF x with
  | S754_nan => "NaN"
  | S754_infinity s => if s then "-Inf" else "+Inf"
  | S754_zero s => (if s then "-" else "") +:+ body 0
  | S754_finite s m e =>
      let n := match e with
               | Zneg p => div_half_even (Zpos m * p10) (2 ^ Zpos p)
               | _ => Z.shiftl (Zpos m) e * p10
               end in
      (if s then "-" else "") +:+ body n
  end.

End F64.

(** ** Strings *)

Module Strings.

Definition lower_ascii (c : ascii) : ascii :=
  let n := N_of_ascii c in
  if ((65 <=? n) && (n <=? 90))%N then ascii_of_N (n + 32) else c.

(** [strings.ToLower] / [String.prototype.toLowerCase] on ASCII text: the
    letters [A]..[Z] are mapped to [a]..[z], every other byte is kept. *)
Fixpoint ToLower (s : string) : string :=
  match s with
  | EmptyString => EmptyString
  | String c t => String (lower_ascii c) (ToLower t)
  end.

(** [strings.Contains(s, sub)]: [sub] occurs in [s] as a contiguous run. *)
Fixpoint Contains (s sub : string) : bool :=
  String.prefix sub s ||
  match s with
  | EmptyString => false
  | String _ t => Contains t sub
  end.

(** [strings.Join(l, sep)]. *)
Fixpoint Join (l : list string) (sep : string) : string :=
  match l with
  | [] => EmptyString
  | [x] => x
  | x :: t => x +:+ sep +:+ Join t sep
  end.

End Strings.

(** ** Time *)

Module GoTime.

(** A [time.Time] without monotonic reading: an instant, in nanoseconds
    since the Unix epoch, and the offset (seconds east of UTC) of the
    location it is presented in. *)
Record Time := mkTime { unix_ns : Z; zone_offset : Z }.

(** A [time.Duration] is an [int64] count of nanoseconds. *)
Definition Hour : Z := 3600 * 1000000000.

Definition Before (t u : Time) : bool := unix_ns t <? unix_ns u.

(** [t.Sub(u)]: the difference, saturated to the range of [Duration]. *)
Definition Sub (t u : Time) : Z :=
  let d := unix_ns t - unix_ns u in
  if d <? F64.min_int64 then F64.min_int64
  else if F64.max_int64 <? d then F64.max_int64
  else d.

(** [d.Hours()]: integer hours plus the fractional rest, as Go computes
    it ([/] and [%] on integers truncate toward zero). *)
Definition Hours (d : Z) : float :=
  let hour := Z.quot d Hour in
  let nsec := Z.rem d Hour in
  (F64.of_int hour + F64.of_int nsec / 3600000000000)%float.

(** The functions of Go's [time] package that the analysers call and that
    depend on the calendar: parsing with the [time.RFC3339] layout,
    parsing and printing with the layout ["2006-01-02"], and [AddDate]. *)
Record Calendar := mkCalendar {
  parseRFC3339 : string -> option Time;
  parseDate : string -> option Time;
  formatDate : Time -> string;
  AddDate : Time -> Z -> Z -> Z -> Time
}.

End GoTime.

(** ** Dynamically typed values *)

Module Json.

(** What a [map[string]interface{}] entry may hold: the values that
    [encoding/json] produces and the Go values the mock generators store. *)
Inductive jvalue :=
| JNull
| JBool (b : bool)
| JNumber (f : float)
| JString (s : string)
| JOther.

Abbreviation object := (gmap string jvalue).

(** [v, ok := m[k].(string)] *)
Definition as_string (v : option jvalue) : option string :=
  match v with Some (JString s) => Some s | _ => None end.

(** [v, ok := m[k].(float64)] *)
Definition as_float (v : option jvalue) : option float :=
  match v with Some (JNumber f) => Some f | _ => None end.

(** [v, _ := m[k].(string)]: the zero value when the assertion fails. *)
Definition string_or_zero (v : option jvalue) : string :=
  default EmptyString (as_string v).

Definition float_or_zero (v : option jvalue) : float :=
  default 0%float (as_float v).

End Json.

(** ** Transaction categorisation (Go) *)

Module Categorize.
Import Strings.

Definition any_keyword (text : string) (keywords : list string) : bool :=
  existsb (Contains text) keywords.

(** [categorizeTransaction] of [main.go], branch by branch. *)
Definition categorizeTransaction (description : string) : string :=
  let text := ToLower description in
  if Contains text "starbucks" || Contains text "coffee" ||
     Contains text "chipotle" || Contains text "pizza" ||
     Contains text "food" || Contains text "doordash" ||
     Contains text "restaurant" || Contains text "cafe"
  then "Food & Dining"
  else if Contains text "uber" || Contains text "lyft" ||
          Contains text "gas" || Contains text "metro" ||
          Contains text "parking"
  then "Transportation"
  else if Contains text "amazon" || Contains text "target" ||
          Contains text "nike" || Contains text "store"
  then "Shopping"
  else if Contains text "netflix" || Contains text "spotify" ||
          Contains text "movie" || Contains text "steam" ||
          Contains text "hulu" || Contains text "disney"
  then "Entertainment"
  else if Contains text "bill" || Contains text "electric" ||
          Contains text "internet" || Contains text "phone"
  then "Bills & Utilities"
  else "Other".

End Categorize.

(** ** Sorting *)

Module Sort.

(** Go's [insertionSortLessFunc], which [sort.Slice] runs on slices of at
    most twelve elements: each element in turn is swapped leftwards while
    it is [less] than its left neighbour.  [bubble] works on the sorted
    prefix held last-element-first. *)
Fixpoint bubble {A} (less : A -> A -> bool) (x : A) (rp : list A) : list A :=
  match rp with
  | [] => [x]
  | y :: rest => if less x y then y :: bubble less x rest else x :: y :: rest
  end.

Definition insertion_sort {A} (less : A -> A -> bool) (l : list A) : list A :=
  rev (fold_left (fun rp x => bubble less x rp) l []).

End Sort.

(** ** Spending summary (Go) *)

Module Spending.
Import Json Categorize.

Record totals := mkTotals {
  totalSpent : float;
  totalReceived : float;
  spendCount : Z;
  receiveCount : Z;
  categorySpending : gmap string float;
  categoryCount : gmap string Z
}.

Definition no_totals : totals :=
  mkTotals 0 0 0 0 ∅ ∅.

(** One iteration of the loop over the transactions. *)
Definition accumulate (acc : totals) (tx : object) : totals :=
  let txType := string_or_zero (tx !! "type") in
  let amount := float_or_zero (tx !! "amount") in
  let description := string_or_zero (tx !! "description") in
  let category := categorizeTransaction description in
  if String.eqb txType "send" then
    mkTotals (totalSpent acc + amount) (totalReceived acc)
             (spendCount acc + 1) (receiveCount acc)
             (<[category := (default 0%float (categorySpending acc !! category) + amount)%float]>
                (categorySpending acc))
             (<[category := default 0 (categoryCount acc !! category) + 1]>
                (categoryCount acc))
  else if String.eqb txType "receive" then
    mkTotals (totalSpent acc) (totalReceived acc + amount)
             (spendCount acc) (receiveCount acc + 1)
             (categorySpending acc) (categoryCount acc)
  else acc.

Definition aggregate (transactions : list object) : totals :=
  fold_left accumulate transactions no_totals.

Record categoryInfo := mkCategoryInfo {
  name : string;
  amount : float;
  count : Z;
  percentage : float
}.

(** The [categories] slice before sorting.  Go visits the entries of a map
    in an unspecified order; [map_to_list] stands for that order. *)
Definition categories (t : totals) : list categoryInfo :=
  map (fun '(name, amount) =>
         mkCategoryInfo name amount
           (default 0 (categoryCount t !! name))
           (if F64.gt (totalSpent t) 0 then (amount / totalSpent t * 100)%float
            else 0%float))
      (map_to_list (categorySpending t)).

Definition sorted_categories (t : totals) : list categoryInfo :=
  Sort.insertion_sort (fun a b => F64.gt (amount a) (amount b)) (categories t).

Record topCategory := mkTopCategory {
  tc_category : string;
  tc_amount : string;
  tc_count : Z;
  tc_percentage : string
}.

Definition topCategories (t : totals) : list topCategory :=
  map (fun c => mkTopCategory (name c) (F64.format_fixed 2 (amount c)) (count c)
                  (F64.format_fixed 1 (percentage c) +:+ "%"))
      (take 5 (sorted_categories t)).

(** [calculateVelocity] *)
Definition calculateVelocity (transactionCount days : Z) : string :=
  let txPerWeek := (F64.of_int transactionCount / F64.of_int days * 7)%float in
  if F64.lt txPerWeek 2 then "low"
  else if F64.lt txPerWeek 7 then "moderate"
  else "high".

Record summary := mkSummary {
  total_spent : string;
  total_received : string;
  net_cash_flow : string;
  spend_count : Z;
  receive_count : Z;
  avg_daily_spend : string;
  velocity : string;
  top_categories : list topCategory;
  insights : list string
}.

Inductive result :=
| NoTransactions (message : string)
| Report (s : summary).

Definition insights_of (t : totals) (days : Z) : list string :=
  let avgDailySpend := (totalSpent t / F64.of_int days)%float in
  let netCashFlow := (totalReceived t - totalSpent t)%float in
  [ "You made " +:+ pretty (spendCount t) +:+ " spending transactions over "
      +:+ pretty days +:+ " days";
    "Average daily spend: $" +:+ F64.format_fixed 2 avgDailySpend ]
  ++ (if F64.gt netCashFlow 0 then
        [ "Great! You're cash flow positive with $"
            +:+ F64.format_fixed 2 netCashFlow +:+ " net income" ]
      else if F64.lt netCashFlow 0 then
        [ "You spent $" +:+ F64.format_fixed 2 (abs netCashFlow)
            +:+ " more than you received this period" ]
      else [])
  ++ match sorted_categories t with
     | topCat :: _ =>
         [ "Your biggest spending category is " +:+ name topCat +:+ " ("
             +:+ F64.format_fixed 0 (percentage topCat) +:+ "% of spending)" ]
     | [] => []
     end.

(** [analyzeTransactions] *)
Definition analyzeTransactions (transactions : list object) (days : Z) : result :=
  match transactions with
  | [] => NoTransactions "No transactions found in the specified period"
  | _ =>
      let t := aggregate transactions in
      let avgDailySpend := (totalSpent t / F64.of_int days)%float in
      let netCashFlow := (totalReceived t - totalSpent t)%float in
      Report (mkSummary
                (F64.format_fixed 2 (totalSpent t))
                (F64.format_fixed 2 (totalReceived t))
                (F64.format_fixed 2 netCashFlow)
                (spendCount t)
                (receiveCount t)
                (F64.format_fixed 2 avgDailySpend)
                (calculateVelocity (spendCount t) days)
                (topCategories t)
                (insights_of t days))
  end.

End Spending.

(** ** Subscription detector (Go) *)

Module Subscriptions.
Import Json GoTime Strings.

(** *** Regularity, frequency, confidence *)

(** [sum := 0; for _, interval := range intervals { sum += interval }] *)
Definition sum_intervals (intervals : list Z) : Z :=
  fold_left (fun sum interval => F64.wrap64 (sum + interval)) intervals 0.

(** The mean interval, as both functions compute it. *)
Definition average (intervals : list Z) : float :=
  (F64.of_int (sum_intervals intervals)
   / F64.of_int (Z.of_nat (length intervals)))%float.

(** [isRegularPattern] *)
Definition isRegularPattern (intervals : list Z) : bool :=
  match intervals with
  | [] => false
  | _ =>
      let avg := average intervals in
      let tolerance := (avg * 0.2)%float in
      let withinTolerance :=
        fold_left (fun w interval =>
                     if F64.le (abs (F64.of_int interval - avg)) tolerance
                     then w + 1 else w)
                  intervals 0 in
      F64.ge (F64.of_int withinTolerance
              / F64.of_int (Z.of_nat (length intervals)))%float 0.7
  end.

(** [detectFrequency] *)
Definition detectFrequency (intervals : list Z) : string :=
  match intervals with
  | [] => "unknown"
  | _ =>
      let avgDays := average intervals in
      if F64.ge avgDays 25 && F64.le avgDays 35 then "monthly"
      else if F64.ge avgDays 80 && F64.le avgDays 100 then "quarterly"
      else if F64.ge avgDays 170 && F64.le avgDays 190 then "semi-annual"
      else if F64.ge avgDays 350 && F64.le avgDays 380 then "annual"
      else if F64.ge avgDays 7 && F64.le avgDays 14 then "biweekly"
      else if F64.ge avgDays 1 && F64.le avgDays 7 then "weekly"
      else "irregular"
  end.

(** [calculateConfidence] *)
Definition calculateConfidence (occurrences : Z) (intervals : list Z) : string :=
  if (4 <=? occurrences) && isRegularPattern intervals then "high"
  else if 3 <=? occurrences then "medium"
  else "low".

(** *** Decimal notation back to a number *)

Definition digit_of (c : ascii) : option Z :=
  let n := N_of_ascii c in
  if ((48 <=? n) && (n <=? 57))%N then Some (Z.of_N n - 48) else None.

(** Digits with at most one point: the digits read as an integer, and the
    number of digits after the point. *)
Fixpoint scan_decimal (s : string) (acc : Z) (decimals : option nat)
  : option (Z * nat) :=
  match s with
  | EmptyString => Some (acc, default O decimals)
  | String c t =>
      match digit_of c with
      | Some d => scan_decimal t (10 * acc + d) (S <$> decimals)
      | None =>
          if Ascii.eqb c "." then
            match decimals with
            | None => scan_decimal t acc (Some O)
            | Some _ => None
            end
          else None
      end
  end.

(** [strconv.ParseFloat(s, 64)] with the error dropped, on the notations
    that ["%.2f"] prints: the double nearest to the decimal number (ties
    to even), and [0] where Go reports a syntax error. *)
Definition ParseFloat (s : string) : float :=
  let magnitude (neg : bool) (body : string) : float :=
    match body with
    | EmptyString => 0%float
    | _ =>
        match scan_decimal body 0 None with
        | Some (Zpos m, decimals) =>
            SF2Prim (SFdiv prec emax (S754_finite neg m 0)
                       (S754_finite false (Z.to_pos (10 ^ Z.of_nat decimals)) 0))
        | Some (_, _) => SF2Prim (S754_zero neg)
        | None => 0%float
        end
    end in
  if String.eqb s "NaN" then nan
  else if String.eqb s "+Inf" then infinity
  else if String.eqb s "-Inf" then neg_infinity
  else match s with
       | String "-" body => magnitude true body
       | String "+" body => magnitude false body
       | _ => magnitude false s
       end.

(** *** Candidate groups *)

Abbreviation paymentKey := (string * string)%type.

Record subscription := mkSubscription {
  merchant : string;
  amount : float;
  frequency : string;
  occurrences : Z;
  last_occurrence : string;
  estimated_next : string;
  total_paid : float;
  confidence : string
}.

Section Detector.
Context (cal : Calendar).

Definition merchant_of (tx : object) : string :=
  match as_string (tx !! "description") with
  | Some (String c d) => String c d
  | _ =>
      match as_string (tx !! "recipient") with
      | Some (String c r) => String c r
      | _ => "Unknown"
      end
  end.

(** The body of the first loop for one transaction: the key and the date
    it contributes, or nothing when one of the [continue]s is taken. *)
Definition candidate (cutoffDate : Time) (minAmount maxAmount : float)
    (tx : object) : option (paymentKey * Time) :=
  let txType := string_or_zero (tx !! "type") in
  if negb (String.eqb txType "send") then None
  else
    let amount := float_or_zero (tx !! "amount") in
    if F64.lt amount minAmount || F64.gt amount maxAmount then None
    else
      let merchant := merchant_of tx in
      match as_string (tx !! "date") with
      | None => None
      | Some txDateStr =>
          match parseRFC3339 cal txDateStr with
          | None => None
          | Some txDate =>
              if Before txDate cutoffDate then None
              else Some ((merchant, F64.format_fixed 2 amount), txDate)
          end
      end.

Definition add_payment (cutoffDate : Time) (minAmount maxAmount : float)
    (groups : gmap paymentKey (list Time)) (tx : object)
  : gmap paymentKey (list Time) :=
  match candidate cutoffDate minAmount maxAmount tx with
  | None => groups
  | Some (key, txDate) => <[key := default [] (groups !! key) ++ [txDate]]> groups
  end.

Definition paymentGroups (transactions : list object) (cutoffDate : Time)
    (minAmount maxAmount : float) : gmap paymentKey (list Time) :=
  fold_left (add_payment cutoffDate minAmount maxAmount) transactions ∅.

(** [int(dates[i].Sub(dates[i-1]).Hours() / 24)] *)
Definition daysBetween (later earlier : Time) : Z :=
  F64.to_int (Hours (Sub later earlier) / 24)%float.

Fixpoint intervals_of (dates : list Time) : list Z :=
  match dates with
  | d0 :: rest =>
      match rest with
      | d1 :: _ => daysBetween d1 d0 :: intervals_of rest
      | [] => []
      end
  | [] => []
  end.

(** [sort.Slice(dates, func(i, j) { return dates[i].Before(dates[j]) })] *)
Definition sort_dates (dates : list Time) : list Time :=
  Sort.insertion_sort Before dates.

(** [estimateNextPayment] *)
Definition estimateNextPayment (lastPayment : Time) (frequency : string) : string :=
  if String.eqb frequency "monthly" then formatDate cal (AddDate cal lastPayment 0 1 0)
  else if String.eqb frequency "quarterly" then formatDate cal (AddDate cal lastPayment 0 3 0)
  else if String.eqb frequency "semi-annual" then formatDate cal (AddDate cal lastPayment 0 6 0)
  else if String.eqb frequency "annual" then formatDate cal (AddDate cal lastPayment 1 0 0)
  else if String.eqb frequency "biweekly" then formatDate cal (AddDate cal lastPayment 0 0 14)
  else if String.eqb frequency "weekly" then formatDate cal (AddDate cal lastPayment 0 0 7)
  else "unknown".

(** The body of the second loop for one group: the subscription it
    yields, or nothing when the group is skipped. *)
Definition subscription_of (key : paymentKey) (dates : list Time)
  : option subscription :=
  if Z.of_nat (length dates) <? 2 then None
  else
    let dates := sort_dates dates in
    let intervals := intervals_of dates in
    if isRegularPattern intervals then
      let amount := ParseFloat (snd key) in
      let frequency := detectFrequency intervals in
      let last := List.last dates (mkTime 0 0) in
      Some (mkSubscription
              (fst key)
              amount
              frequency
              (Z.of_nat (length dates))
              (formatDate cal last)
              (estimateNextPayment last frequency)
              (amount * F64.of_int (Z.of_nat (length dates)))%float
              (calculateConfidence (Z.of_nat (length dates)) intervals))
    else None.

(** [analyzeForSubscriptions].  The groups are visited in the order Go
    picks for the map, which is unspecified; [map_to_list] stands for it. *)
Definition analyzeForSubscriptions (transactions : list object)
    (cutoffDate : Time) (minAmount maxAmount : float) : list subscription :=
  match transactions with
  | [] => []
  | _ =>
      omap (fun '(key, dates) => subscription_of key dates)
           (map_to_list (paymentGroups transactions cutoffDate minAmount maxAmount))
  end.

End Detector.

(** *** Monthly cost *)

(** What one subscription adds to the running total: the [switch] of
    [calculateTotalMonthlyCost]; a frequency outside the six cases leaves
    the total as it is. *)
Definition add_monthly (totalMonthly : float) (sub : subscription) : float :=
  let amount := amount sub in
  let frequency := frequency sub in
  if String.eqb frequency "monthly" then (totalMonthly + amount)%float
  else if String.eqb frequency "quarterly" then (totalMonthly + amount / 3)%float
  else if String.eqb frequency "semi-annual" then (totalMonthly + amount / 6)%float
  else if String.eqb frequency "annual" then (totalMonthly + amount / 12)%float
  else if String.eqb frequency "biweekly" then (totalMonthly + amount * 2.167)%float
  else if String.eqb frequency "weekly" then (totalMonthly + amount * 4.333)%float
  else totalMonthly.

(** [calculateTotalMonthlyCost] *)
Definition calculateTotalMonthlyCost (subscriptions : list subscription) : float :=
  let totalMonthly := fold_left add_monthly subscriptions 0%float in
  (F64.Round (totalMonthly * 100) / 100)%float.

(** *** Warnings *)

Definition knownPatterns : gmap string (list string) :=
  <["streaming" := ["netflix"; "hulu"; "disney"; "prime"; "spotify"; "hbo";
                    "apple tv"; "youtube premium"]]>
  (<["music" := ["spotify"; "apple music"; "youtube music"; "tidal"; "pandora"]]>
  (<["cloud" := ["dropbox"; "google one"; "icloud"; "onedrive"]]>
  (<["fitness" := ["peloton"; "classpass"; "apple fitness"; "strava";
                   "planet fitness"]]>
  (<["software" := ["adobe"; "github"; "office"]]> ∅)))).

(** The inner loops for one subscription: its merchant is appended to the
    list of every category one of whose keywords it contains. *)
Definition add_merchant (merchantCategories : gmap string (list string))
    (sub : subscription) : gmap string (list string) :=
  let merchant := merchant sub in
  let merchantLower := ToLower merchant in
  fold_left
    (fun mc '(category, keywords) =>
       if existsb (Contains merchantLower) keywords
       then <[category := default [] (mc !! category) ++ [merchant]]> mc
       else mc)
    (map_to_list knownPatterns) merchantCategories.

Definition merchantCategories (subscriptions : list subscription)
  : gmap string (list string) :=
  fold_left add_merchant subscriptions ∅.

Definition none_detected : string :=
  "No subscriptions were detected in your transaction history.".

Definition total_message (totalMonthly : float) : string :=
  "You are spending approximately $" +:+ F64.format_fixed 2 totalMonthly
    +:+ " per month on subscriptions.".

Definition consolidation_message (category : string) (merchants : list string)
  : string :=
  "You have multiple " +:+ category +:+ " subscriptions: "
    +:+ Join merchants ", " +:+ ". Consider consolidating.".

Definition inactive_message (merchant lastDateStr : string) : string :=
  "Subscription to '" +:+ merchant +:+ "' seems inactive (last paid "
    +:+ lastDateStr +:+ "). Consider cancelling if you no longer use it.".

Definition tip_message (savings : float) : string :=
  "Tip: Cancelling just 10% of your subscriptions could save you $"
    +:+ F64.format_fixed 2 savings +:+ " monthly!".

Section Warnings.
Context (cal : Calendar) (now : Time).

(** The condition of the inactivity warning. *)
Definition seems_inactive (sub : subscription) : bool :=
  match parseDate cal (last_occurrence sub) with
  | Some lastDate =>
      (occurrences sub <? 3)
      && F64.gt (Hours (Sub now lastDate) / 24)%float 90
  | None => false
  end.

Definition consolidation_warnings (subscriptions : list subscription)
  : list string :=
  omap (fun '(category, merchants) =>
          if 1 <? Z.of_nat (length merchants)
          then Some (consolidation_message category merchants) else None)
       (map_to_list (merchantCategories subscriptions)).

Definition inactive_warnings (subscriptions : list subscription) : list string :=
  omap (fun sub =>
          if seems_inactive sub
          then Some (inactive_message (merchant sub) (last_occurrence sub))
          else None)
       subscriptions.

(** [generateWarnings]; [now] is the value of [time.Now()]. *)
Definition generateWarnings (subscriptions : list subscription) : list string :=
  match subscriptions with
  | [] => [none_detected]
  | _ =>
      let totalMonthly := calculateTotalMonthlyCost subscriptions in
      [total_message totalMonthly]
      ++ consolidation_warnings subscriptions
      ++ inactive_warnings subscriptions
      ++ (if F64.gt totalMonthly 50
          then [tip_message (F64.Round (totalMonthly * 0.1 * 100) / 100)%float]
          else [])
  end.

End Warnings.

End Subscriptions.

(** ** The dashboard's spending summary (TypeScript) *)

Module Dashboard.
Import Strings.

(** An element of [BankingData['transactions']]. *)
Record Transaction := mkTransaction {
  id : string;
  amount : float;
  currency : string;
  type : string;
  status : string;
  description : string;
  createdAt : string;
  counterparty : option string
}.

(** [text.match(/a|b|.../)]: one of the alternatives occurs in [text]. *)
Definition matches (text : string) (alternatives : list string) : bool :=
  existsb (Contains text) alternatives.

(** [categorizeTransaction] of the hook. *)
Definition categorizeTransaction (tx : Transaction) : string :=
  let text := ToLower (description tx +:+ " " +:+ default EmptyString (counterparty tx)) in
  if matches text ["food"; "restaurant"; "dining"; "cafe"; "coffee"; "lunch";
                   "dinner"; "breakfast"; "pizza"; "burger"; "sushi";
                   "delivery"; "uber eats"; "doordash"; "grubhub"]
  then "Food & Dining"
  else if matches text ["uber"; "lyft"; "taxi"; "transport"; "gas"; "fuel";
                        "parking"; "transit"; "metro"; "bus"; "train"; "ride"]
  then "Transportation"
  else if matches text ["amazon"; "shopping"; "store"; "retail"; "mall";
                        "purchase"; "buy"; "walmart"; "target"; "ebay"]
  then "Shopping"
  else if matches text ["entertainment"; "movie"; "cinema"; "netflix";
                        "spotify"; "hulu"; "disney"; "hbo"; "music"; "concert";
                        "game"; "theater"; "steam"; "playstation"]
  then "Entertainment"
  else if matches text ["bill"; "utility"; "electric"; "water"; "internet";
                        "phone"; "subscription"; "insurance"; "rent"; "mortgage"]
  then "Bills & Utilities"
  else if matches text ["health"; "medical"; "doctor"; "pharmacy"; "hospital";
                        "dental"; "clinic"]
  then "Healthcare"
  else if matches text ["transfer"; "saving"; "deposit"; "withdraw"]
  then "Transfers"
  else "Other".

(** An element of [BankingData['spending']]. *)
Record spending := mkSpending {
  category : string;
  sp_amount : float;
  percentage : float;
  count : Z
}.

(** The filter of [calculateSpending]. *)
Definition is_outgoing (tx : Transaction) : bool :=
  (String.eqb (type tx) "send" || String.eqb (type tx) "withdrawal")
  && String.eqb (status tx) "completed".

(** [categoryMap] is an object whose keys are kept in insertion order:
    an association list, a new category going to the end. *)
Fixpoint bump (categoryMap : list (string * (float * Z))) (category : string)
    (amount : float) : list (string * (float * Z)) :=
  match categoryMap with
  | [] => [(category, ((0 + amount)%float, 0 + 1))]
  | (c, (a, n)) :: rest =>
      if String.eqb c category then (c, ((a + amount)%float, n + 1)) :: rest
      else (c, (a, n)) :: bump rest category amount
  end.

Definition group_spending (outgoing : list Transaction)
  : list (string * (float * Z)) * float :=
  fold_left (fun '(categoryMap, total) tx =>
               (bump categoryMap (categorizeTransaction tx) (amount tx),
                (total + amount tx)%float))
            outgoing ([], 0%float).

(** [calculateSpending].  [Array.prototype.sort] is stable; the comparator
    [(a, b) => b.amount - a.amount] puts [a] first when it is negative. *)
Definition calculateSpending (transactions : list Transaction) : list spending :=
  let outgoing := filter (fun tx => is_outgoing tx = true) transactions in
  match outgoing with
  | [] => []
  | _ =>
      let '(categoryMap, total) := group_spending outgoing in
      let categories :=
        map (fun '(category, (amount, count)) =>
               mkSpending category
                 (F64.jsRound (amount * 100) / 100)%float
                 (if F64.gt total 0 then F64.jsRound (amount / total * 100)%float
                  else 0%float)
                 count)
            categoryMap in
      take 5 (Sort.insertion_sort
                (fun a b => F64.lt (sp_amount b - sp_amount a)%float 0)
                categories)
  end.

End Dashboard.

(** * Verification *)

(** ** Facts about the insertion sort *)

Module SortFacts.
Import Sort.

Lemma bubble_Permutation {A} (less : A -> A -> bool) (x : A) (rp : list A) :
  bubble less x rp ≡ₚ x :: rp.
Proof.
  induction rp as [|y rest IH]; simpl; [done|].
  destruct (less x y); [|done].
  rewrite IH. apply Permutation_swap.
Qed.

Lemma insertion_sort_Permutation {A} (less : A -> A -> bool) (l : list A) :
  insertion_sort less l ≡ₚ l.
Proof.
  unfold insertion_sort.
  assert (G : forall acc : list A,
             fold_left (fun rp x => bubble less x rp) l acc ≡ₚ rev l ++ acc).
  { induction l as [|x l IH]; intros acc; simpl; [done|].
    rewrite IH, bubble_Permutation, <- app_assoc. simpl.
    apply Permutation_app_head, Permutation_refl. }
  rewrite <- (rev_involutive l) at 2.
  rewrite (Permutation_rev (rev (rev l))), rev_involutive.
  rewrite <- !Permutation_rev.
  rewrite G, app_nil_r. symmetry. apply Permutation_rev.
Qed.

Lemma insertion_sort_length {A} (less : A -> A -> bool) (l : list A) :
  length (insertion_sort less l) = length l.
Proof. apply Permutation_length, insertion_sort_Permutation. Qed.

End SortFacts.

(** ** What an emitted subscription is made of *)

Module DetectorFacts.
Import Json GoTime Subscriptions.

Section Facts.
Context (cal : Calendar).

(** A subscription in the result comes from one candidate group. *)
Lemma analyze_elem transactions cutoffDate minAmount maxAmount sub :
  sub ∈ analyzeForSubscriptions cal transactions cutoffDate minAmount maxAmount ->
  exists key dates,
    paymentGroups cal transactions cutoffDate minAmount maxAmount !! key = Some dates
    /\ subscription_of cal key dates = Some sub.
Proof.
  unfold analyzeForSubscriptions.
  destruct transactions as [|tx txs]; [intros H; inversion H|].
  intros H. apply list_elem_of_omap in H as ([key dates] & Hin & Hsub).
  exists key, dates. split; [|done].
  by apply elem_of_map_to_list in Hin.
Qed.

(** The converse: every group that yields a subscription is reported. *)
Lemma analyze_complete transactions cutoffDate minAmount maxAmount key dates sub :
  paymentGroups cal transactions cutoffDate minAmount maxAmount !! key = Some dates ->
  subscription_of cal key dates = Some sub ->
  sub ∈ analyzeForSubscriptions cal transactions cutoffDate minAmount maxAmount.
Proof.
  intros Hg Hsub. unfold analyzeForSubscriptions.
  destruct transactions as [|tx txs].
  - unfold paymentGroups in Hg. simpl in Hg. by rewrite lookup_empty in Hg.
  - apply list_elem_of_omap. exists (key, dates). split; [|done].
    by apply elem_of_map_to_list.
Qed.

(** The fields of a subscription, read off the group it comes from. *)
Lemma subscription_of_Some key dates sub :
  subscription_of cal key dates = Some sub ->
  let sorted := sort_dates dates in
  let intervals := intervals_of sorted in
  2 <= Z.of_nat (length dates)
  /\ isRegularPattern intervals = true
  /\ merchant sub = fst key
  /\ amount sub = ParseFloat (snd key)
  /\ frequency sub = detectFrequency intervals
  /\ occurrences sub = Z.of_nat (length dates)
  /\ confidence sub = calculateConfidence (Z.of_nat (length dates)) intervals.
Proof.
  unfold subscription_of. intros H.
  destruct (Z.ltb_spec (Z.of_nat (length dates)) 2) as [|Hlen]; [done|].
  destruct (isRegularPattern (intervals_of (sort_dates dates))) eqn:Hreg; [|done].
  injection H as <-. simpl.
  assert (Hl : length (sort_dates dates) = length dates)
    by apply SortFacts.insertion_sort_length.
  rewrite Hl. by repeat split.
Qed.

End Facts.

End DetectorFacts.

(** ** Confidence *)

Module ConfidenceFacts.
Import Subscriptions DetectorFacts.

(** C4.  [calculateConfidence] answers "high" exactly when there are at
    least four occurrences and the regularity test passes, "medium"
    exactly when that fails and there are at least three occurrences, and
    "low" exactly when that fails and there are fewer than three.  Every
    subscription reported by [analyzeForSubscriptions] has passed the
    regularity test and has at least two occurrences, so its confidence
    is "high" iff it has four or more occurrences, "medium" iff it has
    three, "low" iff it has two. *)
Theorem confidence_levels :
  (forall (occ : Z) (intervals : list Z),
      let high := 4 <= occ /\ isRegularPattern intervals = true in
      (calculateConfidence occ intervals = "high" <-> high)
      /\ (calculateConfidence occ intervals = "medium" <-> ~ high /\ 3 <= occ)
      /\ (calculateConfidence occ intervals = "low" <-> ~ high /\ occ < 3))
  /\ (forall cal transactions cutoffDate minAmount maxAmount sub,
         sub ∈ analyzeForSubscriptions cal transactions cutoffDate minAmount maxAmount ->
         2 <= occurrences sub
         /\ (confidence sub = "high" <-> 4 <= occurrences sub)
         /\ (confidence sub = "medium" <-> occurrences sub = 3)
         /\ (confidence sub = "low" <-> occurrences sub = 2)).
Proof.
  assert (Hgen : forall (occ : Z) (intervals : list Z),
             let high := 4 <= occ /\ isRegularPattern intervals = true in
             (calculateConfidence occ intervals = "high" <-> high)
             /\ (calculateConfidence occ intervals = "medium" <-> ~ high /\ 3 <= occ)
             /\ (calculateConfidence occ intervals = "low" <-> ~ high /\ occ < 3)).
  { intros occ intervals high. subst high. unfold calculateConfidence.
    destruct (Z.leb_spec 4 occ) as [H4|H4];
      destruct (isRegularPattern intervals) eqn:Hreg; simpl;
      destruct (Z.leb_spec 3 occ) as [H3|H3];
      repeat split; intros; try done; try lia;
      try (exfalso; intuition (congruence || lia)); intuition (congruence || lia). }
  split; [exact Hgen|].
  intros cal transactions cutoffDate minAmount maxAmount sub Hin.
  apply analyze_elem in Hin as (key & dates & _ & Hsub).
  apply subscription_of_Some in Hsub as (Hlen & Hreg & _ & _ & _ & Hocc & Hconf).
  rewrite Hconf, Hocc.
  destruct (Hgen (Z.of_nat (length dates))
                 (intervals_of (sort_dates dates))) as (Hh & Hm & Hl).
  repeat split; try lia.
  - intros E. apply Hh in E. lia.
  - intros E. apply Hh. by split.
  - intros E. apply Hm in E as [Hn E]. destruct (Z.leb_spec 4 (Z.of_nat (length dates))); [|lia].
    exfalso. apply Hn. by split.
  - intros E. apply Hm. split; [|lia]. intros [? _]. lia.
  - intros E. apply Hl in E. lia.
  - intros E. apply Hl. split; [|lia]. intros [? _]. lia.
Qed.

End ConfidenceFacts.

(** ** Categories *)

Module CategorizeFacts.
Import Strings Categorize.

(** The keyword lists of [categorizeTransaction], in the order of its
    [if] statements. *)
Definition keyword_table : list (string * list string) :=
  [ ("Food & Dining", ["starbucks"; "coffee"; "chipotle"; "pizza"; "food";
                       "doordash"; "restaurant"; "cafe"]);
    ("Transportation", ["uber"; "lyft"; "gas"; "metro"; "parking"]);
    ("Shopping", ["amazon"; "target"; "nike"; "store"]);
    ("Entertainment", ["netflix"; "spotify"; "movie"; "steam"; "hulu"; "disney"]);
    ("Bills & Utilities", ["bill"; "electric"; "internet"; "phone"]) ].

(** The first row one of whose keywords occurs in [text]. *)
Fixpoint first_match (text : string) (table : list (string * list string)) : string :=
  match table with
  | [] => "Other"
  | (category, keywords) :: rest =>
      if existsb (Contains text) keywords then category
      else first_match text rest
  end.

Definition category_names : list string :=
  ["Food & Dining"; "Transportation"; "Shopping"; "Entertainment";
   "Bills & Utilities"; "Other"].

Lemma lower_ascii_idempotent c : lower_ascii (lower_ascii c) = lower_ascii c.
Proof.
  destruct c as [[] [] [] [] [] [] [] []]; vm_compute; reflexivity.
Qed.

Lemma ToLower_idempotent s : ToLower (ToLower s) = ToLower s.
Proof.
  induction s as [|c s IH]; [done|]. cbn [ToLower].
  by rewrite lower_ascii_idempotent, IH.
Qed.

Lemma categorize_first_match description :
  categorizeTransaction description = first_match (ToLower description) keyword_table.
Proof.
  unfold categorizeTransaction, keyword_table. cbn [first_match existsb].
  rewrite !orb_false_r, !orb_assoc. reflexivity.
Qed.

Lemma first_match_in_names text :
  first_match text keyword_table ∈ category_names.
Proof.
  unfold keyword_table, category_names. cbn [first_match].
  repeat match goal with
         | |- context [if ?b then _ else _] => destruct b
         end;
    repeat first [apply list_elem_of_here | apply list_elem_of_further].
Qed.


End CategorizeFacts.

(** ** Candidate groups *)

Module GroupFacts.
Import Json GoTime Subscriptions.

Section Groups.
Context (cal : Calendar) (cutoffDate : Time) (minAmount maxAmount : float).

(** The dates that the transactions of a list contribute to one key, in
    the order of the list. *)
Definition dates_for (key : paymentKey) (transactions : list object) : list Time :=
  omap (fun tx =>
          match candidate cal cutoffDate minAmount maxAmount tx with
          | Some (k, d) => if decide (k = key) then Some d else None
          | None => None
          end)
       transactions.

Lemma fold_add_payment transactions : forall (groups : gmap paymentKey (list Time)) key,
  fold_left (add_payment cal cutoffDate minAmount maxAmount) transactions groups !! key =
  match dates_for key transactions with
  | [] => groups !! key
  | ds => Some (default [] (groups !! key) ++ ds)
  end.
Proof.
  induction transactions as [|tx txs IH]; intros groups key; [done|].
  cbn [fold_left]. rewrite IH. unfold dates_for at 2. cbn [omap list_omap].
  fold (dates_for key txs).
  unfold add_payment.
  destruct (candidate cal cutoffDate minAmount maxAmount tx) as [[k d]|]; [|done].
  destruct (decide (k = key)) as [->|Hne]; cbn [from_option].
  - rewrite lookup_insert_eq. simpl.
    destruct (dates_for key txs) as [|d' ds]; [done|].
    by rewrite <- app_assoc.
  - by rewrite lookup_insert_ne.
Qed.

Lemma paymentGroups_lookup transactions key :
  paymentGroups cal transactions cutoffDate minAmount maxAmount !! key =
  match dates_for key transactions with
  | [] => None
  | ds => Some ds
  end.
Proof.
  unfold paymentGroups. rewrite fold_add_payment, lookup_empty. simpl.
  by destruct (dates_for key transactions).
Qed.

(** What it takes for a transaction to reach a group with date [d]. *)
Definition passes_filters (tx : object) (d : Time) : Prop :=
  string_or_zero (tx !! "type") = "send"
  /\ F64.lt (float_or_zero (tx !! "amount")) minAmount = false
  /\ F64.gt (float_or_zero (tx !! "amount")) maxAmount = false
  /\ exists txDateStr,
       tx !! "date" = Some (JString txDateStr)
       /\ parseRFC3339 cal txDateStr = Some d
       /\ Before d cutoffDate = false.

Definition key_of (tx : object) : paymentKey :=
  (merchant_of tx, F64.format_fixed 2 (float_or_zero (tx !! "amount"))).

Lemma candidate_spec tx key d :
  candidate cal cutoffDate minAmount maxAmount tx = Some (key, d)
  <-> passes_filters tx d /\ key = key_of tx.
Proof.
  unfold candidate, passes_filters, key_of.
  destruct (String.eqb_spec (string_or_zero (tx !! "type")) "send") as [Ety|Ety];
    cbn [negb]; [|split; [done|intros [[? _] _]; done]].
  destruct (F64.lt (float_or_zero (tx !! "amount")) minAmount) eqn:Elo;
    cbn [orb]; [split; [done|intros [(_ & ? & _) _]; done]|].
  destruct (F64.gt (float_or_zero (tx !! "amount")) maxAmount) eqn:Ehi;
    [split; [done|intros [(_ & _ & ? & _) _]; done]|].
  destruct (tx !! "date") as [[| | |txDateStr|]|] eqn:Edate; cbn [as_string];
    try (split; [done|intros [(_ & _ & _ & s & ? & _) _]; done]).
  destruct (parseRFC3339 cal txDateStr) as [txDate|] eqn:Eparse;
    [|split; [done|intros [(_ & _ & _ & s & [= <-] & ? & _) _]; congruence]].
  destruct (Before txDate cutoffDate) eqn:Ebefore.
  - split; [done|]. intros [(_ & _ & _ & s & [= <-] & Hp & Hb) _].
    rewrite Eparse in Hp. injection Hp as <-. congruence.
  - split.
    + intros [= <- <-]. repeat split; try done. exists txDateStr. by repeat split.
    + intros [(_ & _ & _ & s & [= <-] & Hp & Hb) ->].
      rewrite Eparse in Hp. by injection Hp as <-.
Qed.

Lemma elem_of_dates_for key transactions d :
  d ∈ dates_for key transactions
  <-> exists tx, tx ∈ transactions /\ passes_filters tx d /\ key_of tx = key.
Proof.
  unfold dates_for. rewrite list_elem_of_omap. split.
  - intros (tx & Hin & H).
    destruct (candidate cal cutoffDate minAmount maxAmount tx) as [[k d']|] eqn:Ec; [|done].
    destruct (decide (k = key)) as [->|]; [|done]. injection H as ->.
    apply candidate_spec in Ec as [Hp ->]. by exists tx.
  - intros (tx & Hin & Hp & Hk). exists tx. split; [done|].
    assert (Ec : candidate cal cutoffDate minAmount maxAmount tx = Some (key, d))
      by (apply candidate_spec; by split).
    rewrite Ec. by rewrite decide_True.
Qed.

(** The candidate groups of [analyzeForSubscriptions]: the group stored
    under a key holds the dates of the transactions that pass the four
    filters and have that merchant and that two-decimal amount, in the
    order of the input, and never is empty. *)
Theorem payment_groups_contents transactions key dates :
  (paymentGroups cal transactions cutoffDate minAmount maxAmount !! key = Some dates
   <-> dates <> [] /\ dates = dates_for key transactions)
  /\ (forall d, d ∈ dates_for key transactions
        <-> exists tx, tx ∈ transactions /\ passes_filters tx d /\ key_of tx = key).
Proof.
  split; [|intros d; apply elem_of_dates_for].
  rewrite paymentGroups_lookup.
  destruct (dates_for key transactions) as [|d ds]; split.
  - done.
  - intros [? ->]. done.
  - by intros [= <-].
  - by intros [_ ->].
Qed.


End Groups.
End GroupFacts.

(** ** The spending loop *)

Module SpendingFacts.
Import Json Categorize Spending.

Definition is_send (tx : object) : bool :=
  String.eqb (string_or_zero (tx !! "type")) "send".

Definition is_receive (tx : object) : bool :=
  String.eqb (string_or_zero (tx !! "type")) "receive".

Definition amount_of (tx : object) : float := float_or_zero (tx !! "amount").

Definition category_of (tx : object) : string :=
  categorizeTransaction (string_or_zero (tx !! "description")).

(** A running float sum, in list order, from an initial value. *)
Definition fsum (init : float) (l : list float) : float :=
  fold_left PrimFloat.add l init.

(** The amounts of the outgoing transactions of one category, in input order. *)
Definition spent_in (c : string) (transactions : list object) : list float :=
  map amount_of
      (List.filter (fun tx => is_send tx && String.eqb (category_of tx) c) transactions).

Lemma fold_accumulate transactions : forall acc,
  let t := fold_left accumulate transactions acc in
  totalSpent t = fsum (totalSpent acc) (map amount_of (List.filter is_send transactions))
  /\ totalReceived t
     = fsum (totalReceived acc) (map amount_of (List.filter is_receive transactions))
  /\ spendCount t = spendCount acc + Z.of_nat (length (List.filter is_send transactions))
  /\ receiveCount t
     = receiveCount acc + Z.of_nat (length (List.filter is_receive transactions))
  /\ (forall c,
        categorySpending t !! c =
        match spent_in c transactions with
        | [] => categorySpending acc !! c
        | l => Some (fsum (default 0%float (categorySpending acc !! c)) l)
        end)
  /\ (forall c,
        categoryCount t !! c =
        match spent_in c transactions with
        | [] => categoryCount acc !! c
        | l => Some (default 0 (categoryCount acc !! c) + Z.of_nat (length l))
        end).
Proof.
  induction transactions as [|tx txs IH]; intros acc; cbn zeta.
  - cbn. repeat split; try lia; done.
  - cbn [fold_left]. specialize (IH (accumulate acc tx)). cbn zeta in IH.
    destruct IH as (H1 & H2 & H3 & H4 & H5 & H6).
    assert (Hsr : is_send tx = true -> is_receive tx = false).
    { unfold is_send, is_receive. intros Es. apply String.eqb_eq in Es. by rewrite Es. }
    repeat split;
      [rewrite H1 | rewrite H2 | rewrite H3 | rewrite H4
       | intros c; rewrite H5 | intros c; rewrite H6];
      unfold spent_in, accumulate; cbn [List.filter];
      fold (is_send tx); fold (is_receive tx); fold (amount_of tx); fold (category_of tx);
      (destruct (is_send tx) eqn:Es;
       [rewrite ?(Hsr eq_refl) | destruct (is_receive tx) eqn:Er]);
      cbn [andb map length totalSpent totalReceived spendCount receiveCount
           categorySpending categoryCount fsum fold_left];
      try lia; try done.
    + destruct (String.eqb_spec (category_of tx) c) as [->|Hne].
      * rewrite lookup_insert_eq. cbn [map from_option]. unfold id.
        clear H1 H2 H3 H4 H5 H6.
        destruct (map amount_of _); reflexivity.
      * by rewrite lookup_insert_ne.
    + destruct (String.eqb_spec (category_of tx) c) as [->|Hne].
      * rewrite lookup_insert_eq. cbn [map from_option]. unfold id.
        clear H1 H2 H3 H4 H5 H6.
        destruct (map amount_of _); cbn [length]; f_equal; lia.
      * by rewrite lookup_insert_ne.
Qed.

Lemma aggregate_spec transactions :
  let t := aggregate transactions in
  totalSpent t = fsum 0 (map amount_of (List.filter is_send transactions))
  /\ totalReceived t = fsum 0 (map amount_of (List.filter is_receive transactions))
  /\ spendCount t = Z.of_nat (length (List.filter is_send transactions))
  /\ receiveCount t = Z.of_nat (length (List.filter is_receive transactions))
  /\ (forall c,
        categorySpending t !! c =
        match spent_in c transactions with
        | [] => None
        | l => Some (fsum 0 l)
        end)
  /\ (forall c,
        categoryCount t !! c =
        match spent_in c transactions with
        | [] => None
        | l => Some (Z.of_nat (length l))
        end).
Proof.
  destruct (fold_accumulate transactions no_totals) as (H1 & H2 & H3 & H4 & H5 & H6).
  unfold aggregate. cbn zeta.
  split; [exact H1|]. split; [exact H2|]. split; [by rewrite H3|].
  split; [by rewrite H4|]. split.
  - intros c. rewrite H5. cbn [no_totals categorySpending].
    by rewrite lookup_empty.
  - intros c. rewrite H6. cbn [no_totals categoryCount]. rewrite lookup_empty.
    destruct (spent_in c transactions); [done|]. cbn [from_option]. f_equal.
Qed.

(** Two transactions look the same to the spending loop when they agree
    on the three keys it reads. *)
Definition same_view (a b : object) : Prop :=
  a !! "type" = b !! "type"
  /\ a !! "amount" = b !! "amount"
  /\ a !! "description" = b !! "description".

Lemma accumulate_same_view acc a b :
  same_view a b -> accumulate acc a = accumulate acc b.
Proof. intros (H1 & H2 & H3). unfold accumulate. by rewrite H1, H2, H3. Qed.

Lemma fold_accumulate_same_view transactions transactions' :
  Forall2 same_view transactions transactions' ->
  forall acc, fold_left accumulate transactions acc
              = fold_left accumulate transactions' acc.
Proof.
  induction 1 as [|a b l l' Hab _ IH]; intros acc; [done|].
  cbn [fold_left]. by rewrite (accumulate_same_view acc a b Hab), IH.
Qed.



Lemma send_receive_length transactions :
  (length (List.filter is_send transactions)
   + length (List.filter is_receive transactions) <= length transactions)%nat.
Proof.
  induction transactions as [|tx txs IH]; [done|]. cbn [List.filter].
  destruct (is_send tx) eqn:Es.
  - assert (Er : is_receive tx = false).
    { unfold is_send, is_receive in *. apply String.eqb_eq in Es. by rewrite Es. }
    rewrite Er. cbn [length]. lia.
  - destruct (is_receive tx); cbn [length]; lia.
Qed.

Lemma spent_in_category c transactions :
  spent_in c transactions <> [] -> c ∈ CategorizeFacts.category_names.
Proof.
  unfold spent_in. induction transactions as [|tx txs IH]; [done|].
  cbn [List.filter].
  destruct (is_send tx); cbn [andb]; [|exact IH].
  destruct (String.eqb_spec (category_of tx) c) as [<-|]; [|exact IH].
  intros _. unfold category_of.
  rewrite CategorizeFacts.categorize_first_match.
  apply CategorizeFacts.first_match_in_names.
Qed.

Lemma top_category_elem t e :
  e ∈ topCategories t ->
  exists amount,
    categorySpending t !! tc_category e = Some amount
    /\ tc_amount e = F64.format_fixed 2 amount
    /\ tc_count e = default 0 (categoryCount t !! tc_category e).
Proof.
  unfold topCategories. intros H.
  apply list_elem_of_fmap in H as (c & -> & Hc).
  apply (subseteq_take 5) in Hc.
  unfold sorted_categories in Hc.
  rewrite SortFacts.insertion_sort_Permutation in Hc.
  unfold categories in Hc.
  apply list_elem_of_fmap in Hc as ([n a] & -> & Hna).
  apply elem_of_map_to_list in Hna. by exists a.
Qed.

Lemma top_categories_NoDup t : NoDup (map tc_category (topCategories t)).
Proof.
  unfold topCategories. rewrite map_map. cbn [tc_category].
  rewrite <- firstn_map.
  eapply sublist_NoDup; [|apply sublist_take].
  unfold sorted_categories.
  rewrite SortFacts.insertion_sort_Permutation.
  unfold categories. rewrite map_map.
  erewrite map_ext; [apply (NoDup_fst_map_to_list (categorySpending t))|].
  by intros [n a].
Qed.

(** The report of [analyzeTransactions].  Only the empty list yields the
    "no transactions" message.  Otherwise [spend_count] and
    [receive_count] are the numbers of transactions whose type is "send"
    and "receive" (other types are counted nowhere), at most five
    categories are listed, all different and each one of the six category
    names, and each comes with the number of "send" transactions of that
    category (at least one) and with the float sum of their amounts, taken
    in input order and printed with two decimals. *)
Theorem report_bookkeeping transactions days :
  match analyzeTransactions transactions days with
  | NoTransactions _ => transactions = []
  | Report s =>
      transactions <> []
      /\ spend_count s = Z.of_nat (length (List.filter is_send transactions))
      /\ receive_count s = Z.of_nat (length (List.filter is_receive transactions))
      /\ spend_count s + receive_count s <= Z.of_nat (length transactions)
      /\ (length (top_categories s) <= 5)%nat
      /\ NoDup (map tc_category (top_categories s))
      /\ forall e, e ∈ top_categories s ->
           tc_category e ∈ CategorizeFacts.category_names
           /\ 1 <= tc_count e
           /\ tc_count e = Z.of_nat (length (spent_in (tc_category e) transactions))
           /\ tc_amount e
              = F64.format_fixed 2 (fsum 0 (spent_in (tc_category e) transactions))
  end.
Proof.
  destruct transactions as [|tx txs]; [done|].
  unfold analyzeTransactions. cbv beta iota zeta.
  cbn [spend_count receive_count top_categories].
  set (transactions := tx :: txs).
  destruct (aggregate_spec transactions) as (_ & _ & H3 & H4 & H5 & H6).
  pose proof (send_receive_length transactions) as Hlen.
  split; [done|]. split; [exact H3|]. split; [exact H4|].
  split; [rewrite H3, H4; lia|].
  split.
  { unfold topCategories. rewrite length_map. apply firstn_le_length. }
  split; [apply top_categories_NoDup|].
  intros e He. apply top_category_elem in He as (a & Ha & Hfmt & Hcnt).
  rewrite H5 in Ha. rewrite H6 in Hcnt.
  destruct (spent_in (tc_category e) transactions) as [|x l] eqn:El; [done|].
  injection Ha as <-. cbn [from_option] in Hcnt. unfold id in Hcnt.
  split; [apply (spent_in_category _ transactions); by rewrite El|].
  rewrite Hcnt. cbn [length]. repeat split; try lia. exact Hfmt.
Qed.

End SpendingFacts.

(** ** Chronological order *)

From stdpp Require Import sorting.
#[local] Open Scope Z_scope.

Module OrderFacts.
Import Sort GoTime Subscriptions.

Section ByKey.
Context {A : Type} (k : A -> Z).

Let less (a b : A) : bool := k a <? k b.

Lemma bubble_elem (x : A) (rp : list A) (y : A) :
  y ∈ bubble less x rp <-> y = x \/ y ∈ rp.
Proof.
  rewrite (SortFacts.bubble_Permutation less x rp). apply elem_of_cons.
Qed.

Lemma bubble_descending (x : A) (rp : list A) :
  StronglySorted (fun a b => k b <= k a) rp ->
  StronglySorted (fun a b => k b <= k a) (bubble less x rp).
Proof.
  induction 1 as [|y rest Hs IH Hall]; cbn [bubble].
  - repeat constructor.
  - unfold less at 1. destruct (Z.ltb_spec (k x) (k y)) as [Hlt|Hge].
    + constructor; [exact IH|].
      apply Forall_forall. intros z Hz. apply bubble_elem in Hz as [->|Hz]; [lia|].
      by apply (proj1 (Forall_forall _ _) Hall).
    + constructor; [by constructor|].
      constructor; [done|].
      apply Forall_forall. intros z Hz.
      pose proof (proj1 (Forall_forall _ _) Hall z Hz). cbn in *. lia.
Qed.

Lemma rev_ascending (l : list A) :
  StronglySorted (fun a b => k b <= k a) l ->
  StronglySorted (fun a b => k a <= k b) (rev l).
Proof.
  induction 1 as [|y rest Hs IH Hall]; cbn [rev]; [constructor|].
  apply StronglySorted_app_2; [|exact IH|repeat constructor].
  intros a b Ha Hb. apply list_elem_of_singleton in Hb as ->.
  rewrite <- Permutation_rev in Ha.
  by apply (proj1 (Forall_forall _ _) Hall).
Qed.

Lemma insertion_sort_ascending (l : list A) :
  StronglySorted (fun a b => k a <= k b) (insertion_sort less l).
Proof.
  unfold insertion_sort. apply rev_ascending.
  assert (G : forall acc, StronglySorted (fun a b => k b <= k a) acc ->
              StronglySorted (fun a b => k b <= k a)
                (fold_left (fun rp x => bubble less x rp) l acc)).
  { induction l as [|x l IH]; intros acc Hacc; [done|].
    cbn [fold_left]. apply IH. by apply bubble_descending. }
  apply G. constructor.
Qed.

End ByKey.

(** The last element of the sorted dates is a latest date of the group. *)
Lemma last_sorted_latest (dates : list Time) (d0 : Time) :
  dates <> [] ->
  let latest := List.last (sort_dates dates) d0 in
  latest ∈ dates /\ forall d, d ∈ dates -> unix_ns d <= unix_ns latest.
Proof.
  intros Hne latest.
  assert (Hperm : sort_dates dates ≡ₚ dates)
    by apply SortFacts.insertion_sort_Permutation.
  assert (Hsorted : StronglySorted (fun a b => unix_ns a <= unix_ns b) (sort_dates dates))
    by apply (insertion_sort_ascending unix_ns).
  assert (Hne' : sort_dates dates <> []).
  { intros E. rewrite E in Hperm. apply Permutation_nil_l in Hperm. done. }
  pose proof (app_removelast_last d0 Hne') as Hsplit.
  fold latest in Hsplit.
  split.
  - rewrite <- Hperm, Hsplit. apply elem_of_app. right. apply list_elem_of_here.
  - intros d Hd. rewrite <- Hperm, Hsplit in Hd.
    apply elem_of_app in Hd as [Hd|Hd].
    + rewrite Hsplit in Hsorted.
      apply (StronglySorted_app_1_elem_of _ _ _ d latest Hsorted Hd).
      apply list_elem_of_here.
    + apply list_elem_of_singleton in Hd as ->. lia.
Qed.

(** After the [sort.Slice] call of [analyzeForSubscriptions] the dates of
    a group are the same dates as before, now in chronological order, so
    that each interval is taken between two consecutive payments. *)
Theorem sort_dates_sorted (dates : list Time) :
  sort_dates dates ≡ₚ dates
  /\ StronglySorted (fun a b => unix_ns a <= unix_ns b) (sort_dates dates)
  /\ length (intervals_of (sort_dates dates)) = (length dates - 1)%nat.
Proof.
  split; [apply SortFacts.insertion_sort_Permutation|].
  split; [apply (insertion_sort_ascending unix_ns)|].
  rewrite <- (SortFacts.insertion_sort_length Before dates).
  fold (sort_dates dates). generalize (sort_dates dates) as l.
  induction l as [|d0 [|d1 l] IH]; [done|done|].
  change (intervals_of (d0 :: d1 :: l)) with (daysBetween d1 d0 :: intervals_of (d1 :: l)).
  cbn [length] in *. lia.
Qed.

End OrderFacts.

(** ** A calendar for UTC timestamps *)

(** The proleptic Gregorian calendar in UTC, for the timestamps of the
    form [YYYY-MM-DDTHH:MM:SSZ] and the dates of the form [YYYY-MM-DD];
    it is the instance of [GoTime.Calendar] the examples run on. *)
Module UTC.
Import GoTime.

(** Days since 1970-01-01 of a civil date. *)
Definition days_from_civil (y m d : Z) : Z :=
  let y' := if m <=? 2 then y - 1 else y in
  let era := y' / 400 in
  let yoe := y' - era * 400 in
  let doy := (153 * (if 2 <? m then m - 3 else m + 9) + 2) / 5 + d - 1 in
  let doe := yoe * 365 + yoe / 4 - yoe / 100 + doy in
  era * 146097 + doe - 719468.

(** The civil date of a day number. *)
Definition civil_from_days (z : Z) : Z * Z * Z :=
  let z := z + 719468 in
  let era := z / 146097 in
  let doe := z - era * 146097 in
  let yoe := (doe - doe / 1460 + doe / 36524 - doe / 146096) / 365 in
  let doy := doe - (365 * yoe + yoe / 4 - yoe / 100) in
  let mp := (5 * doy + 2) / 153 in
  let d := doy - (153 * mp + 2) / 5 + 1 in
  let m := if mp <? 10 then mp + 3 else mp - 9 in
  (yoe + era * 400 + (if m <=? 2 then 1 else 0), m, d).

Definition is_leap (y : Z) : bool :=
  ((y mod 4 =? 0) && negb (y mod 100 =? 0)) || (y mod 400 =? 0).

Definition days_in (y m : Z) : Z :=
  if m =? 2 then (if is_leap y then 29 else 28)
  else if (m =? 4) || (m =? 6) || (m =? 9) || (m =? 11) then 30
  else 31.

Definition day_ns : Z := 86400 * 1000000000.

(** The decimal number written by a run of digits. *)
Fixpoint digits_value (s : string) (acc : Z) : option Z :=
  match s with
  | EmptyString => Some acc
  | String c t =>
      match Subscriptions.digit_of c with
      | Some d => digits_value t (10 * acc + d)
      | None => None
      end
  end.

Definition field (s : string) (start len : nat) : option Z :=
  let f := String.substring start len s in
  if (String.length f =? len)%nat then digits_value f 0 else None.

Definition char_is (s : string) (i : nat) (c : ascii) : bool :=
  match String.get i s with
  | Some c' => Ascii.eqb c c'
  | None => false
  end.

Definition date_fields (s : string) : option (Z * Z * Z) :=
  y ← field s 0 4; m ← field s 5 2; d ← field s 8 2;
  if char_is s 4 "-" && char_is s 7 "-"
     && (1 <=? m) && (m <=? 12) && (1 <=? d) && (d <=? days_in y m)
  then Some (y, m, d) else None.

Definition parse_timestamp (s : string) : option Time :=
  if negb (String.length s =? 20)%nat then None
  else
    '(y, m, d) ← date_fields s;
    hh ← field s 11 2; mm ← field s 14 2; ss ← field s 17 2;
    if char_is s 10 "T" && char_is s 13 ":" && char_is s 16 ":"
       && char_is s 19 "Z" && (hh <=? 23) && (mm <=? 59) && (ss <=? 59)
    then Some (mkTime ((days_from_civil y m d * 86400 + hh * 3600 + mm * 60 + ss)
                       * 1000000000) 0)
    else None.

Definition parse_day (s : string) : option Time :=
  if negb (String.length s =? 10)%nat then None
  else
    '(y, m, d) ← date_fields s;
    Some (mkTime (days_from_civil y m d * day_ns) 0).

Definition local_day (t : Time) : Z :=
  (unix_ns t + zone_offset t * 1000000000) / day_ns.

Definition format_day (t : Time) : string :=
  let '(y, m, d) := civil_from_days (local_day t) in
  F64.pad_left 4 (pretty (Z.to_N y)) +:+ "-"
    +:+ F64.pad_left 2 (pretty (Z.to_N m)) +:+ "-"
    +:+ F64.pad_left 2 (pretty (Z.to_N d)).

(** [t.AddDate(years, months, days)]: the date moves, the time of day
    stays, and an overflowing month or day is carried over. *)
Definition add_date (t : Time) (years months days : Z) : Time :=
  let local := unix_ns t + zone_offset t * 1000000000 in
  let '(y, m, d) := civil_from_days (local / day_ns) in
  let mi := m - 1 + months in
  let y' := y + years + mi / 12 in
  let m' := mi mod 12 + 1 in
  let day' := days_from_civil y' m' 1 + (d - 1 + days) in
  mkTime (day' * day_ns + local mod day_ns - zone_offset t * 1000000000)
         (zone_offset t).

Definition calendar : Calendar :=
  mkCalendar parse_timestamp parse_day format_day add_date.

End UTC.

(** ** Where a reported subscription comes from *)

Module ProvenanceFacts.
Import Json GoTime Subscriptions GroupFacts.

Lemma merchant_of_nonempty (tx : object) : merchant_of tx <> EmptyString.
Proof.
  unfold merchant_of.
  destruct (as_string (tx !! "description")) as [[|c d]|];
    destruct (as_string (tx !! "recipient")) as [[|c' r]|]; done.
Qed.

Section Provenance.
Context (cal : Calendar) (cutoffDate : Time) (minAmount maxAmount : float).

Lemma subscription_of_fields key dates sub :
  subscription_of cal key dates = Some sub ->
  let sorted := sort_dates dates in
  let latest := List.last sorted (mkTime 0 0) in
  2 <= Z.of_nat (length dates)
  /\ isRegularPattern (intervals_of sorted) = true
  /\ merchant sub = fst key
  /\ amount sub = ParseFloat (snd key)
  /\ frequency sub = detectFrequency (intervals_of sorted)
  /\ occurrences sub = Z.of_nat (length dates)
  /\ last_occurrence sub = formatDate cal latest
  /\ estimated_next sub = estimateNextPayment cal latest (frequency sub)
  /\ total_paid sub = (amount sub * F64.of_int (occurrences sub))%float.
Proof.
  unfold subscription_of. intros H.
  destruct (Z.ltb_spec (Z.of_nat (length dates)) 2) as [|Hlen]; [done|].
  destruct (isRegularPattern (intervals_of (sort_dates dates))) eqn:Hreg; [|done].
  injection H as <-. cbn.
  assert (Hl : length (sort_dates dates) = length dates)
    by apply SortFacts.insertion_sort_length.
  rewrite Hl. by repeat split.
Qed.

(** Every subscription that [analyzeForSubscriptions] reports stands for
    one key (merchant, printed amount) with at least two accepted
    transactions: its merchant is that of the key and is not empty, its
    amount is the printed amount read back, its number of occurrences is
    the number of accepted transactions with that key, its last
    occurrence is the calendar date of a latest one of their dates, the
    sorted dates pass the regularity test, and the total paid is the
    amount times the number of occurrences. *)
Theorem subscription_provenance transactions sub :
  sub ∈ analyzeForSubscriptions cal transactions cutoffDate minAmount maxAmount ->
  exists key latest,
    let dates := dates_for cal cutoffDate minAmount maxAmount key transactions in
    merchant sub = fst key
    /\ merchant sub <> EmptyString
    /\ amount sub = ParseFloat (snd key)
    /\ occurrences sub = Z.of_nat (length dates)
    /\ 2 <= occurrences sub
    /\ isRegularPattern (intervals_of (sort_dates dates)) = true
    /\ frequency sub = detectFrequency (intervals_of (sort_dates dates))
    /\ latest ∈ dates
    /\ (forall d, d ∈ dates -> unix_ns d <= unix_ns latest)
    /\ last_occurrence sub = formatDate cal latest
    /\ estimated_next sub = estimateNextPayment cal latest (frequency sub)
    /\ total_paid sub = (amount sub * F64.of_int (occurrences sub))%float.
Proof.
  intros Hin.
  apply DetectorFacts.analyze_elem in Hin as (key & dates & Hg & Hsub).
  rewrite paymentGroups_lookup in Hg.
  destruct (dates_for cal cutoffDate minAmount maxAmount key transactions)
    as [|d0 ds] eqn:Ed; [done|].
  injection Hg as <-.
  apply subscription_of_fields in Hsub
    as (Hlen & Hreg & Hm & Ha & Hf & Ho & Hl & He & Ht).
  assert (Hne : d0 :: ds <> []) by done.
  destruct (OrderFacts.last_sorted_latest (d0 :: ds) (mkTime 0 0) Hne) as [Hlin Hlmax].
  exists key, (List.last (sort_dates (d0 :: ds)) (mkTime 0 0)). cbn zeta.
  rewrite Ed.
  assert (Hd0 : d0 ∈ dates_for cal cutoffDate minAmount maxAmount key transactions)
    by (rewrite Ed; apply list_elem_of_here).
  apply elem_of_dates_for in Hd0 as (tx & _ & _ & Hk).
  repeat split; try done.
  - rewrite Hm, <- Hk. apply merchant_of_nonempty.
  - lia.
Qed.

End Provenance.

Definition demo_tx (description date : string) (amount : float) : object :=
  <["type" := JString "send"]>
    (<["description" := JString description]>
       (<["amount" := JNumber amount]>
          (<["date" := JString date]>
             (<["status" := JString "completed"]> ∅)))).

(** Four monthly payments and an unrelated one. *)
Definition demo_transactions : list object :=
  [ demo_tx "Netflix Subscription" "2024-01-01T00:00:00Z" 15.99;
    demo_tx "Netflix Subscription" "2024-01-31T00:00:00Z" 15.99;
    demo_tx "Spotify Premium" "2024-02-10T00:00:00Z" 10.99;
    demo_tx "Netflix Subscription" "2024-03-01T00:00:00Z" 15.99;
    demo_tx "Netflix Subscription" "2024-03-31T00:00:00Z" 15.99 ].

Definition demo_subscription : subscription :=
  mkSubscription "Netflix Subscription" 15.99 "monthly" 4 "2024-03-31"
                 "2024-05-01" 63.96 "high".

Lemma demo_detected :
  analyzeForSubscriptions UTC.calendar demo_transactions (mkTime 0 0) 1 999.99
  = [demo_subscription].
Proof. vm_compute. reflexivity. Qed.

Lemma subscription_provenance_witness :
  demo_subscription
    ∈ analyzeForSubscriptions UTC.calendar demo_transactions (mkTime 0 0) 1 999.99
  /\ exists key latest,
       let dates := dates_for UTC.calendar (mkTime 0 0) 1 999.99 key demo_transactions in
       merchant demo_subscription = fst key
       /\ merchant demo_subscription <> EmptyString
       /\ amount demo_subscription = ParseFloat (snd key)
       /\ occurrences demo_subscription = Z.of_nat (length dates)
       /\ 2 <= occurrences demo_subscription
       /\ isRegularPattern (intervals_of (sort_dates dates)) = true
       /\ frequency demo_subscription = detectFrequency (intervals_of (sort_dates dates))
       /\ latest ∈ dates
       /\ (forall d, d ∈ dates -> unix_ns d <= unix_ns latest)
       /\ last_occurrence demo_subscription = formatDate UTC.calendar latest
       /\ estimated_next demo_subscription
          = estimateNextPayment UTC.calendar latest (frequency demo_subscription)
       /\ total_paid demo_subscription
          = (amount demo_subscription * F64.of_int (occurrences demo_subscription))%float.
Proof.
  assert (H : demo_subscription
                ∈ analyzeForSubscriptions UTC.calendar demo_transactions
                    (mkTime 0 0) 1 999.99).
  { rewrite demo_detected. apply list_elem_of_here. }
  split; [exact H|].
  exact (subscription_provenance UTC.calendar (mkTime 0 0) 1 999.99
           demo_transactions demo_subscription H).
Defined.

End ProvenanceFacts.

(** ** How many subscriptions there can be *)

Module CountFacts.
Import Json GoTime Subscriptions GroupFacts.

Section Count.
Context (cal : Calendar) (cutoffDate : Time) (minAmount maxAmount : float).

Let dates (key : paymentKey) (transactions : list object) : list Time :=
  dates_for cal cutoffDate minAmount maxAmount key transactions.

(** The number of accepted transactions over a list of keys. *)
Definition accepted (keys : list paymentKey) (transactions : list object) : nat :=
  list_sum (map (fun key => length (dates key transactions)) keys).

Lemma list_sum_cons (x : nat) (l : list nat) : list_sum (x :: l) = (x + list_sum l)%nat.
Proof. reflexivity. Qed.

Lemma dates_cons key tx txs :
  dates key (tx :: txs) =
  match candidate cal cutoffDate minAmount maxAmount tx with
  | Some (k, d) => if decide (k = key) then d :: dates key txs else dates key txs
  | None => dates key txs
  end.
Proof.
  unfold dates, dates_for. cbn [omap list_omap].
  destruct (candidate cal cutoffDate minAmount maxAmount tx) as [[k d]|]; [|done].
  by destruct (decide (k = key)).
Qed.

Lemma accepted_cons_other keys tx txs :
  (forall k d, candidate cal cutoffDate minAmount maxAmount tx = Some (k, d) -> k ∉ keys) ->
  accepted keys (tx :: txs) = accepted keys txs.
Proof.
  intros H. unfold accepted. f_equal. apply map_ext_in. intros key Hkey.
  rewrite dates_cons.
  destruct (candidate cal cutoffDate minAmount maxAmount tx) as [[k d]|] eqn:Ec; [|done].
  destruct (decide (k = key)) as [->|]; [|done].
  exfalso. apply (H key d eq_refl). by apply list_elem_of_In.
Qed.

Lemma accepted_cons keys tx txs :
  NoDup keys -> (accepted keys (tx :: txs) <= S (accepted keys txs))%nat.
Proof.
  induction 1 as [|key keys Hnotin Hnd IH].
  - cbn. lia.
  - unfold accepted in *. cbn [map]. rewrite !list_sum_cons, dates_cons.
    destruct (candidate cal cutoffDate minAmount maxAmount tx) as [[k d]|] eqn:Ec;
      [|lia].
    destruct (decide (k = key)) as [->|Hne]; [|lia].
    assert (E : accepted keys (tx :: txs) = accepted keys txs).
    { apply accepted_cons_other. intros k' d' Ec'. rewrite Ec in Ec'.
      by injection Ec' as <- <-. }
    unfold accepted in E. rewrite E. cbn [length]. lia.
Qed.

Lemma accepted_le keys transactions :
  NoDup keys -> (accepted keys transactions <= length transactions)%nat.
Proof.
  intros Hnd. induction transactions as [|tx txs IH].
  - unfold accepted. induction keys as [|k ks IHk]; [done|].
    cbn. apply NoDup_cons in Hnd as [_ Hnd]. by apply IHk.
  - pose proof (accepted_cons keys tx txs Hnd). cbn [length]. lia.
Qed.

Lemma reported_le (groups : list (paymentKey * list Time)) transactions :
  (forall key ds, (key, ds) ∈ groups -> ds = dates key transactions) ->
  (2 * length (omap (fun '(key, ds) => subscription_of cal key ds) groups)
   <= accepted (groups.*1) transactions)%nat.
Proof.
  induction groups as [|[key ds] groups IH]; intros H; [cbn; lia|].
  cbn [omap list_omap fmap list_fmap fst].
  assert (IH' := IH (fun k d Hin => H k d (list_elem_of_further _ _ _ Hin))).
  unfold accepted in *. cbn [map]. rewrite list_sum_cons.
  rewrite <- (H key ds (list_elem_of_here _ _)).
  destruct (subscription_of cal key ds) as [sub|] eqn:Es; cbn; [|lia].
  apply DetectorFacts.subscription_of_Some in Es as [Hlen _]. lia.
Qed.

(** [analyzeForSubscriptions] never reports more subscriptions than half
    the number of transactions it was given: each one takes at least two
    transactions of its own. *)
Theorem subscriptions_at_most_half transactions :
  (2 * length (analyzeForSubscriptions cal transactions cutoffDate minAmount maxAmount)
   <= length transactions)%nat.
Proof.
  unfold analyzeForSubscriptions.
  destruct transactions as [|tx txs]; [cbn; lia|].
  set (transactions := tx :: txs).
  set (groups := paymentGroups cal transactions cutoffDate minAmount maxAmount).
  etransitivity; [apply (reported_le _ transactions)|].
  - intros key ds Hin. apply elem_of_map_to_list in Hin.
    unfold groups in Hin. rewrite paymentGroups_lookup in Hin. unfold dates.
    destruct (dates_for cal cutoffDate minAmount maxAmount key transactions); [done|].
    by injection Hin.
  - apply accepted_le. apply NoDup_fst_map_to_list.
Qed.

End Count.
End CountFacts.

(** ** Subscriptions without a schedule *)

Module ScheduleFacts.
Import Json GoTime Subscriptions.

(** The six frequencies that name a billing period. *)
Definition scheduled_frequencies : list string :=
  ["monthly"; "quarterly"; "semi-annual"; "annual"; "biweekly"; "weekly"].

Definition scheduled (frequency : string) : bool :=
  existsb (String.eqb frequency) scheduled_frequencies.

Lemma add_monthly_unscheduled total sub :
  scheduled (frequency sub) = false -> add_monthly total sub = total.
Proof.
  unfold scheduled, scheduled_frequencies, add_monthly. cbn [existsb].
  intros H. repeat (apply orb_false_elim in H as [-> H]). reflexivity.
Qed.

Lemma fold_add_monthly_filter subscriptions : forall total,
  fold_left add_monthly subscriptions total
  = fold_left add_monthly
      (List.filter (fun sub => scheduled (frequency sub)) subscriptions) total.
Proof.
  induction subscriptions as [|sub subs IH]; intros total; [done|].
  cbn [fold_left List.filter].
  destruct (scheduled (frequency sub)) eqn:E.
  - cbn [fold_left]. apply IH.
  - rewrite (add_monthly_unscheduled total sub E). apply IH.
Qed.

(** [calculateTotalMonthlyCost] only counts the subscriptions whose
    frequency is one of the six billing periods: the others ("irregular",
    "unknown", or any other text) can be dropped from the list without
    changing the total. *)
Theorem monthly_cost_skips_unscheduled subscriptions :
  calculateTotalMonthlyCost subscriptions
  = calculateTotalMonthlyCost
      (List.filter (fun sub => scheduled (frequency sub)) subscriptions).
Proof.
  unfold calculateTotalMonthlyCost. by rewrite <- fold_add_monthly_filter.
Qed.

Lemma detectFrequency_names intervals :
  intervals <> [] ->
  detectFrequency intervals = "irregular"
  \/ scheduled (detectFrequency intervals) = true.
Proof.
  intros Hne. unfold detectFrequency.
  destruct intervals as [|i l]; [done|].
  repeat match goal with
         | |- context [if ?b then _ else _] => destruct b
         end; auto.
Qed.

Lemma estimate_unscheduled cal last frequency :
  scheduled frequency = false -> estimateNextPayment cal last frequency = "unknown".
Proof.
  unfold scheduled, scheduled_frequencies, estimateNextPayment. cbn [existsb].
  intros H. repeat (apply orb_false_elim in H as [-> H]). reflexivity.
Qed.

Lemma estimate_scheduled cal last frequency :
  scheduled frequency = true ->
  exists years months days,
    estimateNextPayment cal last frequency
    = formatDate cal (AddDate cal last years months days).
Proof.
  unfold scheduled, scheduled_frequencies, estimateNextPayment. cbn [existsb].
  intros H.
  repeat match goal with
         | |- context [if ?b then _ else _] => destruct b eqn:?; [by eauto|]
         end.
  done.
Qed.

Lemma intervals_of_nonempty (d0 d1 : Time) (rest : list Time) :
  intervals_of (d0 :: d1 :: rest) <> [].
Proof. done. Qed.


Lemma length_append (s1 s2 : string) :
  String.length (s1 +:+ s2) = (String.length s1 + String.length s2)%nat.
Proof. induction s1 as [|c s1 IH]; [done|]. simpl. by f_equal. Qed.

Lemma length_zeros n : String.length (F64.zeros n) = n.
Proof. induction n as [|n IH]; [done|]. simpl. by f_equal. Qed.

Lemma length_pad_left w s : (w <= String.length (F64.pad_left w s))%nat.
Proof. unfold F64.pad_left. rewrite length_append, length_zeros. lia. Qed.

Lemma format_day_not_unknown (t : Time) : UTC.format_day t <> "unknown".
Proof.
  intros E. apply (f_equal String.length) in E. revert E.
  unfold UTC.format_day. destruct (UTC.civil_from_days _) as [[y m] d].
  rewrite !length_append.
  pose proof (length_pad_left 4 (pretty (Z.to_N y))).
  pose proof (length_pad_left 2 (pretty (Z.to_N m))).
  pose proof (length_pad_left 2 (pretty (Z.to_N d))).
  cbn [String.length]. lia.
Qed.


End ScheduleFacts.

(** ** Warnings *)

Module WarningFacts.
Import Strings GoTime Subscriptions.

(** The five groups of [knownPatterns], as the source lists them. *)
Definition bucket_table : list (string * list string) :=
  [ ("streaming", ["netflix"; "hulu"; "disney"; "prime"; "spotify"; "hbo";
                   "apple tv"; "youtube premium"]);
    ("music", ["spotify"; "apple music"; "youtube music"; "tidal"; "pandora"]);
    ("cloud", ["dropbox"; "google one"; "icloud"; "onedrive"]);
    ("fitness", ["peloton"; "classpass"; "apple fitness"; "strava";
                 "planet fitness"]);
    ("software", ["adobe"; "github"; "office"]) ].

(** A subscription belongs to a group when its lower-cased merchant
    contains one of the group's keywords. *)
Definition in_bucket (keywords : list string) (sub : subscription) : bool :=
  existsb (Contains (ToLower (merchant sub))) keywords.

(** The merchants of the subscriptions of a group, in list order. *)
Definition merchants_in (keywords : list string) (subscriptions : list subscription)
  : list string :=
  map merchant (List.filter (in_bucket keywords) subscriptions).

Lemma omap_filter {A B} (p : A -> bool) (f : A -> B) (k : A -> option B) (l : list A) :
  (forall x, k x = if p x then Some (f x) else None) ->
  omap k l = map f (List.filter p l).
Proof.
  intros H. induction l as [|x l IH]; [done|].
  cbn [omap list_omap List.filter]. rewrite H.
  destruct (p x); cbn [map]; by rewrite <- IH.
Qed.

Lemma omap_omap {A B C} (g : B -> option C) (h : A -> option B) (l : list A) :
  omap g (omap h l) = omap (fun x => h x ≫= g) l.
Proof.
  induction l as [|x l IH]; [done|]. cbn [omap list_omap].
  destruct (h x) as [y|]; cbn; [|exact IH].
  destruct (g y); by rewrite <- IH.
Qed.

Lemma knownPatterns_list :
  map_to_list knownPatterns
  = [ ("software", ["adobe"; "github"; "office"]);
      ("streaming", ["netflix"; "hulu"; "disney"; "prime"; "spotify"; "hbo";
                     "apple tv"; "youtube premium"]);
      ("cloud", ["dropbox"; "google one"; "icloud"; "onedrive"]);
      ("music", ["spotify"; "apple music"; "youtube music"; "tidal"; "pandora"]);
      ("fitness", ["peloton"; "classpass"; "apple fitness"; "strava";
                   "planet fitness"]) ].
Proof. vm_compute. reflexivity. Qed.

Lemma knownPatterns_rows (c : string) (keywords : list string) :
  knownPatterns !! c = Some keywords <-> (c, keywords) ∈ bucket_table.
Proof.
  rewrite <- elem_of_map_to_list, knownPatterns_list. unfold bucket_table.
  rewrite !elem_of_cons, !elem_of_nil. tauto.
Qed.

Section Step.
Context (lower merchant : string).

Let step (mc : gmap string (list string)) (row : string * list string)
  : gmap string (list string) :=
  let '(category, keywords) := row in
  if existsb (Contains lower) keywords
  then <[category := default [] (mc !! category) ++ [merchant]]> mc
  else mc.

Let hit (rows : list (string * list string)) (c : string) : bool :=
  existsb (fun row => String.eqb (fst row) c && existsb (Contains lower) (snd row))
          rows.

Lemma hit_key rows c : hit rows c = true -> c ∈ rows.*1.
Proof.
  induction rows as [|[c' kws] rows IH]; [done|].
  unfold hit. cbn [existsb fst snd fmap list_fmap]. intros H.
  apply orb_true_iff in H as [H|H].
  - apply andb_true_iff in H as [H _]. apply String.eqb_eq in H as ->.
    apply list_elem_of_here.
  - apply list_elem_of_further. by apply IH.
Qed.

Lemma fold_step_lookup rows : NoDup (rows.*1) -> forall mc c,
  fold_left step rows mc !! c
  = if hit rows c then Some (default [] (mc !! c) ++ [merchant]) else mc !! c.
Proof.
  induction rows as [|[c' kws] rows IH]; intros Hnd mc c; [done|].
  cbn [fmap list_fmap fst] in Hnd. apply NoDup_cons in Hnd as [Hnotin Hnd].
  cbn [fold_left]. rewrite (IH Hnd).
  unfold hit at 2. cbn [existsb fst snd]. fold (hit rows c).
  unfold step at 1 2.
  destruct (String.eqb_spec c' c) as [->|Hne]; cbn [andb orb].
  - destruct (hit rows c) eqn:Eh; [by apply hit_key in Eh|].
    destruct (existsb (Contains lower) kws); [|done].
    by rewrite lookup_insert_eq.
  - destruct (existsb (Contains lower) kws); [|done].
    by rewrite lookup_insert_ne.
Qed.

End Step.

Lemma add_merchant_lookup mc sub c :
  add_merchant mc sub !! c
  = if in_bucket (default [] (knownPatterns !! c)) sub
    then Some (default [] (mc !! c) ++ [merchant sub])
    else mc !! c.
Proof.
  unfold add_merchant.
  etransitivity;
    [exact (fold_step_lookup (ToLower (merchant sub)) (merchant sub)
              (map_to_list knownPatterns) (NoDup_fst_map_to_list _) mc c)|].
  assert (E : existsb
                  (fun row : string * list string =>
                     String.eqb (fst row) c
                     && existsb (Contains (ToLower (merchant sub))) (snd row))
                  (map_to_list knownPatterns)
                = in_bucket (default [] (knownPatterns !! c)) sub).
  { unfold in_bucket.
    pose proof (NoDup_fst_map_to_list knownPatterns) as Hnd.
    destruct (knownPatterns !! c) as [kws|] eqn:El.
    - apply elem_of_map_to_list in El as Hin.
      revert Hin Hnd. generalize (map_to_list knownPatterns) as rows.
      induction rows as [|[c' kws'] rows IH]; intros Hin Hnd; [by inversion Hin|].
      cbn [fmap list_fmap fst] in Hnd. apply NoDup_cons in Hnd as [Hnotin Hnd].
      cbn [existsb fst snd from_option].
      apply elem_of_cons in Hin as [[= <- <-]|Hin].
      + rewrite String.eqb_refl. cbn [andb].
        assert (Hrest : existsb
                  (fun row : string * list string =>
                     String.eqb (fst row) c
                     && existsb (Contains (ToLower (merchant sub))) (snd row))
                  rows = false).
        { apply not_true_is_false. intros H. apply Hnotin.
          exact (hit_key (ToLower (merchant sub)) rows c H). }
        rewrite Hrest. apply orb_false_r.
      + assert (Hne : c' <> c).
        { intros ->. apply Hnotin. apply list_elem_of_fmap. by exists (c, kws). }
        apply String.eqb_neq in Hne. rewrite Hne. cbn [andb orb]. by apply IH.
    - cbn [from_option existsb].
      apply not_true_is_false. intros H.
      apply (hit_key (ToLower (merchant sub))) in H.
      apply list_elem_of_fmap in H as ([c' k] & -> & Hin).
      apply elem_of_map_to_list in Hin. cbn [fst] in El. congruence. }
  by rewrite E.
Qed.

Lemma merchantCategories_fold subscriptions : forall mc c,
  fold_left add_merchant subscriptions mc !! c
  = match merchants_in (default [] (knownPatterns !! c)) subscriptions with
    | [] => mc !! c
    | l => Some (default [] (mc !! c) ++ l)
    end.
Proof.
  induction subscriptions as [|sub subs IH]; intros mc c; [done|].
  cbn [fold_left]. rewrite IH, add_merchant_lookup.
  unfold merchants_in. cbn [List.filter].
  destruct (in_bucket (default [] (knownPatterns !! c)) sub); cbn [map]; [|done].
  destruct (map merchant _); cbn [from_option]; unfold id; [reflexivity|].
  by rewrite <- app_assoc.
Qed.

Lemma merchantCategories_lookup subscriptions c :
  merchantCategories subscriptions !! c
  = match merchants_in (default [] (knownPatterns !! c)) subscriptions with
    | [] => None
    | l => Some l
    end.
Proof.
  unfold merchantCategories. rewrite merchantCategories_fold, lookup_empty.
  by destruct (merchants_in _ _).
Qed.

Lemma merchants_in_nil subscriptions : merchants_in [] subscriptions = [].
Proof.
  unfold merchants_in. induction subscriptions as [|sub subs IH]; [done|].
  cbn [List.filter in_bucket existsb]. exact IH.
Qed.

Lemma omap_Permutation {A B} (g : A -> option B) (l l' : list A) :
  l ≡ₚ l' -> omap g l ≡ₚ omap g l'.
Proof.
  induction 1 as [|x l l' _ IH|x y l|l l' l'' _ IH1 _ IH2]; cbn [omap list_omap].
  - done.
  - destruct (g x); by rewrite IH.
  - destruct (g x), (g y); try done. apply Permutation_swap.
  - by rewrite IH1.
Qed.

Lemma omap_NoDup_keys {A K V} (h : A -> option (K * V)) (key : A -> K) (l : list A) :
  (forall x y, h x = Some y -> fst y = key x) ->
  NoDup (map key l) -> NoDup (omap h l).
Proof.
  intros Hkey. induction l as [|x l IH]; cbn [map omap list_omap]; [constructor|].
  intros Hnd. apply NoDup_cons in Hnd as [Hnotin Hnd].
  destruct (h x) as [y|] eqn:Ex; [|by apply IH].
  apply NoDup_cons. split; [|by apply IH].
  intros Hin. apply list_elem_of_omap in Hin as (x' & Hx' & Ex').
  apply Hnotin. apply list_elem_of_fmap. exists x'. split; [|done].
  by rewrite <- (Hkey _ _ Ex), <- (Hkey _ _ Ex').
Qed.

(** The non-empty groups, as a list in the order of the table. *)
Definition group_entries (subscriptions : list subscription)
  : list (string * list string) :=
  omap (fun row => match merchants_in (snd row) subscriptions with
                   | [] => None
                   | l => Some (fst row, l)
                   end)
       bucket_table.

Lemma merchantCategories_entries subscriptions :
  map_to_list (merchantCategories subscriptions) ≡ₚ group_entries subscriptions.
Proof.
  apply NoDup_Permutation.
  - apply NoDup_map_to_list.
  - unfold group_entries. apply (omap_NoDup_keys _ fst).
    + intros [c kws] y. cbn [fst snd].
      destruct (merchants_in kws subscriptions); [done|]. by intros [= <-].
    + unfold bucket_table. cbn [map fst].
      repeat (apply NoDup_cons; split;
              [rewrite ?elem_of_cons, elem_of_nil; intros H;
               repeat (destruct H as [H|H]; [discriminate H|]); exact H|]).
      constructor.
  - intros [c l]. rewrite elem_of_map_to_list, merchantCategories_lookup.
    unfold group_entries. rewrite list_elem_of_omap. split.
    + destruct (knownPatterns !! c) as [kws|] eqn:El.
      * cbn [from_option]. unfold id.
        destruct (merchants_in kws subscriptions) as [|m ms] eqn:Em;
          [intros H; discriminate H|].
        intros [= <-]. exists (c, kws).
        split; [by apply knownPatterns_rows|]. cbn [fst snd]. by rewrite Em.
      * cbn [from_option]. rewrite merchants_in_nil. intros H. discriminate H.
    + intros ([c' kws] & Hrow & H). cbn [fst snd] in H.
      apply knownPatterns_rows in Hrow.
      destruct (merchants_in kws subscriptions) as [|m ms] eqn:Em; [done|].
      injection H as <- <-. rewrite Hrow. cbn [from_option]. unfold id. by rewrite Em.
Qed.

Section Structure.
Context (cal : Calendar) (now : Time).

(** The warnings of [generateWarnings], in order.  Without subscriptions
    there is the single "none detected" message.  Otherwise the list
    opens with the monthly total; next come, in the order Go happens to
    visit its map, the consolidation hints, one for each of the five
    groups that at least two of the subscriptions belong to, naming their
    merchants in list order; then one inactivity warning for each
    subscription that [seems_inactive], in list order; and last the
    savings tip, present exactly when the total exceeds 50. *)
Theorem warnings_structure subscriptions :
  generateWarnings cal now [] = [none_detected]
  /\ (subscriptions <> [] ->
      let total := calculateTotalMonthlyCost subscriptions in
      exists consolidation,
        generateWarnings cal now subscriptions
        = [total_message total] ++ consolidation
          ++ map (fun sub => inactive_message (merchant sub) (last_occurrence sub))
                 (List.filter (seems_inactive cal now) subscriptions)
          ++ (if F64.gt total 50
              then [tip_message (F64.Round (total * 0.1 * 100) / 100)%float]
              else [])
        /\ consolidation
           ≡ₚ map (fun row => consolidation_message (fst row)
                                (merchants_in (snd row) subscriptions))
                  (List.filter
                     (fun row => 1 <? Z.of_nat (length (merchants_in (snd row)
                                                          subscriptions)))
                     bucket_table)).
Proof.
  split; [done|]. intros Hne total.
  exists (consolidation_warnings subscriptions). split.
  - unfold generateWarnings. destruct subscriptions as [|sub subs]; [done|].
    fold total. f_equal. f_equal. f_equal.
    unfold inactive_warnings. apply omap_filter. intros x.
    by destruct (seems_inactive cal now x).
  - unfold consolidation_warnings.
    rewrite (omap_Permutation _ _ _ (merchantCategories_entries subscriptions)).
    unfold group_entries. rewrite omap_omap.
    erewrite omap_filter; [reflexivity|].
    intros [c kws]. cbn [fst snd].
    destruct (merchants_in kws subscriptions) as [|m ms]; [done|].
    cbn [mbind option_bind]. reflexivity.
Qed.

End Structure.

End WarningFacts.

(** ** The dashboard's summary *)

Module DashboardFacts.
Import Strings Dashboard.

Definition category_names : list string :=
  ["Food & Dining"; "Transportation"; "Shopping"; "Entertainment";
   "Bills & Utilities"; "Healthcare"; "Transfers"; "Other"].

Lemma categorize_in_names tx : categorizeTransaction tx ∈ category_names.
Proof.
  unfold categorizeTransaction, category_names.
  repeat match goal with
         | |- context [if ?b then _ else _] => destruct b
         end;
    repeat first [apply list_elem_of_here | apply list_elem_of_further].
Qed.

(** The entry of a category in the association list. *)
Definition entry (c : string) (categoryMap : list (string * (float * Z)))
  : option (float * Z) :=
  snd <$> List.find (fun row => String.eqb (fst row) c) categoryMap.

Lemma entry_bump categoryMap c' a c :
  entry c (bump categoryMap c' a)
  = if String.eqb c' c
    then Some ((fst (default (0%float, 0%Z) (entry c categoryMap)) + a)%float,
               snd (default (0%float, 0%Z) (entry c categoryMap)) + 1)
    else entry c categoryMap.
Proof.
  unfold entry. induction categoryMap as [|[c0 [a0 n0]] rest IH]; cbn [bump].
  - cbn [List.find fst snd]. destruct (String.eqb c' c); reflexivity.
  - destruct (String.eqb_spec c0 c') as [->|Hne]; cbn [List.find fst snd].
    + destruct (String.eqb c' c); reflexivity.
    + destruct (String.eqb_spec c0 c) as [->|Hne'].
      * apply String.eqb_neq in Hne. rewrite String.eqb_sym in Hne.
        rewrite Hne. reflexivity.
      * exact IH.
Qed.

Lemma bump_keys categoryMap c a :
  NoDup (categoryMap.*1) -> NoDup ((bump categoryMap c a).*1).
Proof.
  assert (Hk : forall m x, x ∈ (bump m c a).*1 -> x = c \/ x ∈ m.*1).
  { induction m as [|[c0 [a0 n0]] rest IH]; intros x; cbn [bump].
    - cbn. rewrite list_elem_of_singleton. auto.
    - destruct (String.eqb c0 c); cbn [fmap list_fmap fst]; rewrite !elem_of_cons.
      + auto.
      + intros [->|H]; [auto|]. apply IH in H as [->|H]; auto. }
  induction categoryMap as [|[c0 [a0 n0]] rest IH]; cbn [bump]; intros Hnd.
  - cbn. apply NoDup_singleton.
  - cbn [fmap list_fmap fst] in Hnd. apply NoDup_cons in Hnd as [Hnotin Hnd].
    destruct (String.eqb_spec c0 c) as [->|Hne]; cbn [fmap list_fmap fst].
    + by apply NoDup_cons.
    + apply NoDup_cons. split; [|by apply IH].
      intros H. apply Hk in H as [->|H]; done.
Qed.

Lemma entry_elem c v (categoryMap : list (string * (float * Z))) :
  NoDup (categoryMap.*1) -> (c, v) ∈ categoryMap -> entry c categoryMap = Some v.
Proof.
  unfold entry. induction categoryMap as [|[c0 v0] rest IH]; intros Hnd Hin;
    [by inversion Hin|].
  cbn [fmap list_fmap fst] in Hnd. apply NoDup_cons in Hnd as [Hnotin Hnd].
  cbn [List.find fst].
  apply elem_of_cons in Hin as [[= <- <-]|Hin].
  - by rewrite String.eqb_refl.
  - destruct (String.eqb_spec c0 c) as [->|Hne]; [|by apply IH].
    exfalso. apply Hnotin. apply list_elem_of_fmap. by exists (c, v).
Qed.

(** The amounts of the counted transactions of one category, in order. *)
Definition counted_in (c : string) (transactions : list Transaction) : list float :=
  map amount
      (List.filter (fun tx => is_outgoing tx
                              && String.eqb (categorizeTransaction tx) c)
                   transactions).

Definition step (acc : list (string * (float * Z)) * float) (tx : Transaction)
  : list (string * (float * Z)) * float :=
  let '(categoryMap, total) := acc in
  (bump categoryMap (categorizeTransaction tx) (amount tx), (total + amount tx)%float).

Lemma fold_step (outgoing : list Transaction) : forall acc,
  Forall (fun tx => is_outgoing tx = true) outgoing ->
  NoDup ((fst acc).*1) ->
  let result := fold_left step outgoing acc in
  NoDup ((fst result).*1)
  /\ forall c,
       entry c (fst result) =
       match counted_in c outgoing with
       | [] => entry c (fst acc)
       | l => Some (SpendingFacts.fsum (fst (default (0%float, 0%Z) (entry c (fst acc)))) l,
                    snd (default (0%float, 0%Z) (entry c (fst acc))) + Z.of_nat (length l))
       end.
Proof.
  induction outgoing as [|tx txs IH]; intros [m total] Hout Hnd; cbn zeta.
  - split; [done|]. done.
  - apply Forall_cons in Hout as [Htx Hout].
    cbn [fold_left]. unfold step at 2.
    destruct (IH (bump m (categorizeTransaction tx) (amount tx),
                  (total + amount tx)%float) Hout) as [Hnd' Hentry].
    { cbn [fst]. by apply bump_keys. }
    split; [exact Hnd'|].
    intros c. rewrite Hentry. cbn [fst].
    unfold counted_in. cbn [List.filter]. rewrite Htx. cbn [andb].
    rewrite entry_bump.
    destruct (String.eqb (categorizeTransaction tx) c); cbn [map]; [|done].
    destruct (map amount _); cbn [from_option length SpendingFacts.fsum fold_left];
      unfold id, Datatypes.id; cbn [fst snd]; f_equal; f_equal; lia.
Qed.

Lemma filter_outgoing transactions :
  filter (fun tx => is_outgoing tx = true) transactions
  = List.filter is_outgoing transactions.
Proof.
  induction transactions as [|tx txs IH]; [done|].
  rewrite filter_cons. cbn [List.filter].
  destruct (is_outgoing tx) eqn:E.
  - rewrite decide_True by done. by rewrite IH.
  - rewrite decide_False by done. exact IH.
Qed.

Lemma filter_outgoing_idem transactions :
  List.filter is_outgoing (List.filter is_outgoing transactions)
  = List.filter is_outgoing transactions.
Proof.
  induction transactions as [|tx txs IH]; [done|]. cbn [List.filter].
  destruct (is_outgoing tx) eqn:E; [|exact IH].
  cbn [List.filter]. rewrite E. by rewrite IH.
Qed.

Lemma counted_in_outgoing c transactions :
  counted_in c (List.filter is_outgoing transactions) = counted_in c transactions.
Proof.
  unfold counted_in. f_equal.
  induction transactions as [|tx txs IH]; [done|]. cbn [List.filter].
  destruct (is_outgoing tx) eqn:E; cbn [andb List.filter]; [|exact IH].
  rewrite E. cbn [andb]. by rewrite IH.
Qed.

Lemma counted_in_names c transactions :
  counted_in c transactions <> [] -> c ∈ category_names.
Proof.
  unfold counted_in. induction transactions as [|tx txs IH]; [done|].
  cbn [List.filter].
  destruct (is_outgoing tx); cbn [andb]; [|exact IH].
  destruct (String.eqb_spec (categorizeTransaction tx) c) as [<-|]; [|exact IH].
  intros _. apply categorize_in_names.
Qed.

Lemma group_spending_fold (outgoing : list Transaction) :
  group_spending outgoing = fold_left step outgoing ([], 0%float).
Proof.
  unfold group_spending. generalize (@nil (string * (float * Z)), 0%float).
  induction outgoing as [|tx txs IH]; intros acc; [done|].
  cbn [fold_left]. rewrite IH. destruct acc; reflexivity.
Qed.

Lemma group_spending_spec (outgoing : list Transaction) :
  Forall (fun tx => is_outgoing tx = true) outgoing ->
  NoDup ((group_spending outgoing).1.*1)
  /\ forall c,
       entry c (group_spending outgoing).1 =
       match counted_in c outgoing with
       | [] => None
       | l => Some (SpendingFacts.fsum 0 l, Z.of_nat (length l))
       end.
Proof.
  intros Hout.
  destruct (fold_step outgoing ([], 0%float) Hout) as [Hnd Hentry].
  { cbn. constructor. }
  rewrite group_spending_fold. split; [exact Hnd|]. intros c.
  etransitivity; [exact (Hentry c)|].
  destruct (counted_in c outgoing); reflexivity.
Qed.

(** The rows of [calculateSpending].  Only completed transactions of type
    send or withdrawal count: the result is the same when all others are
    removed, and it is empty exactly when none counts.  There are at most
    five rows, for pairwise different categories out of the eight names
    of the hook's categoriser, and each row carries the number of counted
    transactions of its category (at least one) and the float sum of
    their amounts, in input order, rounded to cents by [Math.round]. *)
Theorem dashboard_rows transactions :
  let rows := calculateSpending transactions in
  calculateSpending (List.filter is_outgoing transactions) = rows
  /\ (rows = [] <-> Forall (fun tx => is_outgoing tx = false) transactions)
  /\ (length rows <= 5)%nat
  /\ NoDup (map category rows)
  /\ forall r, r ∈ rows ->
       category r ∈ category_names
       /\ 1 <= count r
       /\ count r = Z.of_nat (length (counted_in (category r) transactions))
       /\ sp_amount r
          = (F64.jsRound (SpendingFacts.fsum 0 (counted_in (category r) transactions)
                          * 100) / 100)%float.
Proof.
  cbn zeta. unfold calculateSpending. rewrite !filter_outgoing, filter_outgoing_idem.
  split; [reflexivity|].
  set (outgoing := List.filter is_outgoing transactions).
  assert (Hout : Forall (fun tx => is_outgoing tx = true) outgoing).
  { apply Forall_forall. intros tx Hin. apply list_elem_of_In, filter_In in Hin. tauto. }
  assert (Hempty : outgoing = [] <-> Forall (fun tx => is_outgoing tx = false) transactions).
  { unfold outgoing. clear. induction transactions as [|tx txs IH]; [done|].
    cbn [List.filter]. rewrite Forall_cons.
    destruct (is_outgoing tx); [split; [done|intros [? _]; done]|].
    rewrite IH. tauto. }
  destruct (group_spending_spec outgoing Hout) as [Hnd Hentry].
  destruct outgoing as [|tx0 txs0] eqn:Eout.
  { split; [by rewrite <- Hempty|]. split; [cbn; lia|]. split; [constructor|].
    intros r Hr. inversion Hr. }
  rewrite <- Eout in *. clear Hempty.
  destruct (group_spending outgoing) as [categoryMap total] eqn:Eg.
  cbn [fst] in Hnd, Hentry.
  set (row := fun '(category, (amount, count)) =>
               mkSpending category
                 (F64.jsRound (amount * 100) / 100)%float
                 (if F64.gt total 0 then F64.jsRound (amount / total * 100)%float
                  else 0%float)
                 count).
  set (sorted := Sort.insertion_sort _ (map row categoryMap)).
  assert (Hperm : sorted ≡ₚ map row categoryMap)
    by apply SortFacts.insertion_sort_Permutation.
  assert (Hcat : map category (map row categoryMap) = categoryMap.*1).
  { rewrite map_map. apply map_ext. by intros [c [a n]]. }
  split; [|split; [|split]].
  - split; [|intros Hall; exfalso].
    + intros Hnil. exfalso.
      assert (Hin : entry (categorizeTransaction tx0) categoryMap <> None).
      { assert (Htx0 : is_outgoing tx0 = true).
        { rewrite Eout in Hout. by apply Forall_cons in Hout as [? _]. }
        rewrite Hentry, Eout. unfold counted_in. cbn [List.filter].
        rewrite Htx0, String.eqb_refl. done. }
      assert (Hm : categoryMap <> []) by (intros ->; by apply Hin).
      assert (Hl : length sorted = length categoryMap).
      { rewrite Hperm. apply length_map. }
      destruct sorted as [|x l]; [|done].
      destruct categoryMap; [done|]. cbn in Hl. lia.
    + assert (Htx0 : is_outgoing tx0 = true).
      { rewrite Eout in Hout. by apply Forall_cons in Hout as [? _]. }
      assert (Hin0 : tx0 ∈ transactions).
      { assert (Hin' : tx0 ∈ outgoing) by (rewrite Eout; apply list_elem_of_here).
        apply list_elem_of_In, filter_In in Hin' as [Hin' _].
        by apply list_elem_of_In. }
      pose proof (proj1 (Forall_forall _ _) Hall tx0 Hin0) as Hf. cbn in Hf. congruence.
  - apply firstn_le_length.
  - rewrite <- firstn_map. eapply sublist_NoDup; [|apply sublist_take].
    rewrite Hperm, Hcat. exact Hnd.
  - intros r Hr. apply (subseteq_take 5) in Hr. rewrite Hperm in Hr.
    apply list_elem_of_fmap in Hr as ([c [a n]] & -> & Hin).
    cbn [row category count sp_amount].
    pose proof (entry_elem c (a, n) categoryMap Hnd Hin) as He.
    rewrite Hentry in He. unfold outgoing in He. rewrite counted_in_outgoing in He.
    destruct (counted_in c transactions) as [|x l] eqn:Ec; [done|].
    injection He as <- <-.
    split; [apply (counted_in_names c transactions); by rewrite Ec|].
    cbn [length]. repeat split; lia.
Qed.

End DashboardFacts.

(** ** Mock data generators (Go) *)

(** [math/rand] is modelled by the sequence of its raw draws: [Intn n]
    takes the next integer draw modulo [n] and panics when [n <= 0];
    [Float64] takes the next float draw.  Every run of the generators is
    the run on some such sequence. *)
Module Mock.
Import Json GoTime.

Record source := mkSource {
  ints : nat -> Z;
  floats : nat -> float
}.

(** How many integer and float draws have been taken. *)
Record position := mkPosition { next_int : nat; next_float : nat }.

(** The result of a computation that draws random numbers: a panic, or a
    value and the new position. *)
Inductive outcome (A : Type) :=
| Panic
| Done (a : A) (p : position).
Arguments Panic {A}.
Arguments Done {A} a p.

Definition Rand (A : Type) : Type := source -> position -> outcome A.

Definition ret {A} (a : A) : Rand A := fun _ p => Done a p.

Definition bind {A B} (m : Rand A) (k : A -> Rand B) : Rand B :=
  fun src p =>
    match m src p with
    | Panic => Panic
    | Done a p' => k a src p'
    end.

Notation "'let*' x := m 'in' k" := (bind m (fun x => k))
  (at level 10, x name, m at level 100, k at level 200).

(** [rand.Intn(n)] *)
Definition Intn (n : Z) : Rand Z :=
  fun src p =>
    if n <=? 0 then Panic
    else Done (ints src (next_int p) mod n)
              (mkPosition (S (next_int p)) (next_float p)).

(** [rand.Float64()] *)
Definition Float64 : Rand float :=
  fun src p =>
    Done (floats src (next_float p)) (mkPosition (next_int p) (S (next_float p))).

(** [for i := from; i < from + n; i++ { out = append(out, body(i)...) }] *)
Fixpoint loop {A} (n : nat) (from : Z) (body : Z -> Rand (list A)) (out : list A)
  : Rand (list A) :=
  match n with
  | O => ret out
  | S k => let* xs := body from in loop k (from + 1) body (out ++ xs)
  end.

(** The map literal that both generators append. *)
Definition transaction (id txType : string) (amount : float)
    (description date : string) : object :=
  <["id" := JString id]>
  (<["type" := JString txType]>
  (<["amount" := JNumber amount]>
  (<["description" := JString description]>
  (<["date" := JString date]>
  (<["status" := JString "completed"]>
  (<["currency" := JString "USD"]> ∅)))))).

Section Generators.
(** [time.Now()], the calendar, and [Format(time.RFC3339)]. *)
Context (cal : Calendar) (now : Time) (formatRFC3339 : Time -> string).

Definition templates : list (string * float * string) :=
  [ ("Starbucks Coffee", 8.50%float, "send");
    ("Chipotle Mexican Grill", 15.75%float, "send");
    ("Whole Foods Market", 67.30%float, "send");
    ("DoorDash - Pizza Delivery", 32.50%float, "send");
    ("Local Coffee Shop", 6.25%float, "send");
    ("Uber Ride", 18.50%float, "send");
    ("Gas Station", 45.00%float, "send");
    ("Lyft Ride", 22.75%float, "send");
    ("Metro Card Reload", 30.00%float, "send");
    ("Amazon.com", 89.99%float, "send");
    ("Target Store", 54.25%float, "send");
    ("Nike Store", 125.00%float, "send");
    ("Netflix Subscription", 15.99%float, "send");
    ("Spotify Premium", 10.99%float, "send");
    ("Movie Theater", 28.50%float, "send");
    ("Steam Games", 59.99%float, "send");
    ("Electric Bill Payment", 125.50%float, "send");
    ("Internet Service", 79.99%float, "send");
    ("Phone Bill", 65.00%float, "send");
    ("Payroll Deposit", 2500.00%float, "receive");
    ("Freelance Payment", 450.00%float, "receive");
    ("Refund from Amazon", 29.99%float, "receive");
    ("Payment from @alice", 75.00%float, "receive") ].

(** [generateMockTransactionsForAnalysis] *)
Definition generateMockTransactionsForAnalysis (days : Z) : Rand (list object) :=
  let* extra := Intn 11 in
  let numTxs := 30 + extra in
  loop (Z.to_nat numTxs) 0
       (fun i =>
          let* index := Intn (Z.of_nat (length templates)) in
          let '(description, amount, txType) :=
            nth (Z.to_nat index) templates (EmptyString, 0%float, EmptyString) in
          let* daysAgo := Intn days in
          let txDate := AddDate cal now 0 0 (- daysAgo) in
          let* r := Float64 in
          let variance := (0.8 + r * 0.4)%float in
          let amount := (F64.Round (amount * variance * 100) / 100)%float in
          ret [transaction ("tx_mock_" +:+ pretty i) txType amount description
                           (formatRFC3339 txDate)])
       [].

(** Merchant, amount, days between payments. *)
Definition subscription_templates : list (string * float * Z) :=
  [ ("Netflix Subscription", 15.99%float, 30);
    ("Spotify Premium", 10.99%float, 30);
    ("Amazon Prime", 14.99%float, 30);
    ("Adobe Creative Cloud", 54.99%float, 30);
    ("Planet Fitness", 24.99%float, 30);
    ("New York Times Digital", 17.00%float, 30);
    ("Hulu (No Ads)", 17.99%float, 30);
    ("iCloud Storage 200GB", 2.99%float, 30);
    ("GitHub Pro", 7.00%float, 30);
    ("Dropbox Plus", 11.99%float, 30);
    ("Annual Software License", 299.00%float, 365);
    ("Quarterly Insurance", 450.00%float, 90);
    ("Biweekly Meal Delivery", 89.99%float, 14) ].

Definition oneTimePurchases : list string :=
  [ "Whole Foods Market"; "Target Store"; "Uber Ride"; "Amazon.com";
    "Starbucks Coffee"; "Gas Station" ].

(** The inner loop for one selected subscription, from occurrence [j] on;
    [n] bounds the iterations that are left. *)
Fixpoint occurrences_from (n : nat) (j : Z) (numOccurrences daysToGenerate : Z)
    (sub : string * float * Z) (out : list object) : Rand (list object) :=
  match n with
  | O => ret out
  | S k =>
      if negb (j <? numOccurrences) then ret out
      else
        let '(merchant, amount, frequency) := sub in
        let daysAgo := j * frequency in
        if daysToGenerate <? daysAgo then ret out
        else
          let txDate := AddDate cal now 0 0 (- daysAgo) in
          let* r := Float64 in
          let variance := (0.98 + r * 0.04)%float in
          let amount := (F64.Round (amount * variance * 100) / 100)%float in
          occurrences_from k (j + 1) numOccurrences daysToGenerate sub
            (out ++ [transaction ("tx_sub_" +:+ merchant +:+ "_" +:+ pretty j)
                                 "send" amount merchant (formatRFC3339 txDate)])
  end.

Fixpoint for_each_selected (selected : list (string * float * Z))
    (daysToGenerate : Z) (out : list object) : Rand (list object) :=
  match selected with
  | [] => ret out
  | sub :: rest =>
      let numOccurrences := Z.quot daysToGenerate (snd sub) in
      let* recurring := occurrences_from (Z.to_nat numOccurrences) 0 numOccurrences
                          daysToGenerate sub out in
      for_each_selected rest daysToGenerate recurring
  end.

(** [generateMockSubscriptionTransactions] *)
Definition generateMockSubscriptionTransactions (months : Z) : Rand (list object) :=
  let* extra := Intn 4 in
  let numSubs := 5 + extra in
  let* selected :=
    loop (Z.to_nat numSubs) 0
         (fun _ =>
            let* index := Intn (Z.of_nat (length subscription_templates)) in
            ret [nth (Z.to_nat index) subscription_templates
                     (EmptyString, 0%float, 0)])
         [] in
  let daysToGenerate := F64.wrap64 (months * 30) in
  let* recurring := for_each_selected selected daysToGenerate [] in
  loop 20 0
       (fun i =>
          let* index := Intn (Z.of_nat (length oneTimePurchases)) in
          let purchase := nth (Z.to_nat index) oneTimePurchases EmptyString in
          let* daysAgo := Intn daysToGenerate in
          let txDate := AddDate cal now 0 0 (- daysAgo) in
          let* r := Float64 in
          let amount := (10.00 + r * 90.00)%float in
          ret [transaction ("tx_once_" +:+ pretty i) "send"
                           (F64.Round (amount * 100) / 100)%float purchase
                           (formatRFC3339 txDate)])
       recurring.

End Generators.

End Mock.

(** ** What the mock generators produce *)

Module MockFacts.
Import Json GoTime Mock.

Lemma transaction_keys id txType amount description date :
  let tx := transaction id txType amount description date in
  tx !! "type" = Some (JString txType)
  /\ tx !! "amount" = Some (JNumber amount)
  /\ tx !! "description" = Some (JString description)
  /\ tx !! "date" = Some (JString date)
  /\ tx !! "status" = Some (JString "completed")
  /\ tx !! "id" = Some (JString id).
Proof.
  cbn zeta. unfold transaction.
  repeat split;
    repeat (first [rewrite lookup_insert_eq; reflexivity
                  | rewrite lookup_insert_ne by discriminate]).
Qed.

(** A loop whose body never panics and appends one element with property
    [P] each time appends [n] such elements. *)
Lemma loop_singletons {A} (P : A -> Prop) (body : Z -> Rand (list A)) src :
  (forall i p, exists x p', body i src p = Done [x] p' /\ P x) ->
  forall n from out p,
  exists xs p', loop n from body out src p = Done (out ++ xs) p'
                /\ length xs = n /\ Forall P xs.
Proof.
  intros Hbody. induction n as [|n IH]; intros from out p.
  - exists [], p. cbn. rewrite app_nil_r. by repeat split.
  - cbn [loop]. unfold bind at 1.
    destruct (Hbody from p) as (x & p1 & -> & Hx).
    destruct (IH (from + 1) (out ++ [x]) p1) as (xs & p2 & -> & Hlen & Hall).
    exists (x :: xs), p2. rewrite <- app_assoc. cbn [app length].
    repeat split; [by rewrite Hlen|by constructor].
Qed.

(** A loop whose body panics at once panics, unless it runs zero times. *)
Lemma loop_panics {A} (body : Z -> Rand (list A)) src :
  (forall i p, body i src p = Panic) ->
  forall n from out p, loop (S n) from body out src p = Panic.
Proof. intros Hbody n from out p. cbn [loop]. unfold bind. by rewrite Hbody. Qed.

Lemma Intn_spec n src p :
  0 < n ->
  exists v, Intn n src p = Done v (mkPosition (S (next_int p)) (next_float p))
            /\ 0 <= v < n.
Proof.
  intros Hn. unfold Intn. destruct (Z.leb_spec n 0) as [|_]; [lia|].
  eexists. split; [reflexivity|]. apply Z.mod_pos_bound. lia.
Qed.

Lemma Intn_panics n src p : n <= 0 -> @eq (outcome Z) (Intn n src p) Panic.
Proof. intros Hn. unfold Intn. destruct (Z.leb_spec n 0); [done|lia]. Qed.

Lemma template_types k :
  (k < length templates)%nat ->
  let '(_, _, txType) := nth k templates (EmptyString, 0%float, EmptyString) in
  txType = "send" \/ txType = "receive".
Proof.
  unfold templates. cbn [length]. intros Hk.
  do 23 (destruct k as [|k]; [cbn; auto|]). lia.
Qed.

Lemma counted_everywhere (l : list object) :
  Forall (fun tx => SpendingFacts.is_send tx || SpendingFacts.is_receive tx = true) l ->
  (length (List.filter SpendingFacts.is_send l)
   + length (List.filter SpendingFacts.is_receive l))%nat = length l.
Proof.
  induction 1 as [|tx l Htx _ IH]; [done|]. cbn [List.filter].
  destruct (SpendingFacts.is_send tx) eqn:Es.
  - assert (Er : SpendingFacts.is_receive tx = false).
    { unfold SpendingFacts.is_send, SpendingFacts.is_receive in *.
      apply String.eqb_eq in Es. by rewrite Es. }
    rewrite Er. cbn [length]. lia.
  - cbn [orb] in Htx. rewrite Htx. cbn [length]. lia.
Qed.

Section Analysis.
Context (cal : Calendar) (now : Time) (formatRFC3339 : Time -> string).

Lemma mock_analysis_panics days src p :
  days <= 0 ->
  generateMockTransactionsForAnalysis cal now formatRFC3339 days src p = Panic.
Proof.
  intros Hdays. unfold generateMockTransactionsForAnalysis.
  destruct (Intn_spec 11 src p ltac:(lia)) as (extra & E11 & Hextra).
  unfold bind at 1; rewrite E11.
  replace (Z.to_nat (30 + extra)) with (S (Z.to_nat (29 + extra))) by lia.
  apply loop_panics. intros i q. unfold bind at 1.
  destruct (Intn_spec (Z.of_nat (length templates)) src q) as (ix & -> & _);
    [cbn; lia|].
  destruct (nth (Z.to_nat ix) templates _) as [[d a] t].
  unfold bind at 1. by rewrite Intn_panics.
Qed.

Lemma mock_analysis_outcome days src p :
  0 < days ->
  exists l p',
    generateMockTransactionsForAnalysis cal now formatRFC3339 days src p
    = Done l p'
    /\ (30 <= length l <= 40)%nat
    /\ Forall (fun tx => tx !! "status" = Some (JString "completed")
                         /\ (tx !! "type" = Some (JString "send")
                             \/ tx !! "type" = Some (JString "receive"))) l
    /\ forall analysed_days,
         match Spending.analyzeTransactions l analysed_days with
         | Spending.NoTransactions _ => False
         | Spending.Report s =>
             Spending.spend_count s + Spending.receive_count s
             = Z.of_nat (length l)
         end.
Proof.
  intros Hdays. unfold generateMockTransactionsForAnalysis.
  destruct (Intn_spec 11 src p ltac:(lia)) as (extra & E11 & Hextra).
  unfold bind at 1; rewrite E11.
  set (P := fun tx : object =>
              tx !! "status" = Some (JString "completed")
              /\ (tx !! "type" = Some (JString "send")
                  \/ tx !! "type" = Some (JString "receive"))).
  edestruct (loop_singletons P) as (xs & p' & Hloop & Hlen & Hall);
    [|rewrite Hloop].
  { intros i q. unfold bind at 1.
    destruct (Intn_spec (Z.of_nat (length templates)) src q) as (ix & -> & Hix);
      [cbn; lia|].
    pose proof (template_types (Z.to_nat ix) ltac:(lia)) as Hty.
    destruct (nth (Z.to_nat ix) templates _) as [[d a] t].
    unfold bind at 1.
    destruct (Intn_spec days src
                {| next_int := S (next_int q); next_float := next_float q |} Hdays)
      as (ago & -> & _).
    unfold bind, Float64, ret. eexists _, _. split; [reflexivity|].
    unfold P.
    match goal with
    | |- context [transaction ?a ?b ?c ?e ?f] =>
        destruct (transaction_keys a b c e f) as (Kt & _ & _ & _ & Ks & _)
    end.
    split; [exact Ks|]. rewrite Kt. destruct Hty as [->| ->]; auto. }
  cbn [app]. exists xs, p'. split; [reflexivity|].
  split; [lia|]. split; [exact Hall|].
  intros analysed_days.
  destruct xs as [|x xs']; [cbn in Hlen; lia|].
  unfold Spending.analyzeTransactions.
  cbn [Spending.spend_count Spending.receive_count].
  destruct (SpendingFacts.aggregate_spec (x :: xs')) as (_ & _ & -> & -> & _).
  rewrite <- Nat2Z.inj_add. f_equal. apply counted_everywhere.
  eapply Forall_impl; [exact Hall|].
  intros tx [_ [Ht|Ht]]; unfold SpendingFacts.is_send, SpendingFacts.is_receive,
    string_or_zero, as_string; rewrite Ht; reflexivity.
Qed.

(** [generateMockTransactionsForAnalysis] panics (in [rand.Intn]) when
    [days] is zero or negative.  For positive [days] it returns between
    30 and 40 transactions, each with status "completed" and of type
    "send" or "receive", so that [analyzeTransactions] counts every one of
    them and never answers "no transactions". *)
Theorem mock_analysis_transactions days src p :
  (days <= 0 ->
   generateMockTransactionsForAnalysis cal now formatRFC3339 days src p = Panic)
  /\ (0 < days ->
      exists l p',
        generateMockTransactionsForAnalysis cal now formatRFC3339 days src p
        = Done l p'
        /\ (30 <= length l <= 40)%nat
        /\ Forall (fun tx => tx !! "status" = Some (JString "completed")
                             /\ (tx !! "type" = Some (JString "send")
                                 \/ tx !! "type" = Some (JString "receive"))) l
        /\ forall analysed_days,
             match Spending.analyzeTransactions l analysed_days with
             | Spending.NoTransactions _ => False
             | Spending.Report s =>
                 Spending.spend_count s + Spending.receive_count s
                 = Z.of_nat (length l)
             end).
Proof.
  split; [apply mock_analysis_panics|apply mock_analysis_outcome].
Qed.

End Analysis.

Section Recurring.
Context (cal : Calendar) (now : Time) (formatRFC3339 : Time -> string).

(** What every generated payment looks like. *)
Definition is_payment (tx : object) : Prop :=
  tx !! "type" = Some (JString "send")
  /\ tx !! "status" = Some (JString "completed").

Definition described (merchant : string) (tx : object) : Prop :=
  tx !! "description" = Some (JString merchant).

Lemma occurrences_from_spec merchant amount frequency daysToGenerate src :
  0 < frequency -> 0 <= daysToGenerate ->
  forall n j out p,
    0 <= j ->
    Z.of_nat n = Z.quot daysToGenerate frequency - j ->
    exists xs p',
      occurrences_from cal now formatRFC3339 n j (Z.quot daysToGenerate frequency)
        daysToGenerate (merchant, amount, frequency) out src p
      = Done (out ++ xs) p'
      /\ length xs = n
      /\ Forall (fun tx => is_payment tx /\ described merchant tx) xs.
Proof.
  intros Hf Hd.
  assert (Hq : Z.quot daysToGenerate frequency * frequency <= daysToGenerate).
  { rewrite Z.quot_div_nonneg by lia. rewrite Z.mul_comm.
    apply Z.mul_div_le. lia. }
  induction n as [|n IH]; intros j out p Hj Hn.
  - exists [], p. cbn. rewrite app_nil_r. by repeat split.
  - cbn [occurrences_from].
    destruct (Z.ltb_spec j (Z.quot daysToGenerate frequency)) as [Hlt|]; [|lia].
    cbn [negb].
    destruct (Z.ltb_spec daysToGenerate (j * frequency)) as [Hbreak|_]; [nia|].
    unfold bind at 1, Float64.
    match goal with
    | |- context [occurrences_from _ _ _ _ _ _ _ _ (out ++ [?tx])] => set (x := tx)
    end.
    destruct (IH (j + 1) (out ++ [x])
                {| next_int := next_int p; next_float := S (next_float p) |}
                ltac:(lia) ltac:(lia)) as (xs & p' & -> & Hlen & Hall).
    exists (x :: xs), p'. rewrite <- app_assoc. cbn [app length].
    split; [reflexivity|]. split; [by rewrite Hlen|].
    constructor; [|exact Hall].
    subst x.
    match goal with
    | |- context [transaction ?a ?b ?c ?e ?f] =>
        destruct (transaction_keys a b c e f) as (Kt & _ & Kd & _ & Ks & _)
    end.
    by repeat split.
Qed.

(** The number of payments generated for a list of selected templates. *)
Definition expected (daysToGenerate : Z) (selected : list (string * float * Z)) : nat :=
  list_sum (map (fun sub => Z.to_nat (Z.quot daysToGenerate (snd sub))) selected).

Lemma for_each_selected_spec daysToGenerate src :
  0 <= daysToGenerate ->
  forall selected out p,
    Forall (fun sub => 0 < snd sub) selected ->
    exists xs p',
      for_each_selected cal now formatRFC3339 selected daysToGenerate out src p
      = Done (out ++ xs) p'
      /\ length xs = expected daysToGenerate selected
      /\ Forall (fun tx =>
                   is_payment tx
                   /\ exists sub, sub ∈ selected /\ described (fst (fst sub)) tx
                                  /\ snd sub <= daysToGenerate) xs.
Proof.
  intros Hd. induction selected as [|[[m a] f] rest IH]; intros out p Hpos.
  - exists [], p. cbn. rewrite app_nil_r. by repeat split.
  - apply Forall_cons in Hpos as [Hf Hpos]. cbn [snd] in Hf.
    cbn [for_each_selected snd]. unfold bind at 1.
    destruct (occurrences_from_spec m a f daysToGenerate src Hf Hd
                (Z.to_nat (Z.quot daysToGenerate f)) 0 out p ltac:(lia))
      as (xs1 & p1 & -> & Hlen1 & Hall1).
    { rewrite Z2Nat.id; [lia|]. apply Z.quot_pos; lia. }
    destruct (IH (out ++ xs1) p1 Hpos) as (xs2 & p2 & -> & Hlen2 & Hall2).
    exists (xs1 ++ xs2), p2. rewrite <- app_assoc.
    split; [reflexivity|]. split.
    + rewrite length_app, Hlen1, Hlen2. unfold expected. cbn [map snd].
      rewrite CountFacts.list_sum_cons. reflexivity.
    + apply Forall_app. split.
      * apply Forall_forall. intros tx Hin.
        destruct (proj1 (Forall_forall _ _) Hall1 tx Hin) as [Hp Hdesc].
        split; [exact Hp|]. exists (m, a, f). cbn [fst snd].
        split; [apply list_elem_of_here|]. split; [exact Hdesc|].
        destruct xs1 as [|x xs1']; [by inversion Hin|].
        cbn [length] in Hlen1.
        assert (1 <= Z.quot daysToGenerate f) by lia.
        rewrite Z.quot_div_nonneg in * by lia.
        pose proof (Z.mul_div_le daysToGenerate f Hf). nia.
      * eapply Forall_impl; [exact Hall2|]. intros tx [Hp (sub & Hin & Hs)].
        split; [exact Hp|]. exists sub. split; [|exact Hs].
        by apply list_elem_of_further.
Qed.

End Recurring.

Lemma wrap64_small z : - 2 ^ 63 <= z < 2 ^ 63 -> F64.wrap64 z = z.
Proof. intros H. unfold F64.wrap64. rewrite Z.mod_small; lia. Qed.

Lemma template_frequencies sub :
  sub ∈ subscription_templates ->
  0 < snd sub
  /\ (fst (fst sub) = "Annual Software License" -> snd sub = 365).
Proof.
  unfold subscription_templates. rewrite !elem_of_cons, elem_of_nil.
  intros H. repeat (destruct H as [->|H]; [cbn; split; [lia|intros E; by inversion E]|]).
  done.
Qed.

Lemma nth_template k :
  (k < length subscription_templates)%nat ->
  nth k subscription_templates (EmptyString, 0%float, 0) ∈ subscription_templates.
Proof. intros Hk. apply list_elem_of_In, nth_In, Hk. Qed.

Lemma nth_purchase k :
  (k < length oneTimePurchases)%nat ->
  nth k oneTimePurchases EmptyString <> "Annual Software License".
Proof.
  unfold oneTimePurchases. cbn [length]. intros Hk.
  do 6 (destruct k as [|k]; [cbn; discriminate|]). lia.
Qed.

Section SubscriptionMock.
Context (cal : Calendar) (now : Time) (formatRFC3339 : Time -> string).

Lemma selection_spec n from src p :
  exists selected p',
    loop n from
         (fun _ : Z =>
            let* index := Intn (Z.of_nat (length subscription_templates)) in
            ret [nth (Z.to_nat index) subscription_templates
                     (EmptyString, 0%float, 0)])
         [] src p = Done selected p'
    /\ length selected = n
    /\ Forall (fun sub => sub ∈ subscription_templates) selected.
Proof.
  match goal with |- context [loop n from ?b] => set (body := b) end.
  assert (Hbody : forall i q, exists x q',
             body i src q = Done [x] q' /\ x ∈ subscription_templates).
  { intros i q. unfold body. unfold bind at 1.
    destruct (Intn_spec (Z.of_nat (length subscription_templates)) src q)
      as (ix & -> & Hix); [cbn; lia|].
    unfold ret. eexists _, _. split; [reflexivity|].
    apply nth_template. lia. }
  destruct (loop_singletons _ body src Hbody n from [] p)
    as (selected & p1 & Hsel & Hlen & Hall).
  exists selected, p1. eauto.
Qed.

Definition purchase_body (daysToGenerate : Z) (i : Z) : Rand (list object) :=
  let* index := Intn (Z.of_nat (length oneTimePurchases)) in
  let purchase := nth (Z.to_nat index) oneTimePurchases EmptyString in
  let* daysAgo := Intn daysToGenerate in
  let txDate := AddDate cal now 0 0 (- daysAgo) in
  let* r := Float64 in
  let amount := (10.00 + r * 90.00)%float in
  ret [transaction ("tx_once_" +:+ pretty i) "send"
                   (F64.Round (amount * 100) / 100)%float purchase
                   (formatRFC3339 txDate)].

Lemma purchases_spec daysToGenerate n from out src p :
  0 < daysToGenerate ->
  exists once p',
    loop n from (purchase_body daysToGenerate) out src p = Done (out ++ once) p'
    /\ length once = n
    /\ Forall (fun tx => is_payment tx
                         /\ ~ described "Annual Software License" tx) once.
Proof.
  intros Hd. apply loop_singletons.
  intros i q. unfold purchase_body. unfold bind at 1.
  destruct (Intn_spec (Z.of_nat (length oneTimePurchases)) src q)
    as (ix & -> & Hix); [cbn; lia|].
  unfold bind at 1.
  destruct (Intn_spec daysToGenerate src
              {| next_int := S (next_int q); next_float := next_float q |} Hd)
    as (ago & -> & _).
  unfold bind, Float64, ret. eexists _, _. split; [reflexivity|].
  match goal with
  | |- context [transaction ?a ?b ?c ?e ?f] =>
      destruct (transaction_keys a b c e f) as (Kt & _ & Kd & _ & Ks & _)
  end.
  split; [by split|]. unfold described. rewrite Kd. intros [= E].
  revert E. apply nth_purchase. lia.
Qed.

Lemma purchases_panic daysToGenerate n from out src p :
  daysToGenerate <= 0 ->
  loop (S n) from (purchase_body daysToGenerate) out src p = Panic.
Proof.
  intros Hd. apply loop_panics. intros i q. unfold purchase_body.
  unfold bind at 1.
  destruct (Intn_spec (Z.of_nat (length oneTimePurchases)) src q) as (ix & -> & _);
    [cbn; lia|].
  unfold bind at 1. by rewrite Intn_panics.
Qed.

Lemma quot_nonpos a b : a <= 0 -> 0 < b -> Z.to_nat (Z.quot a b) = 0%nat.
Proof.
  intros Ha Hb.
  assert (0 <= Z.quot (- a) b) by (apply Z.quot_pos; lia).
  rewrite Z.quot_opp_l in * by lia. lia.
Qed.

Lemma nothing_recurs daysToGenerate src :
  daysToGenerate <= 0 ->
  forall selected out p,
    Forall (fun sub => 0 < snd sub) selected ->
    for_each_selected cal now formatRFC3339 selected daysToGenerate out src p
    = Done out p.
Proof.
  intros Hd. induction selected as [|sub rest IH]; intros out p Hpos; [done|].
  apply Forall_cons in Hpos as [Hf Hpos].
  cbn [for_each_selected]. unfold bind at 1.
  rewrite quot_nonpos by lia. cbn [occurrences_from]. unfold ret.
  by apply IH.
Qed.

Lemma mock_subscription_panics months src p :
  - 2 ^ 50 <= months <= 0 ->
  generateMockSubscriptionTransactions cal now formatRFC3339 months src p = Panic.
Proof.
  intros Hbound. assert (Hmonths : months <= 0) by lia.
  unfold generateMockSubscriptionTransactions.
  rewrite wrap64_small by lia.
  change (fun i : Z => bind (Intn (Z.of_nat (length oneTimePurchases))) _)
    with (purchase_body (months * 30)).
  destruct (Intn_spec 4 src p ltac:(lia)) as (extra & E4 & Hextra).
  destruct (selection_spec (Z.to_nat (5 + extra)) 0 src
              (mkPosition (S (next_int p)) (next_float p)))
    as (selected & p1 & Hsel & Hlen & Hall).
  assert (Hpos : Forall (fun sub => 0 < snd sub) selected).
  { eapply Forall_impl; [exact Hall|]. intros sub Hin.
    by apply template_frequencies in Hin as [? _]. }
  unfold bind at 1; rewrite E4; unfold bind at 1; rewrite Hsel; unfold bind at 1.
  rewrite nothing_recurs by (lia || done). by apply purchases_panic; lia.
Qed.

Lemma mock_subscription_outcome months src p :
  0 < months <= 2 ^ 50 ->
  exists l p' selected,
    generateMockSubscriptionTransactions cal now formatRFC3339 months src p
    = Done l p'
    /\ (5 <= length selected <= 8)%nat
    /\ Forall (fun sub => sub ∈ subscription_templates) selected
    /\ length l = (expected (months * 30) selected + 20)%nat
    /\ Forall is_payment l
    /\ (months <= 12 ->
        Forall (fun tx => ~ described "Annual Software License" tx) l).
Proof.
  intros Hbound. assert (Hmonths : 0 < months) by lia.
  unfold generateMockSubscriptionTransactions.
  rewrite wrap64_small by lia.
  change (fun i : Z => bind (Intn (Z.of_nat (length oneTimePurchases))) _)
    with (purchase_body (months * 30)).
  destruct (Intn_spec 4 src p ltac:(lia)) as (extra & E4 & Hextra).
  destruct (selection_spec (Z.to_nat (5 + extra)) 0 src
              (mkPosition (S (next_int p)) (next_float p)))
    as (selected & p1 & Hsel & Hlen & Hall).
  assert (Hpos : Forall (fun sub => 0 < snd sub) selected).
  { eapply Forall_impl; [exact Hall|]. intros sub Hin.
    by apply template_frequencies in Hin as [? _]. }
  unfold bind at 1; rewrite E4; unfold bind at 1; rewrite Hsel; unfold bind at 1.
  destruct (for_each_selected_spec cal now formatRFC3339 (months * 30) src
              ltac:(lia) selected [] p1 Hpos) as (rec & p2 & Hrec & Hlrec & Hallrec).
  rewrite Hrec. cbn [app].
  destruct (purchases_spec (months * 30) 20 0 rec src p2 ltac:(lia))
    as (once & p3 & Honce & Hlonce & Hallonce).
  rewrite Honce.
  exists (rec ++ once), p3, selected.
  split; [reflexivity|]. split; [lia|]. split; [exact Hall|].
  split; [rewrite length_app; lia|]. split.
  + apply Forall_app. split.
    * eapply Forall_impl; [exact Hallrec|]. by intros tx [? _].
    * eapply Forall_impl; [exact Hallonce|]. by intros tx [? _].
  + intros H12. apply Forall_app. split.
    * eapply Forall_impl; [exact Hallrec|].
      intros tx [_ (sub & Hin & Hdesc & Hle)] Hannual.
      unfold described in *. rewrite Hdesc in Hannual. injection Hannual as E.
      pose proof (proj1 (Forall_forall _ _) Hall sub Hin) as Hsub.
      apply template_frequencies in Hsub as [_ H365].
      specialize (H365 E). lia.
    * eapply Forall_impl; [exact Hallonce|]. by intros tx [_ ?].
Qed.


End SubscriptionMock.

Definition demo_source : source :=
  mkSource (fun n => Z.of_nat n * 7 + 3) (fun _ => 0.5%float).


End MockFacts.

(** ** The two tool handlers *)

Module Tools.
Import Json GoTime Mock.

(** [core.ExecuteRequest], with [Input] kept as the object that the
    handler marshals. *)
Record ExecuteRequest := mkRequest {
  req_UserID : string;
  req_Tool : string;
  req_Input : object;
  req_RequestID : string
}.

(** [core.ExecuteResponse]; [D] is the type of the raw [Data]. *)
Record ExecuteResponse (D : Type) := mkResponse {
  resp_Success : bool;
  resp_Error : string;
  resp_Data : D
}.
Arguments mkResponse {D}.
Arguments resp_Success {D}.
Arguments resp_Error {D}.
Arguments resp_Data {D}.

(** [core.ToolExecutor]: [Execute] returns the text of an error, or a
    response. *)
Class ToolExecutor (D : Type) :=
  Execute : ExecuteRequest -> string + ExecuteResponse D.

(** [core.ToolParams]; [I] is the type of the raw [Input]. *)
Record ToolParams (I : Type) := mkToolParams {
  UserID : string;
  RequestID : string;
  Input : I
}.
Arguments UserID {I}.
Arguments RequestID {I}.
Arguments Input {I}.

(** [core.ToolResult] *)
Record ToolResult (R : Type) := mkToolResult {
  Success : bool;
  Data : option R;
  Error : string
}.
Arguments mkToolResult {R}.
Arguments Success {R}.
Arguments Data {R}.
Arguments Error {R}.

Definition failed {R} (message : string) : ToolResult R :=
  mkToolResult false None message.

Definition succeeded {R} (data : R) : ToolResult R :=
  mkToolResult true (Some data) EmptyString.

(** The parameters of [analyze_spending]. *)
Record SpendingParams := mkSpendingParams {
  Days : Z;
  UseMock : bool
}.

(** The [result] map of [analyze_spending]. *)
Record SpendingResult := mkSpendingResult {
  period_days : Z;
  total_transactions : Z;
  analysis : Spending.result;
  spending_is_mock : bool;
  spending_generated_at : string
}.

(** The parameters of [analyze_subscriptions]. *)
Record SubscriptionParams := mkSubscriptionParams {
  TimeframeMonths : Z;
  MinAmount : float;
  MaxAmount : float;
  SubsUseMock : bool
}.

(** The [result] map of [analyze_subscriptions]. *)
Record SubscriptionResult := mkSubscriptionResult {
  analysis_period : string;
  total_transactions_scanned : Z;
  subscriptions_found : Z;
  subscriptions : list Subscriptions.subscription;
  total_monthly_cost : float;
  warnings : list string;
  subscriptions_is_mock : bool;
  subscriptions_generated_at : string
}.

Section Handlers.
Context {I D : Type} `{!ToolExecutor D}.
(** The calendar and [Format(time.RFC3339)]. *)
Context (cal : Calendar) (formatRFC3339 : Time -> string).
(** [json.Unmarshal(toolParams.Input, &params)]: [None] when it returns
    an error. *)
Context (unmarshal_spending : I -> option SpendingParams).
Context (unmarshal_subscriptions : I -> option SubscriptionParams).
(** What the handlers keep of a response: the objects of the array under
    "transactions", none when the data or the array cannot be decoded. *)
Context (response_transactions : D -> list object).

(** The handler of [createSpendingAnalyzerTool].  [mock_now] is the value
    of [time.Now()] in the mock generator and [now] the one in the result;
    the [log.Printf] call is left out. *)
Definition spending_handler (mock_now now : Time) (toolParams : ToolParams I)
  : Rand (ToolResult SpendingResult) :=
  let params :=
    match unmarshal_spending (Input toolParams) with
    | Some params => params
    | None => mkSpendingParams 30 true
    end in
  let params :=
    if Days params =? 0 then mkSpendingParams 30 (UseMock params) else params in
  let finish (transactions : list object) : ToolResult SpendingResult :=
    let analysis := Spending.analyzeTransactions transactions (Days params) in
    succeeded (mkSpendingResult (Days params) (Z.of_nat (length transactions))
                 analysis (UseMock params) (formatRFC3339 now)) in
  if UseMock params then
    let* transactions :=
      generateMockTransactionsForAnalysis cal mock_now formatRFC3339 (Days params) in
    ret (finish transactions)
  else
    let txRequest : object := <["limit" := JNumber 100]> ∅ in
    match Execute (mkRequest (UserID toolParams) "get_transactions" txRequest
                     (RequestID toolParams)) with
    | inl err => ret (failed ("failed to fetch transactions: " +:+ err))
    | inr txResponse =>
        if negb (resp_Success txResponse) then
          ret (failed ("transaction fetch failed: " +:+ resp_Error txResponse))
        else ret (finish (response_transactions (resp_Data txResponse)))
    end.

(** The handler of [createSubscriptionAnalyzerTool]. *)
Definition subscription_handler (mock_now now : Time) (toolParams : ToolParams I)
  : Rand (ToolResult SubscriptionResult) :=
  let params :=
    match unmarshal_subscriptions (Input toolParams) with
    | Some params => params
    | None => mkSubscriptionParams 6 1.00 999.99 true
    end in
  let months := if TimeframeMonths params =? 0 then 6 else TimeframeMonths params in
  let minAmount :=
    if PrimFloat.eqb (MinAmount params) 0 then 1.00%float else MinAmount params in
  let maxAmount :=
    if PrimFloat.eqb (MaxAmount params) 0 then 999.99%float else MaxAmount params in
  let cutoffDate := AddDate cal now 0 (- months) 0 in
  let finish (transactions : list object) : ToolResult SubscriptionResult :=
    let subscriptions :=
      Subscriptions.analyzeForSubscriptions cal transactions cutoffDate
        minAmount maxAmount in
    succeeded (mkSubscriptionResult
                 (pretty months +:+ " months")
                 (Z.of_nat (length transactions))
                 (Z.of_nat (length subscriptions))
                 subscriptions
                 (Subscriptions.calculateTotalMonthlyCost subscriptions)
                 (Subscriptions.generateWarnings cal now subscriptions)
                 (SubsUseMock params)
                 (formatRFC3339 now)) in
  if SubsUseMock params then
    let* transactions :=
      generateMockSubscriptionTransactions cal mock_now formatRFC3339 months in
    ret (finish transactions)
  else
    let txRequest : object :=
      <["limit" := JNumber 500]>
      (<["start_date" := JString (formatDate cal cutoffDate)]> ∅) in
    match Execute (mkRequest (UserID toolParams) "get_transactions" txRequest
                     (RequestID toolParams)) with
    | inl err => ret (failed ("failed to fetch transactions: " +:+ err))
    | inr txResponse =>
        if negb (resp_Success txResponse) then
          ret (failed ("transaction fetch failed: " +:+ resp_Error txResponse))
        else ret (finish (response_transactions (resp_Data txResponse)))
    end.

End Handlers.

End Tools.

(** ** What the tool handlers return *)

Module ToolFacts.
Import Json GoTime Mock Tools.

Section Outcomes.
Context {I D : Type} `{!ToolExecutor D}.
Context (cal : Calendar) (formatRFC3339 : Time -> string).
Context (unmarshal_spending : I -> option SpendingParams).
Context (unmarshal_subscriptions : I -> option SubscriptionParams).
Context (response_transactions : D -> list object).

(** The period a call of [analyze_spending] works with, and whether it
    uses mock data. *)
Definition spending_days (input : I) : Z :=
  match unmarshal_spending input with
  | Some params => if Days params =? 0 then 30 else Days params
  | None => 30
  end.

Definition spending_mock (input : I) : bool :=
  match unmarshal_spending input with
  | Some params => UseMock params
  | None => true
  end.

Definition subscription_months (input : I) : Z :=
  match unmarshal_subscriptions input with
  | Some params => if TimeframeMonths params =? 0 then 6 else TimeframeMonths params
  | None => 6
  end.

Definition subscription_mock (input : I) : bool :=
  match unmarshal_subscriptions input with
  | Some params => SubsUseMock params
  | None => true
  end.

Definition get_transactions (toolParams : ToolParams I) (txRequest : object)
  : string + ExecuteResponse D :=
  Execute (mkRequest (UserID toolParams) "get_transactions" txRequest
             (RequestID toolParams)).

(** The handler of [analyze_spending] in terms of the period and the
    mode it works with. *)
Definition spending_result (days : Z) (mock : bool) (now : Time)
    (transactions : list object) : ToolResult SpendingResult :=
  succeeded (mkSpendingResult days (Z.of_nat (length transactions))
               (Spending.analyzeTransactions transactions days) mock
               (formatRFC3339 now)).

Lemma spending_handler_cases mock_now now (toolParams : ToolParams I) :
  let days := spending_days (Input toolParams) in
  spending_handler cal formatRFC3339 unmarshal_spending response_transactions
    mock_now now toolParams
  = if spending_mock (Input toolParams) then
      let* transactions :=
        generateMockTransactionsForAnalysis cal mock_now formatRFC3339 days in
      ret (spending_result days true now transactions)
    else
      match get_transactions toolParams (<["limit" := JNumber 100]> ∅) with
      | inl err => ret (failed ("failed to fetch transactions: " +:+ err))
      | inr txResponse =>
          if negb (resp_Success txResponse) then
            ret (failed ("transaction fetch failed: " +:+ resp_Error txResponse))
          else ret (spending_result days false now
                      (response_transactions (resp_Data txResponse)))
      end.
Proof.
  unfold spending_handler, spending_days, spending_mock, get_transactions,
    spending_result.
  destruct (unmarshal_spending (Input toolParams)) as [[days mock]|];
    cbv zeta; cbn [Days UseMock]; [|reflexivity].
  destruct (days =? 0); cbn [Days UseMock]; destruct mock; reflexivity.
Qed.

(** [analyze_spending] never works with a period of 0 days.  With mock
    data it panics for a negative number of days and otherwise succeeds
    with 30 to 40 transactions, all of them counted in the report.  With
    real data it draws no random number and never panics; it fails
    exactly when the executor returns an error or an unsuccessful
    response, and otherwise reports on the transactions of the response,
    with the no-transactions message exactly when there are none. *)
Theorem spending_tool_outcomes mock_now now (toolParams : ToolParams I) src p :
  let run := spending_handler cal formatRFC3339 unmarshal_spending
               response_transactions mock_now now toolParams src p in
  let days := spending_days (Input toolParams) in
  days <> 0
  /\ (spending_mock (Input toolParams) = true ->
      (days < 0 -> run = Panic)
      /\ (0 < days ->
          exists d p',
            run = Done (succeeded d) p'
            /\ period_days d = days
            /\ spending_is_mock d = true
            /\ 30 <= total_transactions d <= 40
            /\ match analysis d with
               | Spending.NoTransactions _ => False
               | Spending.Report s =>
                   Spending.spend_count s + Spending.receive_count s
                   = total_transactions d
               end))
  /\ (spending_mock (Input toolParams) = false ->
      exists r,
        run = Done r p
        /\ match get_transactions toolParams (<["limit" := JNumber 100]> ∅) with
           | inl err => r = failed ("failed to fetch transactions: " +:+ err)
           | inr txResponse =>
               if resp_Success txResponse then
                 let transactions := response_transactions (resp_Data txResponse) in
                 exists d,
                   r = succeeded d
                   /\ period_days d = days
                   /\ spending_is_mock d = false
                   /\ total_transactions d = Z.of_nat (length transactions)
                   /\ analysis d = Spending.analyzeTransactions transactions days
                   /\ (transactions = [] <->
                       exists message, analysis d = Spending.NoTransactions message)
               else r = failed ("transaction fetch failed: "
                                +:+ resp_Error txResponse)
           end).
Proof.
  cbv zeta. rewrite spending_handler_cases. cbv zeta.
  set (days := spending_days (Input toolParams)).
  assert (Hdays : days <> 0).
  { unfold days, spending_days.
    destruct (unmarshal_spending _) as [[d m]|]; [|lia]. cbn [Days].
    destruct (Z.eqb_spec d 0); lia. }
  split; [exact Hdays|].
  split; intros ->.
  - split; intros Hd; unfold bind.
    + by rewrite MockFacts.mock_analysis_panics by lia.
    + destruct (MockFacts.mock_analysis_outcome cal mock_now formatRFC3339 days src p
                  Hd) as (l & p' & -> & Hlen & _ & Hrep).
      unfold ret, spending_result. eexists _, p'. split; [reflexivity|].
      cbn [period_days spending_is_mock total_transactions analysis].
      repeat split; try lia. apply Hrep.
  - destruct (get_transactions toolParams _) as [err|[ok e data]];
      cbn [resp_Success resp_Error resp_Data negb].
    { eexists. split; reflexivity. }
    destruct ok; cbn [negb]; [|eexists; split; reflexivity].
    eexists. split; [reflexivity|]. eexists. split; [reflexivity|].
    cbn [period_days spending_is_mock total_transactions analysis].
    repeat split; try done.
    + intros ->. by eexists.
    + intros [message Hm]. destruct (response_transactions data); [done|].
      discriminate Hm.
Qed.

(** The bounds on the amount that a call of [analyze_subscriptions]
    works with. *)
Definition subscription_min (input : I) : float :=
  match unmarshal_subscriptions input with
  | Some params =>
      if PrimFloat.eqb (MinAmount params) 0 then 1.00%float else MinAmount params
  | None => 1.00%float
  end.

Definition subscription_max (input : I) : float :=
  match unmarshal_subscriptions input with
  | Some params =>
      if PrimFloat.eqb (MaxAmount params) 0 then 999.99%float else MaxAmount params
  | None => 999.99%float
  end.

Definition subscription_result (input : I) (mock : bool) (now : Time)
    (transactions : list object) : ToolResult SubscriptionResult :=
  let months := subscription_months input in
  let subscriptions :=
    Subscriptions.analyzeForSubscriptions cal transactions
      (AddDate cal now 0 (- months) 0)
      (subscription_min input) (subscription_max input) in
  succeeded (mkSubscriptionResult
               (pretty months +:+ " months")
               (Z.of_nat (length transactions))
               (Z.of_nat (length subscriptions))
               subscriptions
               (Subscriptions.calculateTotalMonthlyCost subscriptions)
               (Subscriptions.generateWarnings cal now subscriptions)
               mock
               (formatRFC3339 now)).

Definition subscription_request (input : I) (now : Time) : object :=
  <["limit" := JNumber 500]>
  (<["start_date" :=
       JString (formatDate cal
                  (AddDate cal now 0 (- subscription_months input) 0))]> ∅).

Lemma subscription_handler_cases mock_now now (toolParams : ToolParams I) :
  let input := Input toolParams in
  subscription_handler cal formatRFC3339 unmarshal_subscriptions
    response_transactions mock_now now toolParams
  = if subscription_mock input then
      let* transactions :=
        generateMockSubscriptionTransactions cal mock_now formatRFC3339
          (subscription_months input) in
      ret (subscription_result input true now transactions)
    else
      match get_transactions toolParams (subscription_request input now) with
      | inl err => ret (failed ("failed to fetch transactions: " +:+ err))
      | inr txResponse =>
          if negb (resp_Success txResponse) then
            ret (failed ("transaction fetch failed: " +:+ resp_Error txResponse))
          else ret (subscription_result input false now
                      (response_transactions (resp_Data txResponse)))
      end.
Proof.
  unfold subscription_handler, subscription_result, subscription_request,
    get_transactions, subscription_mock, subscription_min, subscription_max,
    subscription_months.
  destruct (unmarshal_subscriptions (Input toolParams)) as [[months lo hi mock]|];
    cbv zeta; cbn [TimeframeMonths MinAmount MaxAmount SubsUseMock].
  - destruct mock; reflexivity.
  - reflexivity.
Qed.

(** A result of [analyze_subscriptions] that hangs together: the count is
    the number of reported subscriptions, cost and warnings are computed
    from them, and without subscriptions the cost is 0 and the only
    warning is the none-detected message. *)
Definition coherent (now : Time) (d : SubscriptionResult) : Prop :=
  subscriptions_found d = Z.of_nat (length (subscriptions d))
  /\ total_monthly_cost d
     = Subscriptions.calculateTotalMonthlyCost (subscriptions d)
  /\ warnings d = Subscriptions.generateWarnings cal now (subscriptions d)
  /\ (subscriptions d = [] ->
      total_monthly_cost d = 0%float
      /\ warnings d = [Subscriptions.none_detected]).

Lemma subscription_result_coherent input mock now transactions :
  exists d,
    subscription_result input mock now transactions = succeeded d
    /\ analysis_period d = pretty (subscription_months input) +:+ " months"
    /\ subscriptions_is_mock d = mock
    /\ total_transactions_scanned d = Z.of_nat (length transactions)
    /\ subscriptions d
       = Subscriptions.analyzeForSubscriptions cal transactions
           (AddDate cal now 0 (- subscription_months input) 0)
           (subscription_min input) (subscription_max input)
    /\ coherent now d.
Proof.
  unfold subscription_result. cbv zeta. eexists. split; [reflexivity|].
  unfold coherent.
  cbn [analysis_period subscriptions_is_mock total_transactions_scanned
       subscriptions subscriptions_found total_monthly_cost warnings].
  repeat (split; [reflexivity|]). intros ->. split; reflexivity.
Qed.


End Outcomes.

(** An executor without a connection, and a call whose input decodes to
    the zero value of every parameter but [use_mock]. *)
Definition offline : ToolExecutor (list object) :=
  fun _ => inl "offline".

Definition demo_call : ToolParams (option SubscriptionParams) :=
  mkToolParams _ "user" "request" (Some (mkSubscriptionParams 0 0 0 true)).


End ToolFacts.

(** ** Totals and insights of the spending report *)

Module InsightFacts.
Import Json Categorize Spending SpendingFacts.

Lemma spent_in_send tx txs :
  is_send tx = true -> spent_in (category_of tx) (tx :: txs) <> [].
Proof.
  intros Hs. unfold spent_in. cbn [List.filter].
  rewrite Hs, String.eqb_refl. cbn [andb map]. discriminate.
Qed.

Lemma spent_in_cons_nil c tx txs :
  spent_in c (tx :: txs) = [] -> spent_in c txs = [].
Proof.
  unfold spent_in. cbn [List.filter].
  by destruct (is_send tx && String.eqb (category_of tx) c).
Qed.

(** There is a category with spending exactly when some transaction is
    of type "send". *)
Lemma no_spending_no_send transactions :
  (forall c, spent_in c transactions = []) <-> List.filter is_send transactions = [].
Proof.
  induction transactions as [|tx txs IH]; [done|].
  cbn [List.filter]. destruct (is_send tx) eqn:Hs.
  - split; [|discriminate]. intros H. exfalso.
    by apply (spent_in_send tx txs Hs).
  - rewrite <- IH. split; intros H c.
    + apply (spent_in_cons_nil c tx), H.
    + unfold spent_in in *. cbn [List.filter]. rewrite Hs. cbn [andb]. apply H.
Qed.

Lemma categories_nil transactions :
  sorted_categories (aggregate transactions) = []
  <-> List.filter is_send transactions = [].
Proof.
  rewrite <- no_spending_no_send.
  destruct (aggregate_spec transactions) as (_ & _ & _ & _ & H5 & _).
  cbv zeta in H5.
  assert (Hperm := SortFacts.insertion_sort_Permutation
                     (fun a b => F64.gt (amount a) (amount b))
                     (categories (aggregate transactions))).
  fold (sorted_categories (aggregate transactions)) in Hperm.
  assert (Hnil : sorted_categories (aggregate transactions) = []
                 <-> categorySpending (aggregate transactions) = ∅).
  { split; intros H.
    - rewrite H in Hperm. symmetry in Hperm. apply Permutation_nil_r in Hperm.
      unfold categories in Hperm. apply map_eq_nil in Hperm.
      by apply map_to_list_empty_iff.
    - apply Permutation_nil_r. rewrite Hperm. unfold categories.
      by rewrite H, map_to_list_empty. }
  rewrite Hnil. split; intros H.
  - intros c. specialize (H5 c). rewrite H, lookup_empty in H5.
    by destruct (spent_in c transactions).
  - apply map_empty. intros c. by rewrite H5, H.
Qed.

(** The totals of the report are the float sums of the amounts of the
    "send" and of the "receive" transactions, in input order; no category
    is listed exactly when there is no "send" transaction; and the
    insights are the two fixed sentences, which repeat the printed
    [spend_count] and [avg_daily_spend], then at most one sentence on the
    cash flow, and then, exactly when a category is listed, the sentence
    that names the first listed category. *)
Theorem report_totals_and_insights transactions days :
  match analyzeTransactions transactions days with
  | NoTransactions message =>
      transactions = []
      /\ message = "No transactions found in the specified period"
  | Report s =>
      let sends := List.filter is_send transactions in
      let spent := fsum 0 (map amount_of sends) in
      let received := fsum 0 (map amount_of (List.filter is_receive transactions)) in
      let net := (received - spent)%float in
      total_spent s = F64.format_fixed 2 spent
      /\ total_received s = F64.format_fixed 2 received
      /\ net_cash_flow s = F64.format_fixed 2 net
      /\ avg_daily_spend s = F64.format_fixed 2 (spent / F64.of_int days)
      /\ velocity s = calculateVelocity (Z.of_nat (length sends)) days
      /\ (top_categories s = [] <-> sends = [])
      /\ exists cash top,
           insights s
           = [ "You made " +:+ pretty (spend_count s)
                 +:+ " spending transactions over " +:+ pretty days +:+ " days";
               "Average daily spend: $" +:+ avg_daily_spend s ]
             ++ cash ++ top
           /\ cash
              = (if F64.gt net 0 then
                   [ "Great! You're cash flow positive with $"
                       +:+ net_cash_flow s +:+ " net income" ]
                 else if F64.lt net 0 then
                   [ "You spent $" +:+ F64.format_fixed 2 (abs net)
                       +:+ " more than you received this period" ]
                 else [])
           /\ match top_categories s with
              | [] => top = []
              | first :: _ =>
                  exists percentage,
                    top = [ "Your biggest spending category is "
                              +:+ tc_category first +:+ " ("
                              +:+ F64.format_fixed 0 percentage
                              +:+ "% of spending)" ]
              end
  end.
Proof.
  destruct transactions as [|tx txs]; [done|].
  unfold analyzeTransactions. cbv beta iota zeta.
  cbn [total_spent total_received net_cash_flow avg_daily_spend velocity
       top_categories insights spend_count].
  set (transactions := tx :: txs).
  destruct (aggregate_spec transactions) as (H1 & H2 & H3 & _).
  cbv zeta in H1, H2, H3.
  pose proof (categories_nil transactions) as Hnil.
  set (t := aggregate transactions) in *.
  rewrite H1, H2, <- H3.
  repeat (split; [reflexivity|]).
  split.
  { rewrite <- Hnil. unfold topCategories.
    destruct (sorted_categories t); [done|]. split; discriminate. }
  unfold insights_of. rewrite H1, H2.
  eexists _, _. split; [reflexivity|]. split; [reflexivity|].
  unfold topCategories. destruct (sorted_categories t) as [|topCat rest]; [done|].
  cbn [take map tc_category]. by eexists.
Qed.

End InsightFacts.

From Stdlib Require Import Reals Lra Psatz.
#[local] Open Scope Z_scope.


(** ** Rounding to nearest in binary64 *)

Module Rounding.
#[local] Open Scope R_scope.

Definition bpow (e : Z) : R := powerRZ 2 e.

Lemma bpow_gt_0 e : 0 < bpow e.
Proof. apply powerRZ_lt. lra. Qed.

Lemma bpow_plus e1 e2 : bpow (e1 + e2) = bpow e1 * bpow e2.
Proof. apply powerRZ_add. lra. Qed.

Lemma bpow_1 : bpow 1 = 2.
Proof. unfold bpow. simpl. lra. Qed.

Lemma bpow_0 : bpow 0 = 1.
Proof. reflexivity. Qed.

Lemma bpow_opp e : bpow (- e) = / bpow e.
Proof. apply powerRZ_neg'. Qed.

Lemma bpow_minus e1 e2 : bpow (e1 - e2) = bpow e1 / bpow e2.
Proof. unfold Z.sub, Rdiv. by rewrite bpow_plus, bpow_opp. Qed.

Lemma bpow_IZR n : (0 <= n)%Z -> bpow n = IZR (2 ^ n).
Proof.
  intros Hn. unfold bpow.
  rewrite <- (Z2Nat.id n) by assumption.
  rewrite <- pow_powerRZ, <- pow_IZR. reflexivity.
Qed.

Lemma bpow_ge_1 n : (0 <= n)%Z -> 1 <= bpow n.
Proof.
  intros Hn. rewrite bpow_IZR by assumption.
  apply IZR_le. assert (0 < 2 ^ n)%Z by (apply Z.pow_pos_nonneg; lia). lia.
Qed.

Lemma bpow_le e1 e2 : (e1 <= e2)%Z -> bpow e1 <= bpow e2.
Proof.
  intros H. replace e2 with (e1 + (e2 - e1))%Z by lia.
  rewrite bpow_plus.
  pose proof (bpow_gt_0 e1). pose proof (bpow_ge_1 (e2 - e1) ltac:(lia)).
  nra.
Qed.

Lemma bpow_lt e1 e2 : (e1 < e2)%Z -> bpow e1 < bpow e2.
Proof.
  intros H. replace e2 with (e1 + 1 + (e2 - e1 - 1))%Z by lia.
  rewrite !bpow_plus, bpow_1.
  pose proof (bpow_gt_0 e1). pose proof (bpow_ge_1 (e2 - e1 - 1) ltac:(lia)).
  nra.
Qed.

Lemma bpow_lt_inv e1 e2 : bpow e1 < bpow e2 -> (e1 < e2)%Z.
Proof.
  intros H. destruct (Z.lt_ge_cases e1 e2) as [|Hge]; [assumption|].
  apply bpow_le in Hge. lra.
Qed.

Lemma bpow_le_inv e1 e2 : bpow e1 <= bpow e2 -> (e1 <= e2)%Z.
Proof.
  intros H. destruct (Z.le_gt_cases e1 e2) as [|Hgt]; [assumption|].
  apply bpow_lt in Hgt. lra.
Qed.

Lemma bpow_succ e : bpow (e + 1) = 2 * bpow e.
Proof. rewrite bpow_plus, bpow_1. lra. Qed.

Lemma Rabs_le_inv x a : Rabs x <= a -> - a <= x <= a.
Proof. unfold Rabs. destruct (Rcase_abs x); lra. Qed.

(** An integer between two reals at distance less than one. *)
Lemma IZR_le_half (m k : Z) : IZR m < IZR k + 1 -> (m <= k)%Z.
Proof.
  intros H. apply Z.lt_succ_r. apply lt_IZR. rewrite succ_IZR. lra.
Qed.

Lemma IZR_ge_half (m k : Z) : IZR k - 1 < IZR m -> (k <= m)%Z.
Proof.
  intros H. apply Z.lt_succ_r. apply lt_IZR. rewrite succ_IZR. lra.
Qed.

(** *** Number of binary digits *)

Lemma digits2_size p : digits2_pos p = Pos.size p.
Proof. induction p; simpl; congruence. Qed.

Lemma digits2_bounds p :
  (2 ^ (Zpos (digits2_pos p) - 1) <= Zpos p < 2 ^ Zpos (digits2_pos p))%Z.
Proof.
  rewrite digits2_size. split.
  - pose proof (Pos.size_le p) as H.
    assert (E : (2 ^ Zpos (Pos.size p) = 2 * 2 ^ (Zpos (Pos.size p) - 1))%Z).
    { rewrite <- Z.pow_succ_r by lia. f_equal. lia. }
    assert (H' : (2 ^ Zpos (Pos.size p) <= Zpos p~0)%Z).
    { rewrite <- Pos2Z.inj_pow. apply Pos2Z.pos_le_pos. exact H. }
    lia.
  - pose proof (Pos.size_gt p) as H.
    rewrite <- Pos2Z.inj_pow. apply Pos2Z.pos_lt_pos. exact H.
Qed.

Lemma digits2_unique p k :
  (2 ^ (k - 1) <= Zpos p < 2 ^ k)%Z -> Zpos (digits2_pos p) = k.
Proof.
  intros [H1 H2]. destruct (digits2_bounds p) as [B1 B2].
  set (d := Zpos (digits2_pos p)) in *.
  assert (Hk : (0 < k)%Z).
  { destruct (Z.lt_ge_cases 0 k) as [|Hk]; [assumption|].
    destruct (Z.eq_dec k 0) as [->|]; [simpl in H2; lia|].
    rewrite Z.pow_neg_r in H2 by lia. lia. }
  destruct (Z.lt_trichotomy d k) as [Hlt|[Heq|Hgt]]; [|assumption|].
  - assert (2 ^ d <= 2 ^ (k - 1))%Z by (apply Z.pow_le_mono_r; lia). lia.
  - assert (2 ^ k <= 2 ^ (d - 1))%Z by (apply Z.pow_le_mono_r; lia). lia.
Qed.

Lemma digits2_bounds_R p :
  bpow (Zpos (digits2_pos p) - 1) <= IZR (Zpos p) < bpow (Zpos (digits2_pos p)).
Proof.
  destruct (digits2_bounds p) as [H1 H2].
  rewrite !bpow_IZR by lia. split; [apply IZR_le | apply IZR_lt]; assumption.
Qed.

(** *** Locations *)

(** [located y m l]: the real [y] lies in [[m, m+1)] and [l] says where. *)
Definition located (y : R) (m : Z) (l : location) : Prop :=
  match l with
  | loc_Exact => y = IZR m
  | loc_Inexact Lt => IZR m < y < IZR m + / 2
  | loc_Inexact Eq => y = IZR m + / 2
  | loc_Inexact Gt => IZR m + / 2 < y < IZR m + 1
  end.

Lemma located_bounds y m l : located y m l -> IZR m <= y < IZR m + 1.
Proof. destruct l as [|[| |]]; simpl; intros H; lra. Qed.

Lemma loc_of_shr_record_of_loc m l :
  loc_of_shr_record (shr_record_of_loc m l) = l /\ shr_m (shr_record_of_loc m l) = m.
Proof. destruct l as [|[| |]]; simpl; auto. Qed.

Lemma shr_1_located y mrs :
  (0 <= shr_m mrs)%Z ->
  located y (shr_m mrs) (loc_of_shr_record mrs) ->
  (0 <= shr_m (shr_1 mrs))%Z
  /\ located (y / 2) (shr_m (shr_1 mrs)) (loc_of_shr_record (shr_1 mrs)).
Proof.
  destruct mrs as [m r s]. simpl shr_m. intros Hm H.
  destruct m as [|p|p]; [| |lia].
  - destruct r, s; cbn [shr_1 shr_m loc_of_shr_record located orb] in *;
      (split; [lia|]); lra.
  - destruct p as [q|q|].
    + assert (Hp : IZR (Zpos q~1) = 2 * IZR (Zpos q) + 1).
      { rewrite <- mult_IZR, <- plus_IZR. reflexivity. }
      destruct r, s; cbn [shr_1 shr_m loc_of_shr_record located orb] in *;
        (split; [lia|]); rewrite Hp in H; lra.
    + assert (Hp : IZR (Zpos q~0) = 2 * IZR (Zpos q)).
      { rewrite <- mult_IZR. reflexivity. }
      destruct r, s; cbn [shr_1 shr_m loc_of_shr_record located orb] in *;
        (split; [lia|]); rewrite Hp in H; lra.
    + destruct r, s; cbn [shr_1 shr_m loc_of_shr_record located orb] in *;
        (split; [lia|]); lra.
Qed.

Lemma iter_shr_located p : forall y mrs,
  (0 <= shr_m mrs)%Z ->
  located y (shr_m mrs) (loc_of_shr_record mrs) ->
  (0 <= shr_m (SpecFloat.iter_pos shr_1 p mrs))%Z
  /\ located (y / bpow (Zpos p)) (shr_m (SpecFloat.iter_pos shr_1 p mrs))
             (loc_of_shr_record (SpecFloat.iter_pos shr_1 p mrs)).
Proof.
  induction p as [p IH|p IH|]; intros y mrs Hm H; simpl SpecFloat.iter_pos.
  - destruct (shr_1_located y mrs Hm H) as [Hm1 H1].
    destruct (IH _ _ Hm1 H1) as [Hm2 H2].
    destruct (IH _ _ Hm2 H2) as [Hm3 H3].
    split; [assumption|].
    replace (y / bpow (Zpos p~1)) with (y / 2 / bpow (Zpos p) / bpow (Zpos p));
      [assumption|].
    replace (Zpos p~1) with (1 + Zpos p + Zpos p)%Z by lia.
    rewrite !bpow_plus, bpow_1. pose proof (bpow_gt_0 (Zpos p)). field. lra.
  - destruct (IH _ _ Hm H) as [Hm2 H2].
    destruct (IH _ _ Hm2 H2) as [Hm3 H3].
    split; [assumption|].
    replace (y / bpow (Zpos p~0)) with (y / bpow (Zpos p) / bpow (Zpos p));
      [assumption|].
    replace (Zpos p~0) with (Zpos p + Zpos p)%Z by lia.
    rewrite !bpow_plus. pose proof (bpow_gt_0 (Zpos p)). field. lra.
  - destruct (shr_1_located y mrs Hm H) as [Hm1 H1].
    split; [assumption|]. by rewrite bpow_1.
Qed.

(** Shifting the mantissa right by [n] places keeps track of the real. *)
Lemma shr_located x m l e n :
  (0 <= m)%Z -> (0 <= n)%Z ->
  located (x / bpow e) m l ->
  let '(mrs, e') := shr (shr_record_of_loc m l) e n in
  e' = (e + n)%Z
  /\ (0 <= shr_m mrs)%Z
  /\ located (x / bpow e') (shr_m mrs) (loc_of_shr_record mrs).
Proof.
  intros Hm Hn H. destruct (loc_of_shr_record_of_loc m l) as [El Em].
  destruct n as [|p|p]; [| |lia]; cbn [shr].
  - rewrite Z.add_0_r, El, Em. auto.
  - destruct (iter_shr_located p (x / bpow e) (shr_record_of_loc m l)) as [H1 H2].
    + by rewrite Em.
    + by rewrite El, Em.
    + split; [reflexivity|]. split; [assumption|].
      replace (x / bpow (e + Zpos p)) with (x / bpow e / bpow (Zpos p));
        [assumption|].
      rewrite bpow_plus. pose proof (bpow_gt_0 e). pose proof (bpow_gt_0 (Zpos p)).
      field. lra.
Qed.

(** The choice of rounding to nearest, ties to even. *)
Lemma round_nearest_even_located y m l :
  located y m l ->
  let m1 := round_nearest_even m l in
  (m <= m1 <= m + 1)%Z
  /\ Rabs (IZR m1 - y) <= / 2
  /\ (Rabs (IZR m1 - y) = / 2 -> Z.even m1 = true).
Proof.
  intros H. cbv zeta.
  destruct l as [|[| |]]; cbn [round_nearest_even located] in *.
  - subst y. rewrite Rminus_diag, Rabs_R0. split; [lia|]. split; [lra|]. lra.
  - destruct (Z.even m) eqn:Ev.
    + subst y. split; [lia|].
      replace (IZR m - (IZR m + / 2)) with (- / 2) by lra.
      rewrite Rabs_Ropp, Rabs_pos_eq by lra. split; [lra|auto].
    + subst y. split; [lia|]. rewrite plus_IZR.
      replace (IZR m + 1 - (IZR m + / 2)) with (/ 2) by lra.
      rewrite Rabs_pos_eq by lra. split; [lra|]. intros _.
      rewrite Z.even_add, Ev. reflexivity.
  - split; [lia|].
    rewrite Rabs_left1 by lra. split; [lra|]. lra.
  - split; [lia|]. rewrite plus_IZR.
    rewrite Rabs_pos_eq by lra. split; [lra|]. lra.
Qed.

(** *** Rounding a located real *)

Abbreviation fexp := (SpecFloat.fexp prec emax).

Lemma fexp_normal k : (-1021 <= k)%Z -> fexp k = (k - 53)%Z.
Proof. intros H. unfold SpecFloat.fexp, emin, prec, emax. lia. Qed.

(** [v] is [x] rounded to the nearest number with 53 significant bits,
    ties to even; [e] is the exponent of the binade of [x]. *)
Definition rounded (x v : R) : Prop :=
  exists e m1 : Z,
    bpow (e + 52) <= x < bpow (e + 53)
    /\ v = IZR m1 * bpow e
    /\ Rabs (IZR m1 - x / bpow e) <= / 2
    /\ (Rabs (IZR m1 - x / bpow e) = / 2 -> Z.even m1 = true).

(** The value of a 53-bit mantissa [T] at exponent [E]. *)
Definition F2R (T E : Z) : R := IZR T * bpow E.

Definition mantissa (T : Z) : Prop := (2 ^ 52 <= T < 2 ^ 53)%Z.

(** A positive normal binary64 number and its value. *)
Definition normal_float (sf : spec_float) (v : R) : Prop :=
  exists M E,
    sf = S754_finite false M E
    /\ mantissa (Zpos M)
    /\ (-1074 <= E <= 971)%Z
    /\ v = F2R (Zpos M) E.

(** The reals that round to a normal number without overflow. *)
Definition in_range (x : R) : Prop := bpow (-1021) <= x < bpow 1023.

Lemma two_53 : IZR (2 ^ 53) = bpow 53.
Proof. by rewrite bpow_IZR. Qed.

Lemma two_52 : IZR (2 ^ 52) = bpow 52.
Proof. by rewrite bpow_IZR. Qed.

Lemma scale_bounds y x e k :
  y = x / bpow e ->
  (bpow (e + k) <= x <-> bpow k <= y) /\ (x < bpow (e + k) <-> y < bpow k).
Proof.
  intros ->. rewrite bpow_plus. pose proof (bpow_gt_0 e) as He.
  pose proof (bpow_gt_0 k) as Hk.
  assert (Hx : x = x / bpow e * bpow e) by (field; lra).
  set (y := x / bpow e) in *. clearbody y. subst x.
  split; split; intros H; nra.
Qed.

Lemma binary_round_aux_normal x p ex lx :
  (53 <= Zpos (digits2_pos p))%Z ->
  in_range x ->
  located (x / bpow ex) (Zpos p) lx ->
  exists v,
    normal_float (binary_round_aux prec emax false (Zpos p) ex lx) v
    /\ rounded x v.
Proof.
  set (d := Zpos (digits2_pos p)). set (e := (d + ex - 53)%Z).
  intros Hd [Hlo Hhi] Hloc.
  (* the binade of x *)
  assert (Hx : bpow (e + 52) <= x < bpow (e + 53)).
  { pose proof (located_bounds _ _ _ Hloc) as [L1 L2].
    destruct (digits2_bounds p) as [B1 B2]. fold d in B1, B2.
    assert (B2' : (Zpos p + 1 <= 2 ^ d)%Z) by lia.
    apply IZR_le in B1, B2'. rewrite plus_IZR in B2'.
    rewrite <- !bpow_IZR in * by lia.
    destruct (scale_bounds (x / bpow ex) x ex (d - 1) eq_refl) as [S1 _].
    destruct (scale_bounds (x / bpow ex) x ex d eq_refl) as [_ S2].
    replace (e + 52)%Z with (ex + (d - 1))%Z by (unfold e; lia).
    replace (e + 53)%Z with (ex + d)%Z by (unfold e; lia).
    split; [apply S1; lra|apply S2; lra]. }
  assert (He : (-1074 <= e <= 970)%Z).
  { assert (H1 : bpow (-1021) < bpow (e + 53)) by lra.
    assert (H2 : bpow (e + 52) < bpow 1023) by lra.
    apply bpow_lt_inv in H1, H2. lia. }
  unfold binary_round_aux, shr_fexp.
  assert (Hfexp : fexp (Zdigits2 (Zpos p) + ex) = e).
  { cbn [Zdigits2]. fold d. rewrite fexp_normal by (unfold e in He; lia).
    reflexivity. }
  rewrite Hfexp.
  pose proof (shr_located x (Zpos p) lx ex (e - ex) ltac:(lia)
                ltac:(unfold e; lia) Hloc) as Hshr.
  destruct (shr (shr_record_of_loc (Zpos p) lx) ex (e - ex)) as [mrs e'].
  destruct Hshr as (-> & Hm' & Hloc').
  replace (ex + (e - ex))%Z with e in * by lia.
  set (m' := shr_m mrs) in *. set (l' := loc_of_shr_record mrs) in *.
  clearbody m' l'. clear mrs Hloc Hfexp.
  set (y := x / bpow e) in *.
  assert (Hy : bpow 52 <= y < bpow 53).
  { destruct (scale_bounds y x e 52 eq_refl) as [S1 _].
    destruct (scale_bounds y x e 53 eq_refl) as [_ S2].
    split; [apply S1|apply S2]; tauto. }
  pose proof (located_bounds _ _ _ Hloc') as [L1 L2].
  assert (Hm'r : (2 ^ 52 <= m' < 2 ^ 53)%Z).
  { split.
    - apply Z.lt_succ_r. apply lt_IZR. rewrite succ_IZR, two_52. lra.
    - apply lt_IZR. rewrite two_53. lra. }
  destruct (round_nearest_even_located y m' l' Hloc') as (Hm1 & Hhalf & Htie).
  set (m1 := round_nearest_even m' l') in *. clearbody m1.
  assert (Hrounded : rounded x (IZR m1 * bpow e)).
  { exists e, m1. fold y. auto. }
  destruct (Z.eq_dec m1 (2 ^ 53)) as [E53|N53].
  - (* the mantissa has become 2^53: one more shift *)
    subst m1. exists (IZR (2 ^ 53) * bpow e). split; [|exact Hrounded].
    replace (fexp (Zdigits2 (2 ^ 53) + e) - e)%Z with 1%Z
      by (change (Zdigits2 (2 ^ 53)) with 54%Z; rewrite fexp_normal; lia).
    cbn -[Z.leb Z.sub Z.add].
    assert (Hle : (e + 1 <=? emax - prec)%Z = true)
      by (apply Z.leb_le; unfold emax, prec; lia).
    rewrite Hle.
    exists 4503599627370496%positive, (e + 1)%Z.
    split; [reflexivity|]. split; [unfold mantissa; lia|]. split; [lia|].
    unfold F2R. rewrite bpow_succ.
    change (2 ^ 53)%Z with (2 * 4503599627370496)%Z.
    rewrite mult_IZR. lra.
  - assert (Hm1r : (2 ^ 52 <= m1 < 2 ^ 53)%Z) by lia.
    destruct m1 as [|q|q]; [lia| |lia].
    assert (Hdq : Zpos (digits2_pos q) = 53%Z) by (by apply digits2_unique).
    exists (IZR (Zpos q) * bpow e). split; [|exact Hrounded].
    replace (fexp (Zdigits2 (Zpos q) + e) - e)%Z with 0%Z
      by (cbn [Zdigits2]; rewrite Hdq, fexp_normal; lia).
    cbn [shr shr_record_of_loc shr_m].
    assert (Hle : (e <=? emax - prec)%Z = true)
      by (apply Z.leb_le; unfold emax, prec; lia).
    rewrite Hle.
    exists q, e. split; [reflexivity|]. split; [exact Hm1r|].
    split; [lia|reflexivity].
Qed.

(** *** What rounding preserves *)

Lemma F2R_bounds T E : mantissa T -> bpow (E + 52) <= F2R T E < bpow (E + 53).
Proof.
  intros [H1 H2]. unfold F2R. apply IZR_le in H1. apply IZR_lt in H2.
  rewrite two_52 in H1. rewrite two_53 in H2.
  rewrite !(Z.add_comm E), !bpow_plus. pose proof (bpow_gt_0 E). nra.
Qed.

(** The same number at a smaller exponent. *)
Lemma F2R_change_exp T E e : (e <= E)%Z -> F2R T E = F2R (T * 2 ^ (E - e)) e.
Proof.
  intros H. unfold F2R. rewrite mult_IZR, <- bpow_IZR by lia.
  rewrite Rmult_assoc, <- bpow_plus. do 2 f_equal. lia.
Qed.

Lemma rounded_binade x e1 e2 :
  bpow (e1 + 52) <= x -> x < bpow (e2 + 53) -> (e1 <= e2)%Z.
Proof.
  intros H1 H2. assert (H : bpow (e1 + 52) < bpow (e2 + 53)) by lra.
  apply bpow_lt_inv in H. lia.
Qed.

(** Rounding never crosses a number of the format. *)
Lemma rounded_le x v T E :
  rounded x v -> mantissa T -> x <= F2R T E -> v <= F2R T E.
Proof.
  intros (e & m1 & [X1 X2] & -> & Hhalf & _) HT Hx.
  destruct (F2R_bounds T E HT) as [R1 R2].
  assert (He : (e <= E)%Z) by (apply (rounded_binade x); lra).
  rewrite (F2R_change_exp T E e He) in *.
  set (K := (T * 2 ^ (E - e))%Z) in *. unfold F2R in *.
  pose proof (bpow_gt_0 e) as Hb.
  assert (Hy : x / bpow e <= IZR K).
  { apply (Rmult_le_reg_r (bpow e)); [assumption|].
    replace (x / bpow e * bpow e) with x by (field; lra). assumption. }
  assert (Hm : (m1 <= K)%Z).
  { apply IZR_le_half. apply Rabs_le_inv in Hhalf. lra. }
  apply IZR_le in Hm. nra.
Qed.

Lemma rounded_ge x v T E :
  rounded x v -> mantissa T -> F2R T E <= x -> F2R T E <= v.
Proof.
  intros (e & m1 & [X1 X2] & -> & Hhalf & _) HT Hx.
  destruct (F2R_bounds T E HT) as [R1 R2].
  assert (He : (E <= e)%Z) by (apply (rounded_binade (F2R T E)); lra).
  pose proof (bpow_gt_0 e) as Hb.
  apply Rabs_le_inv in Hhalf.
  destruct (Z.eq_dec E e) as [->|Hne].
  - unfold F2R in *.
    assert (Hy : IZR T <= x / bpow e).
    { apply (Rmult_le_reg_r (bpow e)); [assumption|].
      replace (x / bpow e * bpow e) with x by (field; lra). assumption. }
    assert (Hm : (T <= m1)%Z) by (apply IZR_ge_half; lra).
    apply IZR_le in Hm. nra.
  - assert (Hy : bpow 52 <= x / bpow e).
    { by apply (scale_bounds (x / bpow e) x e 52 eq_refl). }
    rewrite <- two_52 in Hy.
    assert (Hm : (2 ^ 52 <= m1)%Z) by (apply IZR_ge_half; lra).
    apply IZR_le in Hm. rewrite two_52 in Hm.
    assert (Hb2 : bpow (E + 53) <= bpow 52 * bpow e)
      by (rewrite <- bpow_plus; apply bpow_le; lia).
    assert (bpow 52 * bpow e <= IZR m1 * bpow e)
      by (apply Rmult_le_compat_r; lra).
    lra.
Qed.

Lemma rounded_exact x v T E : rounded x v -> mantissa T -> x = F2R T E -> v = x.
Proof.
  intros Hr HT ->. apply Rle_antisym.
  - apply (rounded_le _ _ T E Hr HT). lra.
  - apply (rounded_ge _ _ T E Hr HT). lra.
Qed.

(** A real at most an eighth of a unit in the last place away from a
    number of the format is rounded to it, or beyond. *)
Lemma rounded_ge_near x v T E :
  rounded x v -> mantissa T -> F2R T E - bpow E / 8 <= x -> F2R T E <= v.
Proof.
  intros Hr HT Hx.
  destruct (Rle_lt_dec (F2R T E) x) as [Hle|Hlt]; [by apply (rounded_ge x)|].
  destruct Hr as (e & m1 & [X1 X2] & -> & Hhalf & _).
  destruct (F2R_bounds T E HT) as [R1 R2].
  assert (He : (e <= E)%Z) by (apply (rounded_binade x); lra).
  pose proof (bpow_gt_0 E) as HbE. pose proof (bpow_gt_0 e) as Hb.
  assert (He' : (E - 1 <= e)%Z).
  { apply (rounded_binade (bpow (E - 1 + 52))); [lra|].
    replace (E - 1 + 52)%Z with (E + 51)%Z by lia.
    replace (E + 52)%Z with (E + 51 + 1)%Z in R1 by lia.
    rewrite bpow_succ in R1.
    assert (bpow E <= bpow (E + 51)) by (apply bpow_le; lia). lra. }
  apply Rabs_le_inv in Hhalf.
  destruct HT as [T1 T2]. unfold F2R in *.
  destruct (Z.eq_dec e E) as [->|Hne].
  - assert (Hy : IZR T - / 8 <= x / bpow E).
    { apply (Rmult_le_reg_r (bpow E)); [assumption|].
      replace (x / bpow E * bpow E) with x by (field; lra). lra. }
    assert (Hm : (T <= m1)%Z) by (apply IZR_ge_half; lra).
    apply IZR_le in Hm. nra.
  - assert (e = E - 1)%Z as -> by lia.
    assert (HE : bpow E = 2 * bpow (E - 1)).
    { replace E with (E - 1 + 1)%Z at 1 by lia. apply bpow_succ. }
    assert (Hy : IZR (2 * T) - / 4 <= x / bpow (E - 1)).
    { apply (Rmult_le_reg_r (bpow (E - 1))); [assumption|].
      replace (x / bpow (E - 1) * bpow (E - 1)) with x by (field; lra).
      rewrite mult_IZR. rewrite HE in Hx. lra. }
    assert (Hm : (2 * T <= m1)%Z) by (apply IZR_ge_half; lra).
    apply IZR_le in Hm. rewrite mult_IZR in Hm. rewrite HE. nra.
Qed.

Lemma rounded_le_near x v T E :
  rounded x v -> mantissa T -> x <= F2R T E + bpow E / 8 -> v <= F2R T E.
Proof.
  intros Hr HT Hx.
  destruct (Rle_lt_dec x (F2R T E)) as [Hle|Hlt]; [by apply (rounded_le x)|].
  destruct Hr as (e & m1 & [X1 X2] & -> & Hhalf & _).
  destruct (F2R_bounds T E HT) as [R1 R2].
  pose proof (bpow_gt_0 E) as HbE. pose proof (bpow_gt_0 e) as Hb.
  assert (He : (E <= e)%Z) by (apply (rounded_binade (F2R T E)); lra).
  destruct HT as [T1 T2]. unfold F2R in *.
  assert (He' : (e <= E)%Z).
  { apply (rounded_binade x); [lra|].
    assert (T + 1 <= 2 ^ 53)%Z as HT' by lia.
    apply IZR_le in HT'. rewrite plus_IZR, two_53 in HT'.
    rewrite (Z.add_comm E), bpow_plus. nra. }
  assert (e = E) as -> by lia.
  apply Rabs_le_inv in Hhalf.
  assert (Hy : x / bpow E <= IZR T + / 8).
  { apply (Rmult_le_reg_r (bpow E)); [assumption|].
    replace (x / bpow E * bpow E) with x by (field; lra). lra. }
  assert (Hm : (m1 <= T)%Z) by (apply IZR_le_half; lra).
  apply IZR_le in Hm. nra.
Qed.

(** *** Comparisons *)

Lemma mantissa_digits M : mantissa (Zpos M) -> Zpos (digits2_pos M) = 53%Z.
Proof. intros H. by apply digits2_unique. Qed.

Lemma F2R_lt_exp T1 E1 T2 E2 :
  mantissa T1 -> mantissa T2 -> (E1 < E2)%Z -> F2R T1 E1 < F2R T2 E2.
Proof.
  intros H1 H2 HE.
  destruct (F2R_bounds T1 E1 H1) as [_ B1].
  destruct (F2R_bounds T2 E2 H2) as [B2 _].
  assert (bpow (E1 + 53) <= bpow (E2 + 52)) by (apply bpow_le; lia). lra.
Qed.

Lemma F2R_lt_mant T1 T2 E : (T1 < T2)%Z -> F2R T1 E < F2R T2 E.
Proof.
  intros H. apply IZR_lt in H. unfold F2R. pose proof (bpow_gt_0 E). nra.
Qed.

Lemma SFcompare_normal a va b vb :
  normal_float a va -> normal_float b vb ->
  exists c,
    SFcompare a b = Some c
    /\ match c with Lt => va < vb | Eq => va = vb | Gt => vb < va end.
Proof.
  intros (Ma & Ea & -> & HMa & _ & ->) (Mb & Eb & -> & HMb & _ & ->).
  cbn [SFcompare]. eexists. split; [reflexivity|].
  destruct (Z.compare_spec Ea Eb) as [->|Hlt|Hgt].
  - rewrite Pos.compare_cont_spec. cbn [Pos.switch_Eq].
    destruct (Pos.compare_spec Ma Mb) as [->|Hm|Hm].
    + reflexivity.
    + apply F2R_lt_mant. lia.
    + apply F2R_lt_mant. lia.
  - by apply F2R_lt_exp.
  - by apply F2R_lt_exp.
Qed.

Lemma SFltb_normal a va b vb :
  normal_float a va -> normal_float b vb -> SFltb a b = true <-> va < vb.
Proof.
  intros Ha Hb. destruct (SFcompare_normal a va b vb Ha Hb) as (c & Hc & H).
  unfold SFltb. rewrite Hc. destruct c; split; intros; (done || lra).
Qed.

Lemma SFleb_normal a va b vb :
  normal_float a va -> normal_float b vb -> SFleb a b = true <-> va <= vb.
Proof.
  intros Ha Hb. destruct (SFcompare_normal a va b vb Ha Hb) as (c & Hc & H).
  unfold SFleb. rewrite Hc. destruct c; split; intros; (done || lra).
Qed.

(** *** The operations *)

Lemma normal_float_valid sf v : normal_float sf v -> valid_binary sf = true.
Proof.
  intros (M & E & -> & HM & HE & _). cbn [valid_binary]. unfold bounded.
  apply andb_true_intro. split.
  - unfold canonical_mantissa. rewrite (mantissa_digits M HM).
    apply Z.eqb_eq. unfold SpecFloat.fexp, emin, prec, emax. lia.
  - apply Z.leb_le. unfold emax, prec. lia.
Qed.

Lemma normal_float_range sf v : normal_float sf v -> bpow (-1022) <= v < bpow 1024.
Proof.
  intros (M & E & -> & HM & HE & ->).
  destruct (F2R_bounds _ E HM) as [B1 B2].
  assert (bpow (-1022) <= bpow (E + 52)) by (apply bpow_le; lia).
  assert (bpow (E + 53) <= bpow 1024) by (apply bpow_le; lia).
  lra.
Qed.

Lemma iter_xO p k : Zpos (Pos.iter xO p k) = (Zpos p * 2 ^ Zpos k)%Z.
Proof.
  induction k as [|k IH] using Pos.peano_ind.
  - cbn [Pos.iter]. lia.
  - rewrite Pos.iter_succ, Pos2Z.inj_xO, IH, Pos2Z.inj_succ, Z.pow_succ_r by lia.
    ring.
Qed.

(** [binary_round] rounds the number it is given. *)
Lemma binary_round_normal p ex :
  let x := IZR (Zpos p) * bpow ex in
  in_range x ->
  exists v, normal_float (binary_round prec emax false p ex) v /\ rounded x v.
Proof.
  intros x Hx. unfold binary_round.
  set (d := Zpos (digits2_pos p)).
  destruct (digits2_bounds_R p) as [B1 B2]. fold d in B1, B2.
  pose proof (bpow_gt_0 ex) as Hex.
  assert (Hde : (-1021 <= d + ex)%Z).
  { destruct Hx as [Hlo _].
    assert (H : bpow (-1021) < bpow (d + ex)).
    { rewrite bpow_plus. unfold x in Hlo. nra. }
    apply bpow_lt_inv in H. lia. }
  rewrite fexp_normal by assumption.
  unfold shl_align.
  destruct (d + ex - 53 - ex)%Z as [|k|k] eqn:Ek.
  - apply binary_round_aux_normal; [fold d; lia|assumption|].
    cbn [located]. unfold x. field. lra.
  - apply binary_round_aux_normal; [fold d; lia|assumption|].
    cbn [located]. unfold x. field. lra.
  - assert (Hk : Zpos k = (53 - d)%Z) by lia.
    apply binary_round_aux_normal; [|assumption|].
    + assert (Zpos (digits2_pos (Pos.iter xO p k)) = 53%Z); [|lia].
      apply digits2_unique. rewrite iter_xO, Hk.
      destruct (digits2_bounds p) as [Z1 Z2]. fold d in Z1, Z2.
      assert (E1 : (2 ^ (53 - 1) = 2 ^ (d - 1) * 2 ^ (53 - d))%Z).
      { rewrite <- Z.pow_add_r by lia. f_equal. lia. }
      assert (E2 : (2 ^ 53 = 2 ^ d * 2 ^ (53 - d))%Z).
      { rewrite <- Z.pow_add_r by lia. f_equal. lia. }
      assert (0 < 2 ^ (53 - d))%Z by (apply Z.pow_pos_nonneg; lia).
      rewrite E1, E2. nia.
    + cbn [located]. rewrite iter_xO, mult_IZR, <- bpow_IZR by lia.
      unfold x. replace ex with ((d + ex - 53) + Zpos k)%Z at 1 by lia.
      rewrite bpow_plus. pose proof (bpow_gt_0 (d + ex - 53)). field. lra.
Qed.

Lemma new_location_located q nb k :
  (0 <= k < nb)%Z ->
  located (IZR q + IZR k / IZR nb) q (new_location nb k).
Proof.
  intros [Hk0 Hk].
  assert (Hnb : 0 < IZR nb) by (apply IZR_lt; lia).
  assert (Hdiv : forall c : R, c * IZR nb = IZR k -> IZR k / IZR nb = c).
  { intros c Hc. rewrite <- Hc. field. lra. }
  destruct (Z.eq_dec k 0) as [->|Hk'].
  - assert (located (IZR q + 0 / IZR nb) q loc_Exact)
      by (cbn [located]; unfold Rdiv; lra).
    unfold new_location, new_location_even, new_location_odd.
    by destruct (Z.even nb).
  - assert (Hkpos : 0 < IZR k) by (apply IZR_lt; lia).
    assert (Hfrac : 0 < IZR k / IZR nb < 1).
    { split.
      - apply Rdiv_lt_0_compat; assumption.
      - apply (Rmult_lt_reg_r (IZR nb)); [assumption|].
        replace (IZR k / IZR nb * IZR nb) with (IZR k) by (field; lra).
        rewrite Rmult_1_l. apply IZR_lt. assumption. }
    assert (Hcmp : forall c : comparison,
               (2 * k ?= nb)%Z = c ->
               located (IZR q + IZR k / IZR nb) q (loc_Inexact c)).
    { intros c Hc.
      assert (Hhalf : IZR k / IZR nb - / 2 = (2 * IZR k - IZR nb) / (2 * IZR nb))
        by (field; lra).
      assert (Hden : 0 < / (2 * IZR nb)) by (apply Rinv_0_lt_compat; lra).
      destruct c; cbn [located].
      - apply Z.compare_eq in Hc. apply (f_equal IZR) in Hc.
        rewrite mult_IZR in Hc.
        assert (IZR k / IZR nb = / 2); [|lra].
        apply Hdiv. lra.
      - apply Z.compare_lt_iff in Hc. apply IZR_lt in Hc. rewrite mult_IZR in Hc.
        assert (IZR k / IZR nb - / 2 < 0); [|lra].
        rewrite Hhalf. unfold Rdiv. nra.
      - apply Z.compare_gt_iff in Hc. apply IZR_lt in Hc. rewrite mult_IZR in Hc.
        assert (0 < IZR k / IZR nb - / 2); [|lra].
        rewrite Hhalf. unfold Rdiv. nra. }
    assert (Hk0' : (k =? 0)%Z = false) by (by apply Z.eqb_neq).
    unfold new_location, new_location_even, new_location_odd.
    destruct (Z.even nb) eqn:Ev; rewrite Hk0'.
    + by apply Hcmp.
    + destruct (Z.compare_spec (2 * k + 1) nb) as [Heq|Hlt|Hgt].
      * apply Hcmp. apply Z.compare_lt_iff. lia.
      * apply Hcmp. apply Z.compare_lt_iff. lia.
      * apply Hcmp. apply Z.compare_gt_iff.
        assert (2 * k <> nb)%Z; [|lia].
        intros <-. rewrite Z.even_mul in Ev. discriminate.
Qed.

Lemma div_eucl_div_mod a b : Z.div_eucl a b = ((a / b)%Z, (a mod b)%Z).
Proof. unfold Z.div, Z.modulo. by destruct (Z.div_eucl a b). Qed.

Lemma SFdiv_normal a va b vb :
  normal_float a va -> normal_float b vb -> in_range (va / vb) ->
  exists v, normal_float (SFdiv prec emax a b) v /\ rounded (va / vb) v.
Proof.
  intros (Ma & Ea & -> & HMa & HEa & ->) (Mb & Eb & -> & HMb & HEb & ->) Hx.
  destruct (F2R_bounds _ Ea HMa) as [A1 A2].
  destruct (F2R_bounds _ Eb HMb) as [B1 B2].
  pose proof (bpow_gt_0 Ea) as HbEa. pose proof (bpow_gt_0 Eb) as HbEb.
  assert (HvB : 0 < F2R (Zpos Mb) Eb).
  { pose proof (bpow_gt_0 (Eb + 52)). lra. }
  (* the exponents are not too far apart *)
  assert (HE : (-1021 <= Ea - Eb)%Z).
  { destruct Hx as [Hlo _].
    assert (H : bpow (-1021) < bpow (Ea - Eb + 1)).
    { eapply Rle_lt_trans; [exact Hlo|].
      apply (Rmult_lt_reg_r (F2R (Zpos Mb) Eb)); [assumption|].
      replace (F2R (Zpos Mb) Eb) with (F2R (Zpos Mb) Eb) at 1 by reflexivity.
      replace (F2R (Zpos Ma) Ea / F2R (Zpos Mb) Eb * F2R (Zpos Mb) Eb)
        with (F2R (Zpos Ma) Ea) by (field; lra).
      assert (bpow (Ea - Eb + 1) * bpow (Eb + 52) = bpow (Ea + 53))
        by (rewrite <- bpow_plus; f_equal; lia).
      pose proof (bpow_gt_0 (Ea - Eb + 1)). nra. }
    apply bpow_lt_inv in H. lia. }
  cbn [SFdiv xorb]. unfold SFdiv_core_binary. cbn [Zdigits2].
  rewrite (mantissa_digits Ma HMa), (mantissa_digits Mb HMb).
  replace (53 + Ea - (53 + Eb))%Z with (Ea - Eb)%Z by lia.
  rewrite fexp_normal by assumption.
  rewrite Z.min_l by lia.
  replace (Ea - Eb - (Ea - Eb - 53))%Z with 53%Z by lia.
  rewrite Z.shiftl_mul_pow2 by lia.
  rewrite div_eucl_div_mod.
  set (m' := (Zpos Ma * 2 ^ 53)%Z).
  destruct HMa as [Ma1 Ma2]. destruct HMb as [Mb1 Mb2].
  assert (Hq : (2 ^ 52 <= m' / Zpos Mb < 2 ^ 54)%Z).
  { split.
    - apply Z.div_le_lower_bound; [lia|]. unfold m'. nia.
    - apply Z.div_lt_upper_bound; [lia|]. unfold m'. nia. }
  destruct (m' / Zpos Mb)%Z as [|q|q] eqn:Eq; [lia| |lia].
  apply binary_round_aux_normal; [|assumption|].
  - destruct (digits2_bounds q) as [_ D2].
    destruct (Z.lt_ge_cases (Zpos (digits2_pos q)) 53) as [Hlt|]; [|assumption].
    assert (2 ^ Zpos (digits2_pos q) <= 2 ^ 52)%Z
      by (apply Z.pow_le_mono_r; lia).
    lia.
  - assert (Hmod := Z.mod_pos_bound m' (Zpos Mb) ltac:(lia)).
    pose proof (new_location_located (Zpos q) (Zpos Mb) (m' mod Zpos Mb) Hmod)
      as Hloc.
    replace (F2R (Zpos Ma) Ea / F2R (Zpos Mb) Eb / bpow (Ea - Eb - 53))
      with (IZR (Zpos q) + IZR (m' mod Zpos Mb) / IZR (Zpos Mb)); [exact Hloc|].
    assert (Hm' : IZR m' = IZR (Zpos Mb) * IZR (Zpos q) + IZR (m' mod Zpos Mb)).
    { rewrite <- Eq, <- mult_IZR, <- plus_IZR. f_equal. apply Z.div_mod. lia. }
    assert (HMbpos : 0 < IZR (Zpos Mb)) by (apply IZR_lt; lia).
    unfold F2R.
    replace (Ea - Eb - 53)%Z with (Ea + (- Eb + - (53)))%Z by lia.
    rewrite !bpow_plus, !bpow_opp.
    assert (H53 : bpow 53 = IZR (2 ^ 53)) by (by rewrite bpow_IZR).
    rewrite H53.
    assert (Hm'' : IZR m' = IZR (Zpos Ma) * IZR (2 ^ 53))
      by (unfold m'; by rewrite mult_IZR).
    assert (0 < IZR (2 ^ 53)) by (apply IZR_lt; lia).
    apply (Rmult_eq_reg_r (IZR (Zpos Mb))); [|lra].
    transitivity (IZR m'); [rewrite Hm'; field; lra|].
    rewrite Hm''. field. lra.
Qed.

Lemma SFmul_normal a va b vb :
  normal_float a va -> normal_float b vb -> in_range (va * vb) ->
  exists v, normal_float (SFmul prec emax a b) v /\ rounded (va * vb) v.
Proof.
  intros (Ma & Ea & -> & HMa & HEa & ->) (Mb & Eb & -> & HMb & HEb & ->) Hx.
  cbn [SFmul xorb].
  destruct HMa as [Ma1 Ma2]. destruct HMb as [Mb1 Mb2].
  apply binary_round_aux_normal; [|assumption|].
  - destruct (digits2_bounds (Ma * Mb)) as [_ D2].
    destruct (Z.lt_ge_cases (Zpos (digits2_pos (Ma * Mb))) 53) as [Hlt|];
      [|assumption].
    assert (2 ^ Zpos (digits2_pos (Ma * Mb)) <= 2 ^ 52)%Z
      by (apply Z.pow_le_mono_r; lia).
    rewrite Pos2Z.inj_mul in D2. nia.
  - cbn [located]. unfold F2R. rewrite Pos2Z.inj_mul, mult_IZR, bpow_plus.
    pose proof (bpow_gt_0 Ea). pose proof (bpow_gt_0 Eb). field. lra.
Qed.

Lemma shl_align_value M E ez :
  (ez <= E)%Z ->
  Zpos (fst (shl_align M E ez)) = (Zpos M * 2 ^ (E - ez))%Z.
Proof.
  intros H. unfold shl_align.
  destruct (ez - E)%Z as [|k|k] eqn:Ek; cbn [fst].
  - replace (E - ez)%Z with 0%Z by lia. lia.
  - lia.
  - rewrite iter_xO. do 2 f_equal. lia.
Qed.

Lemma SFadd_normal a va b vb :
  normal_float a va -> normal_float b vb -> va + vb < bpow 1023 ->
  exists v, normal_float (SFadd prec emax a b) v /\ rounded (va + vb) v.
Proof.
  intros (Ma & Ea & -> & HMa & HEa & ->) (Mb & Eb & -> & HMb & HEb & ->) Hx.
  cbn [SFadd cond_Zopp].
  set (ez := Z.min Ea Eb).
  rewrite !shl_align_value by (unfold ez; lia).
  destruct (F2R_bounds _ Ea HMa) as [A1 A2].
  destruct (F2R_bounds _ Eb HMb) as [B1 B2].
  assert (HpA : (0 < 2 ^ (Ea - ez))%Z) by (apply Z.pow_pos_nonneg; unfold ez; lia).
  assert (HpB : (0 < 2 ^ (Eb - ez))%Z) by (apply Z.pow_pos_nonneg; unfold ez; lia).
  destruct (Zpos Ma * 2 ^ (Ea - ez) + Zpos Mb * 2 ^ (Eb - ez))%Z
    as [|S|S] eqn:ES; [lia| |lia].
  cbn [binary_normalize].
  assert (Hsum : IZR (Zpos S) * bpow ez = F2R (Zpos Ma) Ea + F2R (Zpos Mb) Eb).
  { rewrite (F2R_change_exp _ Ea ez), (F2R_change_exp _ Eb ez)
      by (unfold ez; lia).
    rewrite <- ES, plus_IZR. unfold F2R. ring. }
  rewrite <- Hsum in *.
  apply binary_round_normal. split; [|assumption].
  rewrite Hsum.
  assert (bpow (-1022) <= bpow (Ea + 52)) by (apply bpow_le; lia).
  assert (bpow (-1022) <= bpow (Eb + 52)) by (apply bpow_le; lia).
  pose proof (bpow_succ (-1022)) as Hs. change (-1022 + 1)%Z with (-1021)%Z in Hs.
  lra.
Qed.

(** *** Primitive floats *)

(** The float [f] is a positive normal number of value [v]. *)
Definition represents (f : float) (v : R) : Prop := normal_float (Prim2SF f) v.

Lemma represents_range f v : represents f v -> bpow (-1022) <= v < bpow 1024.
Proof. apply normal_float_range. Qed.

Lemma represents_pos f v : represents f v -> 0 < v.
Proof.
  intros H. apply represents_range in H. pose proof (bpow_gt_0 (-1022)). lra.
Qed.

Lemma represents_mantissa f v :
  represents f v -> exists T E, mantissa T /\ v = F2R T E.
Proof. intros (M & E & _ & HM & _ & ->). by exists (Zpos M), E. Qed.

Lemma represents_prim f v :
  represents f v -> exists M E, Prim2SF f = S754_finite false M E.
Proof. intros (M & E & Hf & _). by exists M, E. Qed.

Lemma ltb_represents a va b vb :
  represents a va -> represents b vb -> PrimFloat.ltb a b = true <-> va < vb.
Proof. intros Ha Hb. rewrite ltb_spec. by apply SFltb_normal. Qed.

Lemma leb_represents a va b vb :
  represents a va -> represents b vb -> PrimFloat.leb a b = true <-> va <= vb.
Proof. intros Ha Hb. rewrite leb_spec. by apply SFleb_normal. Qed.

Lemma div_represents a va b vb :
  represents a va -> represents b vb -> in_range (va / vb) ->
  exists v, represents (a / b) v /\ rounded (va / vb) v.
Proof.
  intros Ha Hb Hx. unfold represents. rewrite div_spec. by apply SFdiv_normal.
Qed.

Lemma mul_represents a va b vb :
  represents a va -> represents b vb -> in_range (va * vb) ->
  exists v, represents (a * b) v /\ rounded (va * vb) v.
Proof.
  intros Ha Hb Hx. unfold represents. rewrite mul_spec. by apply SFmul_normal.
Qed.

Lemma add_represents a va b vb :
  represents a va -> represents b vb -> va + vb < bpow 1023 ->
  exists v, represents (a + b) v /\ rounded (va + vb) v.
Proof.
  intros Ha Hb Hx. unfold represents. rewrite add_spec. by apply SFadd_normal.
Qed.

(** A float given by its mantissa and exponent. *)
Lemma represents_const f M E :
  Prim2SF f = S754_finite false M E ->
  (2 ^ 52 <=? Zpos M)%Z && (Zpos M <? 2 ^ 53)%Z
    && (-1074 <=? E)%Z && (E <=? 971)%Z = true ->
  represents f (F2R (Zpos M) E).
Proof.
  intros Hf Hb. apply andb_prop in Hb as [Hb H4]. apply andb_prop in Hb as [Hb H3].
  apply andb_prop in Hb as [H1 H2].
  exists M, E. split; [exact Hf|]. split; [split; lia|]. split; [lia|reflexivity].
Qed.

(** An integer as a number of the format. *)
Lemma F2R_int z :
  (0 < z < 2 ^ 53)%Z -> exists T E, mantissa T /\ IZR z = F2R T E.
Proof.
  intros Hz. destruct z as [|p|p]; [lia| |lia].
  set (d := Zpos (digits2_pos p)).
  destruct (digits2_bounds p) as [D1 D2]. fold d in D1, D2.
  assert (Hd : (d <= 53)%Z).
  { destruct (Z.le_gt_cases d 53) as [|Hgt]; [assumption|].
    assert (2 ^ 53 <= 2 ^ (d - 1))%Z by (apply Z.pow_le_mono_r; lia). lia. }
  exists (Zpos p * 2 ^ (53 - d))%Z, (d - 53)%Z. split.
  - assert (E1 : (2 ^ 52 = 2 ^ (d - 1) * 2 ^ (53 - d))%Z).
    { rewrite <- Z.pow_add_r by lia. f_equal. lia. }
    assert (E2 : (2 ^ 53 = 2 ^ d * 2 ^ (53 - d))%Z).
    { rewrite <- Z.pow_add_r by lia. f_equal. lia. }
    assert (0 < 2 ^ (53 - d))%Z by (apply Z.pow_pos_nonneg; lia).
    unfold mantissa. rewrite E1, E2. nia.
  - replace (53 - d)%Z with (0 - (d - 53))%Z by lia.
    rewrite <- (F2R_change_exp (Zpos p) 0 (d - 53)) by lia.
    unfold F2R. rewrite bpow_0. lra.
Qed.

(** [float64(z)] is exact up to [2^53]. *)
Lemma binary_normalize_int z :
  (0 < z < 2 ^ 53)%Z ->
  normal_float (binary_normalize prec emax z 0 false) (IZR z).
Proof.
  intros Hz. destruct (F2R_int z Hz) as (T & E & HT & HTE).
  destruct z as [|p|p]; [lia| |lia]. cbn [binary_normalize].
  destruct (binary_round_normal p 0) as (v & Hv & Hr).
  - rewrite bpow_0, Rmult_1_r. split.
    + assert (bpow (-1021) <= bpow 0) by (apply bpow_le; lia).
      rewrite bpow_0 in *. assert (1 <= IZR (Zpos p)) by (apply IZR_le; lia). lra.
    + assert (IZR (Zpos p) < IZR (2 ^ 53)) by (apply IZR_lt; lia).
      rewrite two_53 in *.
      assert (bpow 53 <= bpow 1023) by (apply bpow_le; lia). lra.
  - rewrite bpow_0, Rmult_1_r in Hr.
    by rewrite <- (rounded_exact _ _ T E Hr HT HTE).
Qed.

Lemma of_int_represents z :
  (0 < z < 2 ^ 53)%Z -> represents (F64.of_int z) (IZR z).
Proof.
  intros Hz. pose proof (binary_normalize_int z Hz) as H.
  unfold represents, F64.of_int.
  by rewrite Prim2SF_SF2Prim by (by eapply normal_float_valid).
Qed.

(** *** Negative numbers *)

(** The sign of a result is the sign that was asked for. *)
Definition with_sign (s : bool) (sf : spec_float) : spec_float :=
  match sf with
  | S754_zero _ => S754_zero s
  | S754_infinity _ => S754_infinity s
  | S754_nan => S754_nan
  | S754_finite _ m e => S754_finite s m e
  end.

Lemma binary_round_aux_sign s mx ex lx :
  binary_round_aux prec emax s mx ex lx
  = with_sign s (binary_round_aux prec emax false mx ex lx).
Proof.
  unfold binary_round_aux.
  destruct (shr_fexp prec emax mx ex lx) as [mrs' e'].
  destruct (shr_fexp prec emax _ e' loc_Exact) as [mrs'' e''].
  destruct (shr_m mrs''); [reflexivity| |reflexivity].
  by destruct (e'' <=? emax - prec)%Z.
Qed.

Lemma binary_round_sign s p ex :
  binary_round prec emax s p ex = with_sign s (binary_round prec emax false p ex).
Proof.
  unfold binary_round. destruct (shl_align _ _ _) as [mz ez].
  apply binary_round_aux_sign.
Qed.

Lemma SFdiv_sign sa Ma Ea sb Mb Eb :
  SFdiv prec emax (S754_finite sa Ma Ea) (S754_finite sb Mb Eb)
  = with_sign (xorb sa sb)
      (SFdiv prec emax (S754_finite false Ma Ea) (S754_finite false Mb Eb)).
Proof.
  cbn [SFdiv]. destruct (SFdiv_core_binary _ _ _ _ _ _) as [[mz ez] lz].
  rewrite binary_round_aux_sign. symmetry. rewrite binary_round_aux_sign.
  by destruct (binary_round_aux prec emax false mz ez lz).
Qed.

Lemma SFmul_sign sa Ma Ea sb Mb Eb :
  SFmul prec emax (S754_finite sa Ma Ea) (S754_finite sb Mb Eb)
  = with_sign (xorb sa sb)
      (SFmul prec emax (S754_finite false Ma Ea) (S754_finite false Mb Eb)).
Proof.
  cbn [SFmul]. rewrite binary_round_aux_sign. symmetry.
  rewrite binary_round_aux_sign.
  by destruct (binary_round_aux prec emax false _ _ _).
Qed.

(** [float64(z)] for any positive 64-bit integer: [z], rounded. *)
Lemma of_int_rounded z :
  (0 < z < 2 ^ 63)%Z ->
  exists v, represents (F64.of_int z) v /\ rounded (IZR z) v.
Proof.
  intros Hz. destruct z as [|p|p]; [lia| |lia].
  destruct (binary_round_normal p 0) as (v & Hv & Hr).
  - rewrite bpow_0, Rmult_1_r. split.
    + assert (bpow (-1021) <= bpow 0) by (apply bpow_le; lia).
      rewrite bpow_0 in *. assert (1 <= IZR (Zpos p)) by (apply IZR_le; lia). lra.
    + assert (IZR (Zpos p) < IZR (2 ^ 63)) by (apply IZR_lt; lia).
      rewrite <- bpow_IZR in * by lia.
      assert (bpow 63 <= bpow 1023) by (apply bpow_le; lia). lra.
  - rewrite bpow_0, Rmult_1_r in Hr. exists v. split; [|exact Hr].
    unfold represents, F64.of_int. cbn [binary_normalize].
    by rewrite Prim2SF_SF2Prim by (by eapply normal_float_valid).
Qed.

(** [float64(z)] for a negative 64-bit integer is a negative normal
    number. *)
Lemma of_int_negative z :
  (- 2 ^ 63 <= z < 0)%Z ->
  exists M E v,
    Prim2SF (F64.of_int z) = S754_finite true M E
    /\ normal_float (S754_finite false M E) v
    /\ rounded (IZR (- z)) v.
Proof.
  intros Hz. destruct z as [|p|p]; [lia|lia|].
  destruct (binary_round_normal p 0) as (v & Hv & Hr).
  - rewrite bpow_0, Rmult_1_r. split.
    + assert (bpow (-1021) <= bpow 0) by (apply bpow_le; lia).
      rewrite bpow_0 in *. assert (1 <= IZR (Zpos p)) by (apply IZR_le; lia). lra.
    + assert (IZR (Zpos p) <= IZR (2 ^ 63)) by (apply IZR_le; lia).
      rewrite <- bpow_IZR in * by lia.
      assert (bpow 63 < bpow 1023) by (apply bpow_lt; lia). lra.
  - rewrite bpow_0, Rmult_1_r in Hr.
    pose proof Hv as (M & E & HME & HM & HE & Hval).
    exists M, E, v. split; [|split; [by rewrite <- HME|exact Hr]].
    unfold F64.of_int. cbn [binary_normalize].
    rewrite binary_round_sign, HME. cbn [with_sign].
    apply Prim2SF_SF2Prim.
    apply (normal_float_valid (S754_finite false M E) v). by rewrite <- HME.
Qed.

Lemma of_int_zero : Prim2SF (F64.of_int 0) = S754_zero false.
Proof. reflexivity. Qed.

(** *** Ratios of integers against numbers of the format *)

Lemma F2R_neg_exp T k : (0 <= k)%Z -> F2R T (- k) = IZR T / IZR (2 ^ k).
Proof.
  intros Hk. unfold F2R. by rewrite bpow_opp, bpow_IZR.
Qed.

Lemma F2R_neg T p : F2R T (Zneg p) = IZR T / IZR (2 ^ Zpos p).
Proof. exact (F2R_neg_exp T (Zpos p) ltac:(lia)). Qed.

Lemma F2R_shifted_int n k : (0 <= k)%Z -> F2R (n * 2 ^ k) (- k) = IZR n.
Proof.
  intros Hk. rewrite F2R_neg_exp, mult_IZR by assumption.
  assert (0 < IZR (2 ^ k)) by (apply IZR_lt, Z.pow_pos_nonneg; lia).
  field. lra.
Qed.

Lemma ratio_le_F2R c d T k :
  (0 < d)%Z -> (0 <= k)%Z -> (c * 2 ^ k <= T * d)%Z ->
  IZR c / IZR d <= F2R T (- k).
Proof.
  intros Hd Hk H. rewrite F2R_neg_exp by assumption.
  apply IZR_le in H. rewrite !mult_IZR in H.
  assert (0 < IZR d) by (apply IZR_lt; lia).
  assert (0 < IZR (2 ^ k)) by (apply IZR_lt, Z.pow_pos_nonneg; lia).
  apply (Rmult_le_reg_r (IZR d * IZR (2 ^ k))); [nra|].
  replace (IZR c / IZR d * (IZR d * IZR (2 ^ k))) with (IZR c * IZR (2 ^ k))
    by (field; lra).
  replace (IZR T / IZR (2 ^ k) * (IZR d * IZR (2 ^ k))) with (IZR T * IZR d)
    by (field; lra).
  assumption.
Qed.

Lemma ratio_ge_F2R c d T k :
  (0 < d)%Z -> (0 <= k)%Z -> (T * d <= c * 2 ^ k)%Z ->
  F2R T (- k) <= IZR c / IZR d.
Proof.
  intros Hd Hk H. rewrite F2R_neg_exp by assumption.
  apply IZR_le in H. rewrite !mult_IZR in H.
  assert (0 < IZR d) by (apply IZR_lt; lia).
  assert (0 < IZR (2 ^ k)) by (apply IZR_lt, Z.pow_pos_nonneg; lia).
  apply (Rmult_le_reg_r (IZR d * IZR (2 ^ k))); [nra|].
  replace (IZR c / IZR d * (IZR d * IZR (2 ^ k))) with (IZR c * IZR (2 ^ k))
    by (field; lra).
  replace (IZR T / IZR (2 ^ k) * (IZR d * IZR (2 ^ k))) with (IZR T * IZR d)
    by (field; lra).
  assumption.
Qed.

Lemma F2R_scale n T E : IZR n * F2R T E = F2R (n * T) E.
Proof. unfold F2R. rewrite mult_IZR. ring. Qed.

Lemma F2R_le T1 T2 E : (T1 <= T2)%Z -> F2R T1 E <= F2R T2 E.
Proof.
  intros H. apply IZR_le in H. unfold F2R. pose proof (bpow_gt_0 E). nra.
Qed.

Lemma F2R_lt T1 T2 E : (T1 < T2)%Z -> F2R T1 E < F2R T2 E.
Proof. apply F2R_lt_mant. Qed.

End Rounding.

(** ** The spending velocity *)

Module VelocityFacts.
Import Rounding.
#[local] Open Scope R_scope.

Lemma represents_2 : represents 2 (F2R (2 ^ 52) (-51)).
Proof. by apply (represents_const 2 4503599627370496 (-51)). Qed.

Lemma represents_7 : represents 7 (F2R (7 * 2 ^ 50) (-50)).
Proof. by apply (represents_const 7 7881299347898368 (-50)). Qed.

(** A tie just below a power of two is rounded up to it. *)
Lemma rounded_ge_pow2 x v E :
  rounded x v -> F2R (2 ^ 52) E - bpow E / 4 <= x -> F2R (2 ^ 52) E <= v.
Proof.
  intros Hr Hx.
  assert (HT : mantissa (2 ^ 52)) by (unfold mantissa; lia).
  destruct (Rle_lt_dec (F2R (2 ^ 52) E) x) as [Hle|Hlt];
    [by apply (rounded_ge x)|].
  destruct Hr as (e & m1 & [X1 X2] & -> & Hhalf & Htie).
  pose proof (bpow_gt_0 E) as HbE. pose proof (bpow_gt_0 e) as Hb.
  assert (HE : bpow E = 2 * bpow (E - 1)).
  { replace E with (E - 1 + 1)%Z at 1 by lia. apply bpow_succ. }
  assert (Hr : F2R (2 ^ 52) E = bpow 53 * bpow (E - 1)).
  { unfold F2R. rewrite two_52, HE.
    change 53%Z with (52 + 1)%Z. rewrite bpow_succ. ring. }
  rewrite Hr in *.
  assert (He : e = (E - 1)%Z).
  { assert (P53 : bpow (E - 1 + 53) = bpow 53 * bpow (E - 1))
      by (rewrite <- bpow_plus; f_equal; lia).
    assert (P52 : bpow (E - 1 + 52) = bpow 52 * bpow (E - 1))
      by (rewrite <- bpow_plus; f_equal; lia).
    assert (S53 : bpow 53 = 2 * bpow 52) by (apply (bpow_succ 52)).
    pose proof (bpow_ge_1 52 ltac:(lia)) as G52.
    pose proof (bpow_gt_0 (E - 1)) as Gb.
    assert (H1 : bpow (e + 52) < bpow (E - 1 + 53)) by lra.
    assert (H2 : bpow (E - 1 + 52) < bpow (e + 53)).
    { eapply Rle_lt_trans; [|exact X2]. eapply Rle_trans; [|exact Hx].
      rewrite P52, HE, S53. nra. }
    apply bpow_lt_inv in H1, H2. lia. }
  subst e. set (b := bpow (E - 1)) in *.
  assert (Hy : bpow 53 - / 2 <= x / b).
  { apply (Rmult_le_reg_r b); [assumption|].
    replace (x / b * b) with x by (field; lra). rewrite HE in Hx. lra. }
  rewrite <- two_53 in Hy.
  assert (Hhalf' := Rabs_le_inv _ _ Hhalf).
  assert (Hm : (2 ^ 53 - 1 <= m1)%Z).
  { apply IZR_ge_half. rewrite minus_IZR.
    destruct (Req_dec (IZR m1) (IZR (2 ^ 53) - 1 - 1)) as [Heq|]; [|lra].
    exfalso.
    assert (Hm1 : m1 = (2 ^ 53 - 2)%Z).
    { apply eq_IZR. rewrite minus_IZR. lra. }
    lra. }
  destruct (Z.eq_dec m1 (2 ^ 53 - 1)) as [->|Hne].
  - exfalso. rewrite minus_IZR in Hhalf', Htie.
    assert (Hxy : x / b = IZR (2 ^ 53) - / 2) by lra.
    rewrite Hxy in Htie.
    replace (IZR (2 ^ 53) - 1 - (IZR (2 ^ 53) - / 2)) with (- / 2) in Htie by lra.
    rewrite Rabs_Ropp, Rabs_pos_eq in Htie by lra.
    specialize (Htie eq_refl). discriminate Htie.
  - assert (Hm' : (2 ^ 53 <= m1)%Z) by lia.
    apply IZR_le in Hm'. rewrite two_53 in Hm'. nra.
Qed.

(** [calculateVelocity] compares the number of transactions per week
    with 2 and with 7; for counts below [2^53] and up to [2^50] days the
    rounding of the quotient and of the product never changes the outcome
    of the exact comparison. *)
Theorem velocity_thresholds count days :
  (0 <= count < 2 ^ 53)%Z -> (0 < days <= 2 ^ 50)%Z ->
  Spending.calculateVelocity count days
  = if (7 * count <? 2 * days)%Z then "low"
    else if (count <? days)%Z then "moderate"
    else "high".
Proof.
  intros Hc Hd. unfold Spending.calculateVelocity, F64.lt. cbv zeta.
  destruct (Z.eq_dec count 0) as [->|Hc0].
  { replace (7 * 0 <? 2 * days)%Z with true by (symmetry; apply Z.ltb_lt; lia).
    assert (Hz : Prim2SF (F64.of_int 0 / F64.of_int days * 7)
                 = S754_zero false).
    { rewrite mul_spec, div_spec.
      destruct (of_int_represents days ltac:(lia)) as (M & E & -> & _).
      reflexivity. }
    rewrite ltb_spec, Hz. reflexivity. }
  pose proof (of_int_represents count ltac:(lia)) as Rc.
  pose proof (of_int_represents days ltac:(lia)) as Rd.
  assert (Hcpos : 1 <= IZR count) by (apply IZR_le; lia).
  assert (Hdpos : 1 <= IZR days) by (apply IZR_le; lia).
  assert (Hcup : IZR count <= bpow 53) by (rewrite <- two_53; apply IZR_le; lia).
  assert (Hdup : IZR days <= bpow 53) by (rewrite <- two_53; apply IZR_le; lia).
  (* the quotient lies between 2^-53 and 2^53 *)
  assert (Hlo : F2R (2 ^ 52) (-105) <= IZR count / IZR days).
  { apply (ratio_ge_F2R _ _ _ 105); [lia|lia|]. nia. }
  assert (Hhi : IZR count / IZR days <= F2R (2 ^ 52 * 2) 0).
  { apply (ratio_le_F2R _ _ _ 0); [lia|lia|]. nia. }
  assert (HT52 : mantissa (2 ^ 52)) by (unfold mantissa; lia).
  assert (Hlo' : bpow (-53) = F2R (2 ^ 52) (-105)).
  { unfold F2R. rewrite two_52, <- bpow_plus. reflexivity. }
  assert (Hhi' : F2R (2 ^ 52 * 2) 0 = F2R (2 ^ 52) 1).
  { unfold F2R. rewrite mult_IZR, bpow_1, bpow_0. lra. }
  rewrite Hhi' in Hhi.
  assert (H53 : F2R (2 ^ 52) 1 = bpow 53).
  { unfold F2R. rewrite two_52, <- bpow_plus. reflexivity. }
  destruct (div_represents _ _ _ _ Rc Rd) as (vq & Rq & Hq).
  { split.
    - assert (bpow (-1021) <= bpow (-53)) by (apply bpow_le; lia). lra.
    - assert (bpow 53 < bpow 1023) by (apply bpow_lt; lia). lra. }
  pose proof (rounded_ge _ _ _ _ Hq HT52 Hlo) as Hq1.
  pose proof (rounded_le _ _ _ _ Hq HT52 Hhi) as Hq2.
  rewrite <- Hlo' in Hq1. rewrite H53 in Hq2.
  destruct (mul_represents _ _ _ _ Rq represents_7) as (vw & Rw & Hw).
  { rewrite F2R_shifted_int by lia. split.
    - assert (bpow (-1021) <= bpow (-53)) by (apply bpow_le; lia).
      pose proof (bpow_gt_0 (-53)). lra.
    - assert (bpow 56 < bpow 1023) by (apply bpow_lt; lia).
      assert (bpow 56 = 8 * bpow 53).
      { change 56%Z with (53 + 1 + 1 + 1)%Z. rewrite !bpow_succ. ring. }
      pose proof (bpow_gt_0 53). lra. }
  rewrite F2R_shifted_int in Hw by lia.
  set (w := (F64.of_int count / F64.of_int days * 7)%float) in *.
  pose proof (ltb_represents _ _ _ _ Rw represents_2) as L2.
  pose proof (ltb_represents _ _ _ _ Rw represents_7) as L7.
  rewrite F2R_shifted_int in L7 by lia.
  assert (H2 : F2R (2 ^ 52) (-51) = 2).
  { exact (F2R_shifted_int 2 51 ltac:(lia)). }
  rewrite H2 in L2.
  assert (Hdays : 0 < IZR days) by lra.
  destruct (Z.ltb_spec (7 * count) (2 * days)) as [Hlow|Hnlow].
  - (* fewer than two a week *)
    assert (Hvw : vw < 2).
    { assert (B1 : IZR count / IZR days <= F2R (5146971002709138 - 1) (-54)).
      { apply (ratio_le_F2R _ _ _ 54); [lia|lia|]. lia. }
      pose proof (rounded_le _ _ (5146971002709138 - 1) (-54) Hq
                    ltac:(unfold mantissa; lia) B1) as B2.
      assert (B3 : vq * IZR 7 <= F2R (2 ^ 53 - 2) (-52)).
      { rewrite (F2R_change_exp (2 ^ 53 - 2) (-52) (-54)) by lia.
        eapply Rle_trans; [|apply (F2R_le (7 * (5146971002709138 - 1))); lia].
        rewrite <- F2R_scale. lra. }
      pose proof (rounded_le _ _ (2 ^ 53 - 2) (-52) Hw
                    ltac:(unfold mantissa; lia) B3) as B4.
      eapply Rle_lt_trans; [exact B4|]. rewrite <- H2.
      rewrite (F2R_change_exp (2 ^ 52) (-51) (-52)) by lia.
      apply F2R_lt. lia. }
    by rewrite (proj2 L2 Hvw).
  - assert (Hvw : 2 <= vw).
    { assert (B1 : F2R 5146971002709138 (-54) <= IZR count / IZR days).
      { apply (ratio_ge_F2R _ _ _ 54); [lia|lia|]. lia. }
      pose proof (rounded_ge _ _ 5146971002709138 (-54) Hq
                    ltac:(unfold mantissa; lia) B1) as B2.
      rewrite <- H2. apply (rounded_ge_pow2 _ _ _ Hw).
      assert (B3 : F2R (7 * 5146971002709138) (-54) <= vq * IZR 7).
      { rewrite <- F2R_scale. lra. }
      eapply Rle_trans; [|exact B3].
      rewrite (F2R_change_exp (2 ^ 52) (-51) (-54)) by lia.
      assert (Hb : bpow (-51) / 4 = F2R 2 (-54)).
      { unfold F2R. change (-51)%Z with (-54 + 1 + 1 + 1)%Z.
        rewrite !bpow_succ. lra. }
      rewrite Hb. unfold F2R. rewrite <- Rmult_minus_distr_r, <- minus_IZR.
      apply Rmult_le_compat_r; [apply Rlt_le, bpow_gt_0|].
      apply IZR_le. lia. }
    assert (E2 : PrimFloat.ltb w 2 = false).
    { apply not_true_is_false. intros E. apply L2 in E. lra. }
    rewrite E2.
    destruct (Z.ltb_spec count days) as [Hmod|Hhigh].
    + assert (Hvw7 : vw < IZR 7).
      { assert (B1 : IZR count / IZR days <= F2R (2 ^ 53 - 4) (-53)).
        { apply (ratio_le_F2R _ _ _ 53); [lia|lia|]. nia. }
        pose proof (rounded_le _ _ (2 ^ 53 - 4) (-53) Hq
                      ltac:(unfold mantissa; lia) B1) as B2.
        assert (B3 : vq * IZR 7 <= F2R (7 * 2 ^ 50 - 3) (-50)).
        { rewrite (F2R_change_exp (7 * 2 ^ 50 - 3) (-50) (-53)) by lia.
          eapply Rle_trans; [|apply (F2R_le (7 * (2 ^ 53 - 4))); lia].
          rewrite <- F2R_scale. lra. }
        pose proof (rounded_le _ _ (7 * 2 ^ 50 - 3) (-50) Hw
                      ltac:(unfold mantissa; lia) B3) as B4.
        eapply Rle_lt_trans; [exact B4|].
        rewrite <- (F2R_shifted_int 7 50) by lia.
        apply F2R_lt. lia. }
      by rewrite (proj2 L7 Hvw7).
    + assert (Hvw7 : IZR 7 <= vw).
      { assert (B1 : F2R (2 ^ 52) (-52) <= IZR count / IZR days).
        { apply (ratio_ge_F2R _ _ _ 52); [lia|lia|]. nia. }
        pose proof (rounded_ge _ _ _ _ Hq HT52 B1) as B2.
        rewrite <- (F2R_shifted_int 7 50) by lia.
        apply (rounded_ge _ _ _ _ Hw); [unfold mantissa; lia|].
        rewrite (F2R_shifted_int 7 50) by lia.
        assert (F2R (2 ^ 52) (-52) = 1).
        { rewrite <- (F2R_shifted_int 1 52) by lia. reflexivity. }
        lra. }
      assert (E7 : PrimFloat.ltb w 7 = false).
      { apply not_true_is_false. intros E. apply L7 in E. lra. }
      by rewrite E7.
Qed.

(** Without a positive number of days the answer does not depend on the
    count: a period of 0 days divides by zero, which yields [+Inf] or
    [NaN] and so "high"; a negative period yields a negative number (or
    [-0]) and so "low". *)
Theorem velocity_without_period count days :
  (0 <= count < 2 ^ 63)%Z -> (- 2 ^ 63 <= days <= 0)%Z ->
  Spending.calculateVelocity count days
  = if (days =? 0)%Z then "high" else "low".
Proof.
  intros Hc Hd. unfold Spending.calculateVelocity, F64.lt. cbv zeta.
  rewrite !ltb_spec, mul_spec, div_spec.
  destruct represents_7 as (M7 & E7 & HP7 & HM7). rewrite HP7.
  assert (H2 : Prim2SF 2 = S754_finite false 4503599627370496 (-51))
    by reflexivity.
  rewrite H2.
  destruct (Z.eqb_spec days 0) as [->|Hd0].
  - rewrite of_int_zero.
    destruct (Z.eq_dec count 0) as [->|Hc0]; [by rewrite of_int_zero|].
    destruct (of_int_rounded count ltac:(lia)) as (v & (M & E & -> & _) & _).
    reflexivity.
  - destruct (of_int_negative days ltac:(lia)) as (Md & Ed & vd & -> & Hvd & Hrd).
    destruct (Z.eq_dec count 0) as [->|Hc0]; [by rewrite of_int_zero|].
    destruct (of_int_rounded count ltac:(lia)) as (vc & Hvc & Hrc).
    pose proof Hvc as (Mc & Ec & HPc & HMc). unfold represents in Hvc.
    rewrite HPc in *.
    (* both magnitudes lie between 1 and 2^63 *)
    assert (Hone : mantissa (2 ^ 52)) by (unfold mantissa; lia).
    assert (H1 : F2R (2 ^ 52) (-52) = 1) by exact (F2R_shifted_int 1 52 ltac:(lia)).
    assert (H63 : F2R (2 ^ 52) 11 = bpow 63).
    { unfold F2R. rewrite two_52, <- bpow_plus. reflexivity. }
    assert (Bc : 1 <= vc <= bpow 63).
    { assert (1 <= IZR count <= bpow 63).
      { rewrite bpow_IZR by lia. split; apply IZR_le; lia. }
      split.
      - rewrite <- H1. apply (rounded_ge _ _ _ _ Hrc Hone). lra.
      - rewrite <- H63. apply (rounded_le _ _ _ _ Hrc Hone). lra. }
    assert (Bd : 1 <= vd <= bpow 63).
    { assert (1 <= IZR (- days) <= bpow 63).
      { rewrite bpow_IZR by lia. split; apply IZR_le; lia. }
      split.
      - rewrite <- H1. apply (rounded_ge _ _ _ _ Hrd Hone). lra.
      - rewrite <- H63. apply (rounded_le _ _ _ _ Hrd Hone). lra. }
    pose proof (bpow_gt_0 63) as G63.
    assert (Hm63 : bpow (-63) * bpow 63 = 1).
    { rewrite <- bpow_plus. reflexivity. }
    unfold SF64div. rewrite SFdiv_sign. cbn [xorb].
    destruct (SFdiv_normal _ vc _ vd Hvc Hvd) as (vq & (Mq & Eq & -> & HMq) & Hrq).
    { split.
      - assert (bpow (-1021) <= bpow (-63)) by (apply bpow_le; lia).
        assert (bpow (-63) <= vc / vd); [|lra].
        apply (Rmult_le_reg_r vd); [lra|].
        replace (vc / vd * vd) with vc by (field; lra).
        pose proof (bpow_gt_0 (-63)). nra.
      - assert (bpow 63 < bpow 1023) by (apply bpow_lt; lia).
        assert (vc / vd <= bpow 63); [|lra].
        apply (Rmult_le_reg_r vd); [lra|].
        replace (vc / vd * vd) with vc by (field; lra). nra. }
    cbn [with_sign]. unfold SF64mul. rewrite SFmul_sign. cbn [xorb].
    assert (Bq : bpow (-63) <= vq <= bpow 63).
    { assert (Hlo : F2R (2 ^ 52) (-115) = bpow (-63)).
      { unfold F2R. rewrite two_52, <- bpow_plus. reflexivity. }
      split.
      - rewrite <- Hlo. apply (rounded_ge _ _ _ _ Hrq Hone). rewrite Hlo.
        apply (Rmult_le_reg_r vd); [lra|].
        replace (vc / vd * vd) with vc by (field; lra).
        pose proof (bpow_gt_0 (-63)). nra.
      - rewrite <- H63. apply (rounded_le _ _ _ _ Hrq Hone). rewrite H63.
        apply (Rmult_le_reg_r vd); [lra|].
        replace (vc / vd * vd) with vc by (field; lra). nra. }
    destruct (SFmul_normal (S754_finite false Mq Eq) vq
                (S754_finite false M7 E7) (F2R (7 * 2 ^ 50) (-50)))
      as (vw & (Mw & Ew & -> & _) & _).
    + by exists Mq, Eq.
    + by exists M7, E7.
    + rewrite F2R_shifted_int by lia. split.
      * assert (bpow (-1021) <= bpow (-63)) by (apply bpow_le; lia).
        pose proof (bpow_gt_0 (-63)). lra.
      * assert (bpow 66 < bpow 1023) by (apply bpow_lt; lia).
        assert (bpow 66 = 8 * bpow 63).
        { change 66%Z with (63 + 1 + 1 + 1)%Z. rewrite !bpow_succ. ring. }
        lra.
    + reflexivity.
Qed.

Lemma velocity_thresholds_witness :
  (0 <= 10 < 2 ^ 53)%Z /\ (0 < 30 <= 2 ^ 50)%Z
  /\ Spending.calculateVelocity 10 30 = "moderate".
Proof.
  assert (Hc : (0 <= 10 < 2 ^ 53)%Z) by lia.
  assert (Hd : (0 < 30 <= 2 ^ 50)%Z) by lia.
  split; [exact Hc|]. split; [exact Hd|].
  exact (velocity_thresholds 10 30 Hc Hd).
Defined.

Lemma velocity_without_period_witness :
  (0 <= 5 < 2 ^ 63)%Z /\ (- 2 ^ 63 <= 0 <= 0)%Z
  /\ Spending.calculateVelocity 5 0 = "high".
Proof.
  assert (Hc : (0 <= 5 < 2 ^ 63)%Z) by lia.
  assert (Hd : (- 2 ^ 63 <= 0 <= 0)%Z) by lia.
  split; [exact Hc|]. split; [exact Hd|].
  exact (velocity_without_period 5 0 Hc Hd).
Defined.

End VelocityFacts.

(** ** The mean interval against the frequency ranges *)

Module FrequencyFacts.
Import Rounding Subscriptions.
#[local] Open Scope R_scope.

(** A positive integer below [2^53], scaled by a power of two, is a
    number of the format. *)
Lemma F2R_normalize z E :
  (0 < z < 2 ^ 53)%Z -> exists T E', mantissa T /\ F2R z E = F2R T E'.
Proof.
  intros Hz. destruct (F2R_int z Hz) as (T & E0 & HT & HTE).
  exists T, (E0 + E)%Z. split; [exact HT|].
  unfold F2R in *. rewrite bpow_plus, <- Rmult_assoc, <- HTE. reflexivity.
Qed.

Lemma rounded_le_int x v z E :
  rounded x v -> (0 < z < 2 ^ 53)%Z -> x <= F2R z E -> v <= F2R z E.
Proof.
  intros Hr Hz Hx. destruct (F2R_normalize z E Hz) as (T & E' & HT & HE).
  rewrite HE in *.
  by apply (rounded_le x).
Qed.

Lemma rounded_ge_int x v z E :
  rounded x v -> (0 < z < 2 ^ 53)%Z -> F2R z E <= x -> F2R z E <= v.
Proof.
  intros Hr Hz Hx. destruct (F2R_normalize z E Hz) as (T & E' & HT & HE).
  rewrite HE in *.
  by apply (rounded_ge x).
Qed.

(** A float literal that denotes a small integer. *)
Lemma represents_literal f t :
  Prim2SF f = Prim2SF (F64.of_int t) -> (0 < t < 2 ^ 53)%Z ->
  represents f (IZR t).
Proof.
  intros Hf Ht. unfold represents. rewrite Hf. by apply of_int_represents.
Qed.

(** The quotient of a sum below [2^53] by a count of at most [2^44],
    computed in binary64, compares with an integer below 512 like the
    exact quotient. *)
Lemma mean_against_integer (sum n t : Z) (f : float) :
  (0 < sum < 2 ^ 53)%Z -> (0 < n <= 2 ^ 44)%Z -> (0 < t < 2 ^ 9)%Z ->
  represents f (IZR t) ->
  let avg := (F64.of_int sum / F64.of_int n)%float in
  F64.le avg f = (sum <=? t * n)%Z /\ F64.ge avg f = (t * n <=? sum)%Z.
Proof.
  intros Hs Hn Ht Rf avg. unfold F64.le, F64.ge.
  pose proof (of_int_represents sum ltac:(lia)) as Rs.
  pose proof (of_int_represents n ltac:(lia)) as Rn.
  assert (Hnpos : 0 < IZR n) by (apply IZR_lt; lia).
  assert (Hlo : F2R 1 (-44) <= IZR sum / IZR n).
  { apply (ratio_ge_F2R _ _ _ 44); [lia|lia|]. nia. }
  assert (Hhi : IZR sum / IZR n <= F2R (2 ^ 53 - 1) 0).
  { apply (ratio_le_F2R _ _ _ 0); [lia|lia|]. nia. }
  destruct (div_represents _ _ _ _ Rs Rn) as (vq & Rq & Hq).
  { split.
    - assert (bpow (-1021) <= bpow (-44)) by (apply bpow_le; lia).
      unfold F2R in Hlo. lra.
    - assert (bpow 53 < bpow 1023) by (apply bpow_lt; lia).
      assert (F2R (2 ^ 53 - 1) 0 < bpow 53); [|lra].
      unfold F2R. rewrite bpow_0, Rmult_1_r, <- two_53. apply IZR_lt. lia. }
  fold avg in Rq.
  pose proof (leb_represents _ _ _ _ Rq Rf) as Lle.
  pose proof (leb_represents _ _ _ _ Rf Rq) as Lge.
  assert (Ht44 : F2R (t * 2 ^ 44) (-44) = IZR t)
    by exact (F2R_shifted_int t 44 ltac:(lia)).
  split.
  - apply eq_true_iff_eq. rewrite Lle, Z.leb_le. split; intros H.
    + destruct (Z.le_gt_cases sum (t * n)) as [|Hgt]; [assumption|]. exfalso.
      assert (B : F2R (t * 2 ^ 44 + 1) (-44) <= IZR sum / IZR n).
      { apply (ratio_ge_F2R _ _ _ 44); [lia|lia|]. nia. }
      pose proof (rounded_ge_int _ _ (t * 2 ^ 44 + 1) (-44) Hq ltac:(lia) B) as B'.
      assert (F2R (t * 2 ^ 44) (-44) < F2R (t * 2 ^ 44 + 1) (-44))
        by (apply F2R_lt; lia).
      lra.
    + rewrite <- Ht44.
      apply (rounded_le_int _ _ (t * 2 ^ 44) (-44) Hq ltac:(lia)).
      apply (ratio_le_F2R _ _ _ 44); [lia|lia|]. nia.
  - apply eq_true_iff_eq. rewrite Lge, Z.leb_le. split; intros H.
    + destruct (Z.le_gt_cases (t * n) sum) as [|Hgt]; [assumption|]. exfalso.
      assert (B : IZR sum / IZR n <= F2R (t * 2 ^ 44 - 1) (-44)).
      { apply (ratio_le_F2R _ _ _ 44); [lia|lia|]. nia. }
      pose proof (rounded_le_int _ _ (t * 2 ^ 44 - 1) (-44) Hq ltac:(lia) B) as B'.
      assert (F2R (t * 2 ^ 44 - 1) (-44) < F2R (t * 2 ^ 44) (-44))
        by (apply F2R_lt; lia).
      lra.
    + rewrite <- Ht44.
      apply (rounded_ge_int _ _ (t * 2 ^ 44) (-44) Hq ltac:(lia)).
      apply (ratio_ge_F2R _ _ _ 44); [lia|lia|]. nia.
Qed.

(** A sum that is zero or negative gives a mean below every positive
    bound. *)
Lemma mean_nonpositive (sum n : Z) (f : float) (v : R) :
  (- 2 ^ 63 <= sum <= 0)%Z -> (0 < n <= 2 ^ 44)%Z -> represents f v ->
  F64.ge (F64.of_int sum / F64.of_int n)%float f = false.
Proof.
  intros Hs Hn (Mf & Ef & Hf & _). unfold F64.ge.
  rewrite leb_spec, div_spec, Hf.
  pose proof (of_int_represents n ltac:(lia)) as Rn.
  pose proof Rn as (Mn & En & HPn & _). unfold represents in Rn.
  rewrite HPn in *.
  destruct (Z.eq_dec sum 0) as [->|Hs0]; [by rewrite of_int_zero|].
  destruct (of_int_negative sum ltac:(lia)) as (Ms & Es & vs & -> & Hvs & Hrs).
  unfold SF64div. rewrite SFdiv_sign. cbn [xorb].
  assert (Hone : mantissa (2 ^ 52)) by (unfold mantissa; lia).
  assert (Bs : 1 <= vs <= bpow 63).
  { assert (H1 : F2R (2 ^ 52) (-52) = 1)
      by exact (F2R_shifted_int 1 52 ltac:(lia)).
    assert (H63 : F2R (2 ^ 52) 11 = bpow 63).
    { unfold F2R. rewrite two_52, <- bpow_plus. reflexivity. }
    assert (1 <= IZR (- sum) <= bpow 63).
    { rewrite bpow_IZR by lia. split; apply IZR_le; lia. }
    split.
    - rewrite <- H1. apply (rounded_ge _ _ _ _ Hrs Hone). lra.
    - rewrite <- H63. apply (rounded_le _ _ _ _ Hrs Hone). lra. }
  assert (Bn : 1 <= IZR n <= bpow 44).
  { rewrite bpow_IZR by lia. split; apply IZR_le; lia. }
  destruct (SFdiv_normal _ vs _ (IZR n) Hvs Rn) as (vq & (Mq & Eq & -> & _) & _);
    [|reflexivity].
  pose proof (bpow_gt_0 44) as G44.
  assert (Hm44 : bpow (-44) * bpow 44 = 1) by (by rewrite <- bpow_plus).
  split.
  - assert (bpow (-1021) <= bpow (-44)) by (apply bpow_le; lia).
    assert (bpow (-44) <= vs / IZR n); [|lra].
    apply (Rmult_le_reg_r (IZR n)); [lra|].
    replace (vs / IZR n * IZR n) with vs by (field; lra).
    pose proof (bpow_gt_0 (-44)). nra.
  - assert (bpow 63 < bpow 1023) by (apply bpow_lt; lia).
    assert (vs / IZR n <= bpow 63); [|lra].
    apply (Rmult_le_reg_r (IZR n)); [lra|].
    replace (vs / IZR n * IZR n) with vs by (field; lra). nra.
Qed.

Lemma frequency_exact intervals :
  let sum := sum_intervals intervals in
  let n := Z.of_nat (length intervals) in
  let within lo hi := ((lo * n <=? sum) && (sum <=? hi * n))%Z in
  intervals <> [] -> (sum < 2 ^ 53)%Z -> (n <= 2 ^ 44)%Z ->
  detectFrequency intervals
  = if within 25%Z 35%Z then "monthly"
    else if within 80%Z 100%Z then "quarterly"
    else if within 170%Z 190%Z then "semi-annual"
    else if within 350%Z 380%Z then "annual"
    else if within 7%Z 14%Z then "biweekly"
    else if within 1%Z 7%Z then "weekly"
    else "irregular".
Proof.
  intros sum n within Hne Hsum Hn.
  destruct intervals as [|i l]; [done|]. clear Hne.
  unfold detectFrequency, average. fold sum. fold n. cbv zeta.
  assert (Hn0 : (0 < n)%Z) by (unfold n; cbn [length]; lia).
  assert (Hlow : (- 2 ^ 63 <= sum)%Z).
  { unfold sum, sum_intervals. clear.
    set (f := fun s x => F64.wrap64 (s + x)).
    assert (G : forall xs a, (- 2 ^ 63 <= a)%Z -> (- 2 ^ 63 <= fold_left f xs a)%Z).
    { induction xs as [|x xs IH]; intros a Ha; [exact Ha|].
      cbn [fold_left]. apply IH. unfold f, F64.wrap64.
      pose proof (Z.mod_pos_bound (a + x + 2 ^ 63) (2 ^ 64) ltac:(lia)). lia. }
    apply G. lia. }
  unfold within.
  destruct (Z.le_gt_cases sum 0) as [Hneg|Hpos].
  - pose proof (fun t f Hf Ht =>
                  mean_nonpositive sum n f (IZR t) ltac:(lia) ltac:(lia)
                    (represents_literal f t Hf Ht)) as H.
    rewrite (H 25%Z 25%float eq_refl ltac:(lia)),
      (H 80%Z 80%float eq_refl ltac:(lia)),
      (H 170%Z 170%float eq_refl ltac:(lia)),
      (H 350%Z 350%float eq_refl ltac:(lia)),
      (H 7%Z 7%float eq_refl ltac:(lia)), (H 1%Z 1%float eq_refl ltac:(lia)).
    cbn [andb].
    repeat match goal with
           | |- context [(?a * n <=? sum)%Z] =>
               replace (a * n <=? sum)%Z with false
                 by (symmetry; apply Z.leb_gt; nia)
           end.
    reflexivity.
  - pose proof (fun t f (Ht : (0 < t < 2 ^ 9)%Z) Hf =>
                  mean_against_integer sum n t f ltac:(lia) ltac:(lia) Ht
                    (represents_literal f t Hf ltac:(lia))) as H.
    cbv zeta in H.
    destruct (H 25%Z 25%float ltac:(lia) eq_refl) as [L25 G25].
    destruct (H 35%Z 35%float ltac:(lia) eq_refl) as [L35 G35].
    destruct (H 80%Z 80%float ltac:(lia) eq_refl) as [L80 G80].
    destruct (H 100%Z 100%float ltac:(lia) eq_refl) as [L100 G100].
    destruct (H 170%Z 170%float ltac:(lia) eq_refl) as [L170 G170].
    destruct (H 190%Z 190%float ltac:(lia) eq_refl) as [L190 G190].
    destruct (H 350%Z 350%float ltac:(lia) eq_refl) as [L350 G350].
    destruct (H 380%Z 380%float ltac:(lia) eq_refl) as [L380 G380].
    destruct (H 7%Z 7%float ltac:(lia) eq_refl) as [L7 G7].
    destruct (H 14%Z 14%float ltac:(lia) eq_refl) as [L14 G14].
    destruct (H 1%Z 1%float ltac:(lia) eq_refl) as [L1 G1].
    rewrite G25, L35, G80, L100, G170, L190, G350, L380, G7, L14, G1, L7.
    reflexivity.
Qed.

(** For up to [2^44] intervals whose sum is below [2^53],
    [detectFrequency] classifies the mean exactly: the binary64 mean lies
    in a range of days if and only if the sum lies between the bounds
    multiplied by the number of intervals.  The ranges are tried in the
    order of the code, so a mean of exactly 7 is "biweekly". *)
Theorem frequency_by_exact_mean intervals :
  let sum := sum_intervals intervals in
  let n := Z.of_nat (length intervals) in
  let within lo hi := ((lo * n <=? sum) && (sum <=? hi * n))%Z in
  intervals <> [] -> (sum < 2 ^ 53)%Z -> (n <= 2 ^ 44)%Z ->
  detectFrequency intervals
  = if within 25%Z 35%Z then "monthly"
    else if within 80%Z 100%Z then "quarterly"
    else if within 170%Z 190%Z then "semi-annual"
    else if within 350%Z 380%Z then "annual"
    else if within 7%Z 14%Z then "biweekly"
    else if within 1%Z 7%Z then "weekly"
    else "irregular".
Proof.
  intros sum n within Hne Hsum Hn.
  exact (frequency_exact intervals Hne Hsum Hn).
Qed.

Lemma frequency_by_exact_mean_witness :
  let intervals := [30; 40]%Z in
  intervals <> []
  /\ (sum_intervals intervals < 2 ^ 53)%Z
  /\ (Z.of_nat (length intervals) <= 2 ^ 44)%Z
  /\ detectFrequency intervals = "monthly".
Proof.
  cbv zeta.
  assert (H1 : [30; 40]%Z <> []) by discriminate.
  assert (H2 : (sum_intervals [30; 40] < 2 ^ 53)%Z) by (vm_compute; reflexivity).
  assert (H3 : (Z.of_nat (length [30; 40]%Z) <= 2 ^ 44)%Z)
    by (vm_compute; discriminate).
  split; [exact H1|]. split; [exact H2|]. split; [exact H3|].
  exact (frequency_by_exact_mean [30; 40]%Z H1 H2 H3).
Defined.

End FrequencyFacts.

(** ** The number of days between two payments *)

Module IntervalFacts.
Import Rounding FrequencyFacts GoTime Subscriptions.
#[local] Open Scope R_scope.

(** [int(f)] of a positive normal number is its integer part. *)
Lemma to_int_floor f v k :
  represents f v -> (0 <= k < 2 ^ 63)%Z -> IZR k <= v < IZR k + 1 ->
  F64.to_int f = k.
Proof.
  intros (M & E & Hf & HM & HE & ->) Hk [V1 V2]. unfold F64.to_int. rewrite Hf.
  assert (Hmag : match E with
                 | Zneg p => Z.shiftr (Zpos M) (Zpos p)
                 | _ => Z.shiftl (Zpos M) E
                 end = k).
  { destruct E as [|p|p].
    - unfold F2R in *. rewrite bpow_0, Rmult_1_r in *. rewrite Z.shiftl_0_r.
      apply Z.le_antisymm.
      + apply IZR_le_half. lra.
      + apply le_IZR. lra.
    - rewrite Z.shiftl_mul_pow2 by lia.
      unfold F2R in *. rewrite bpow_IZR, <- mult_IZR in * by lia.
      apply Z.le_antisymm.
      + apply IZR_le_half. lra.
      + apply le_IZR. lra.
    - rewrite Z.shiftr_div_pow2 by lia.
      change (Zneg p) with (- Zpos p)%Z in *.
      rewrite F2R_neg_exp in * by lia.
      assert (Hp : 0 < IZR (2 ^ Zpos p)) by (apply IZR_lt, Z.pow_pos_nonneg; lia).
      assert (H1 : IZR (k * 2 ^ Zpos p) <= IZR (Zpos M)).
      { rewrite mult_IZR. apply (Rmult_le_reg_r (/ IZR (2 ^ Zpos p)));
          [by apply Rinv_0_lt_compat|].
        rewrite Rmult_assoc, Rinv_r by lra. unfold Rdiv in V1. lra. }
      assert (H2 : IZR (Zpos M) < IZR ((k + 1) * 2 ^ Zpos p)).
      { rewrite mult_IZR, plus_IZR.
        apply (Rmult_lt_reg_r (/ IZR (2 ^ Zpos p)));
          [by apply Rinv_0_lt_compat|].
        rewrite Rmult_assoc, Rinv_r by lra. unfold Rdiv in V2. lra. }
      apply le_IZR in H1. apply lt_IZR in H2.
      symmetry. apply (Z.div_unique _ _ k (Zpos M - k * 2 ^ Zpos p)); lia. }
  rewrite Hmag. unfold F64.min_int64, F64.max_int64.
  destruct (Z.leb_spec (- 2 ^ 63) k); [|lia].
  destruct (Z.leb_spec k (2 ^ 63 - 1)); [reflexivity|lia].
Qed.

(** [d.Hours()] for a whole number of seconds: zero for no time at all,
    and otherwise between the whole hours and the next hour, at least
    [2^-12] below it. *)
Lemma hours_bounds d :
  (0 <= d < 2 ^ 63)%Z -> (d mod 10 ^ 9 = 0)%Z ->
  (d = 0%Z /\ Prim2SF (Hours d) = S754_zero false)
  \/ exists vH,
       represents (Hours d) vH
       /\ F2R 1 (-12) <= vH
       /\ IZR (d / Hour) <= vH <= F2R ((d / Hour + 1) * 2 ^ 12 - 1) (-12).
Proof.
  intros Hd Hsec. unfold Hours. cbv zeta.
  rewrite Z.quot_div_nonneg, Z.rem_mod_nonneg by (unfold Hour; lia).
  set (hour := (d / Hour)%Z). set (nsec := (d mod Hour)%Z).
  assert (Hdm : d = (Hour * hour + nsec)%Z)
    by (apply Z.div_mod; unfold Hour; lia).
  assert (Hn : (0 <= nsec < Hour)%Z)
    by (apply Z.mod_pos_bound; unfold Hour; lia).
  assert (Hh : (0 <= hour < 2 ^ 22)%Z).
  { split; [apply Z.div_pos; unfold Hour; lia|].
    apply Z.div_lt_upper_bound; unfold Hour; lia. }
  assert (Hn' : (nsec = 0 \/ 10 ^ 9 <= nsec <= 3599 * 10 ^ 9)%Z).
  { apply Z.mod_divide in Hsec as [r Hr]; [|lia]. unfold Hour in *. lia. }
  pose proof (represents_literal 3600000000000 3600000000000 eq_refl ltac:(lia))
    as R36.
  assert (H1 : F2R (1 * 2 ^ 12) (-12) = 1)
    by exact (F2R_shifted_int 1 12 ltac:(lia)).
  (* the fractional part *)
  assert (Hfrac : (nsec = 0%Z
                   /\ Prim2SF (F64.of_int nsec / 3600000000000) = S754_zero false)
                  \/ exists vf,
                       represents (F64.of_int nsec / 3600000000000)%float vf
                       /\ F2R 1 (-12) <= vf <= F2R (2 ^ 12 - 1) (-12)).
  { destruct Hn' as [->|Hn']; [left|right].
    - split; [reflexivity|]. rewrite div_spec, of_int_zero.
      destruct (represents_prim _ _ R36) as (M & E & ->). reflexivity.
    - pose proof (of_int_represents nsec ltac:(lia)) as Rn.
      assert (B1 : F2R 1 (-12) <= IZR nsec / IZR 3600000000000).
      { apply (ratio_ge_F2R _ _ _ 12); lia. }
      assert (B2 : IZR nsec / IZR 3600000000000 <= F2R (2 ^ 12 - 1) (-12)).
      { apply (ratio_le_F2R _ _ _ 12); lia. }
      destruct (div_represents _ _ _ _ Rn R36) as (vf & Rf & Hf).
      { split.
        - assert (bpow (-1021) <= bpow (-12)) by (apply bpow_le; lia).
          unfold F2R in B1. lra.
        - assert (bpow 0 < bpow 1023) by (apply bpow_lt; lia).
          rewrite bpow_0 in *.
          assert (F2R (2 ^ 12 - 1) (-12) < F2R (1 * 2 ^ 12) (-12))
            by (apply F2R_lt; lia).
          lra. }
      exists vf. split; [exact Rf|]. split.
      + by apply (rounded_ge_int _ _ 1 (-12) Hf ltac:(lia)).
      + by apply (rounded_le_int _ _ (2 ^ 12 - 1) (-12) Hf ltac:(lia)). }
  destruct (Z.eq_dec hour 0) as [Hh0|Hh0].
  - (* less than an hour *)
    rewrite Hh0 in *.
    destruct Hfrac as [[Hn0 Hz]|(vf & Rf & F1 & F2)].
    + left. split; [lia|]. by rewrite add_spec, of_int_zero, Hz.
    + right. exists vf.
      assert (Hadd : Prim2SF (F64.of_int 0 + F64.of_int nsec / 3600000000000)
                     = Prim2SF (F64.of_int nsec / 3600000000000)).
      { rewrite add_spec, of_int_zero.
        destruct (represents_prim _ _ Rf) as (M & E & ->). reflexivity. }
      split; [unfold represents; by rewrite Hadd|]. split; [exact F1|].
      pose proof (represents_pos _ _ Rf). cbn [Z.add Z.mul]. split; [lra|].
      eapply Rle_trans; [exact F2|]. apply F2R_le. lia.
  - right. pose proof (of_int_represents hour ltac:(lia)) as Rh.
    assert (Hhour1 : 1 <= IZR hour) by (apply IZR_le; lia).
    assert (H12 : F2R 1 (-12) <= 1).
    { rewrite <- H1. apply F2R_le. lia. }
    destruct Hfrac as [[Hn0 Hz]|(vf & Rf & F1 & F2)].
    + exists (IZR hour).
      assert (Hadd : Prim2SF (F64.of_int hour + F64.of_int nsec / 3600000000000)
                     = Prim2SF (F64.of_int hour)).
      { rewrite add_spec, Hz.
        destruct (represents_prim _ _ Rh) as (M & E & ->). reflexivity. }
      split; [unfold represents; by rewrite Hadd|]. split; [lra|].
      split; [lra|].
      rewrite <- (F2R_shifted_int hour 12) by lia. apply F2R_le. lia.
    + assert (Hsum : IZR hour + vf
                     <= F2R ((hour + 1) * 2 ^ 12 - 1) (-12)).
      { rewrite <- (F2R_shifted_int hour 12) by lia.
        eapply Rle_trans; [apply Rplus_le_compat_l, F2|].
        unfold F2R. rewrite <- Rmult_plus_distr_r, <- plus_IZR.
        apply Rmult_le_compat_r; [apply Rlt_le, bpow_gt_0|].
        apply IZR_le. lia. }
      assert (Hup : F2R ((hour + 1) * 2 ^ 12 - 1) (-12) < bpow 23).
      { replace (bpow 23) with (F2R (2 ^ 23 * 2 ^ 12) (-12)).
        - apply F2R_lt. lia.
        - rewrite F2R_shifted_int by lia. by rewrite bpow_IZR. }
      destruct (add_represents _ _ _ _ Rh Rf) as (vH & RH & HH).
      { assert (bpow 23 < bpow 1023) by (apply bpow_lt; lia). lra. }
      exists vH. split; [exact RH|].
      pose proof (represents_pos _ _ Rf) as Hvf.
      assert (Hge : IZR hour <= vH).
      { rewrite <- (F2R_shifted_int hour 12) by lia.
        apply (rounded_ge_int _ _ (hour * 2 ^ 12) (-12) HH ltac:(lia)).
        rewrite F2R_shifted_int by lia. lra. }
      split; [lra|]. split; [exact Hge|].
      by apply (rounded_le_int _ _ ((hour + 1) * 2 ^ 12 - 1) (-12) HH ltac:(lia)).
Qed.

Lemma days_between_seconds later earlier :
  let d := (unix_ns later - unix_ns earlier)%Z in
  (0 <= d < 2 ^ 63)%Z -> (d mod 10 ^ 9 = 0)%Z ->
  daysBetween later earlier = (d / (86400 * 10 ^ 9))%Z.
Proof.
  intros d Hd Hsec. unfold daysBetween.
  assert (HSub : Sub later earlier = d).
  { unfold Sub. fold d. cbv zeta. unfold F64.min_int64, F64.max_int64.
    destruct (Z.ltb_spec d (- 2 ^ 63)); [lia|].
    destruct (Z.ltb_spec (2 ^ 63 - 1) d); [lia|reflexivity]. }
  rewrite HSub.
  set (hour := (d / Hour)%Z).
  assert (Hk : (d / (86400 * 10 ^ 9) = hour / 24)%Z).
  { unfold hour. rewrite Z.div_div by (unfold Hour; lia).
    f_equal. }
  rewrite Hk.
  assert (Hh : (0 <= hour < 2 ^ 22)%Z).
  { split; [apply Z.div_pos; unfold Hour; lia|].
    apply Z.div_lt_upper_bound; unfold Hour; lia. }
  pose proof (represents_literal 24 24 eq_refl ltac:(lia)) as R24.
  destruct (hours_bounds d Hd Hsec) as [[Hd0 Hz]|(vH & RH & HH0 & HH1 & HH2)].
  - (* no time at all *)
    assert (Hq : Prim2SF (Hours d / 24) = S754_zero false).
    { rewrite div_spec, Hz. destruct (represents_prim _ _ R24) as (M & E & ->).
      reflexivity. }
    unfold F64.to_int. rewrite Hq. unfold hour. rewrite Hd0. reflexivity.
  - fold hour in HH1, HH2.
    set (k := (hour / 24)%Z).
    assert (Hkr : (24 * k <= hour < 24 * k + 24)%Z).
    { unfold k. pose proof (Z.div_mod hour 24 ltac:(lia)).
      pose proof (Z.mod_pos_bound hour 24 ltac:(lia)). lia. }
    assert (Hk0 : (0 <= k < 2 ^ 22)%Z) by lia.
    assert (H12 : F2R 1 (-12) = / IZR (2 ^ 12)).
    { rewrite F2R_neg. unfold Rdiv. lra. }
    assert (Hup : vH / IZR 24 <= F2R ((k + 1) * 2 ^ 17 - 1) (-17)).
    { assert (vH <= F2R ((24 * k + 24) * 2 ^ 12 - 1) (-12)).
      { eapply Rle_trans; [exact HH2|]. apply F2R_le. lia. }
      rewrite F2R_neg in H. rewrite F2R_neg.
      rewrite minus_IZR, !mult_IZR, !plus_IZR, !mult_IZR in *.
      change (IZR (2 ^ 17)) with 131072. change (IZR (2 ^ 12)) with 4096 in *.
      lra. }
    assert (Hlo : IZR k <= vH / IZR 24).
    { assert (IZR (24 * k) <= IZR hour) by (apply IZR_le; lia).
      rewrite mult_IZR in *. lra. }
    assert (Hlo' : bpow (-17) <= vH / IZR 24).
    { assert (bpow (-17) = F2R 1 (-17)) by (unfold F2R; lra).
      assert (F2R 1 (-17) = / 131072).
      { rewrite F2R_neg. change (IZR (2 ^ 17)) with 131072. lra. }
      change (IZR (2 ^ 12)) with 4096 in H12. lra. }
    destruct (div_represents _ _ _ _ RH R24) as (vD & RD & HD).
    { split.
      - assert (bpow (-1021) <= bpow (-17)) by (apply bpow_le; lia). lra.
      - assert (F2R ((k + 1) * 2 ^ 17 - 1) (-17) < F2R (2 ^ 23 * 2 ^ 17) (-17))
          by (apply F2R_lt; lia).
        rewrite F2R_shifted_int in H by lia. rewrite <- bpow_IZR in H by lia.
        assert (bpow 23 < bpow 1023) by (apply bpow_lt; lia). lra. }
    apply (to_int_floor _ vD k RD); [lia|]. split.
    + destruct (Z.eq_dec k 0) as [->|Hk0'].
      * pose proof (represents_pos _ _ RD). lra.
      * rewrite <- (F2R_shifted_int k 0) by lia.
        apply (rounded_ge_int _ _ (k * 2 ^ 0) (-0) HD ltac:(lia)).
        rewrite (F2R_shifted_int k 0) by lia. exact Hlo.
    + eapply Rle_lt_trans;
        [apply (rounded_le_int _ _ ((k + 1) * 2 ^ 17 - 1) (-17) HD ltac:(lia) Hup)|].
      rewrite <- plus_IZR, <- (F2R_shifted_int (k + 1) 17) by lia.
      apply F2R_lt. lia.
Qed.

(** Between two instants a whole number of seconds apart, the later one
    not before the earlier one, the interval is the number of complete
    days of 24 hours: the three roundings of [Hours() / 24] never reach
    the next integer. *)
Theorem days_between_whole_seconds later earlier :
  let d := (unix_ns later - unix_ns earlier)%Z in
  (0 <= d < 2 ^ 63)%Z -> (d mod 10 ^ 9 = 0)%Z ->
  daysBetween later earlier = (d / (86400 * 10 ^ 9))%Z.
Proof.
  intros d Hd Hsec. exact (days_between_seconds later earlier Hd Hsec).
Qed.

Lemma days_between_whole_seconds_witness :
  let later := mkTime (2592000 * 10 ^ 9 - 10 ^ 9) 0 in
  let earlier := mkTime 0 0 in
  let d := (unix_ns later - unix_ns earlier)%Z in
  (0 <= d < 2 ^ 63)%Z /\ (d mod 10 ^ 9 = 0)%Z
  /\ daysBetween later earlier = 29%Z.
Proof.
  cbv zeta.
  set (later := mkTime (2592000 * 10 ^ 9 - 10 ^ 9) 0).
  set (earlier := mkTime 0 0).
  assert (H1 : (0 <= unix_ns later - unix_ns earlier < 2 ^ 63)%Z)
    by (vm_compute; split; [discriminate|reflexivity]).
  assert (H2 : ((unix_ns later - unix_ns earlier) mod 10 ^ 9 = 0)%Z)
    by (vm_compute; reflexivity).
  split; [exact H1|]. split; [exact H2|].
  exact (days_between_whole_seconds later earlier H1 H2).
Defined.

End IntervalFacts.

(** ** Evenly spaced payments *)

Module RegularityFacts.
Import Rounding FrequencyFacts Subscriptions.
#[local] Open Scope R_scope.

(** A positive normal number has one representation. *)
Lemma normal_float_unique a b v : normal_float a v -> normal_float b v -> a = b.
Proof.
  intros (Ma & Ea & -> & HMa & _ & Ha) (Mb & Eb & -> & HMb & _ & Hb).
  rewrite Ha in Hb.
  destruct (Z.lt_trichotomy Ea Eb) as [Hlt|[->|Hgt]].
  - pose proof (F2R_lt_exp _ _ _ _ HMa HMb Hlt). lra.
  - destruct (Z.lt_trichotomy (Zpos Ma) (Zpos Mb)) as [Hlt|[Heq|Hgt]].
    + pose proof (F2R_lt_mant _ _ Eb Hlt). lra.
    + by injection Heq as ->.
    + pose proof (F2R_lt_mant _ _ Eb Hgt). lra.
  - pose proof (F2R_lt_exp _ _ _ _ HMb HMa Hgt). lra.
Qed.

Lemma sum_repeat k n :
  (0 <= k)%Z -> (Z.of_nat n * k < 2 ^ 63)%Z ->
  sum_intervals (repeat k n) = (Z.of_nat n * k)%Z.
Proof.
  intros Hk Hn. unfold sum_intervals.
  assert (G : forall m a,
             (0 <= a)%Z -> (a + Z.of_nat m * k < 2 ^ 63)%Z ->
             fold_left (fun sum interval => F64.wrap64 (sum + interval))
               (repeat k m) a = (a + Z.of_nat m * k)%Z).
  { induction m as [|m IH]; intros a Ha Hb; cbn [repeat fold_left]; [lia|].
    rewrite MockFacts.wrap64_small by lia.
    rewrite IH by lia. lia. }
  rewrite G by lia. lia.
Qed.

(** The mean of equal intervals is the interval itself. *)
Lemma mean_of_equal k n :
  (0 < k)%Z -> (0 < n)%Z -> (n * k < 2 ^ 53)%Z ->
  Prim2SF (F64.of_int (n * k) / F64.of_int n) = Prim2SF (F64.of_int k).
Proof.
  intros Hk Hn Hnk.
  pose proof (of_int_represents (n * k) ltac:(nia)) as Rs.
  pose proof (of_int_represents n ltac:(nia)) as Rn.
  pose proof (of_int_represents k ltac:(nia)) as Rk.
  assert (Hq : IZR (n * k) / IZR n = IZR k).
  { rewrite mult_IZR. assert (0 < IZR n) by (apply IZR_lt; lia). field. lra. }
  destruct (div_represents _ _ _ _ Rs Rn) as (vq & Rq & Hr).
  { rewrite Hq. split.
    - assert (bpow (-1021) <= bpow 0) by (apply bpow_le; lia).
      rewrite bpow_0 in *. assert (1 <= IZR k) by (apply IZR_le; lia). lra.
    - assert (IZR k < IZR (2 ^ 53)) by (apply IZR_lt; nia).
      rewrite two_53 in *.
      assert (bpow 53 <= bpow 1023) by (apply bpow_le; lia). lra. }
  rewrite Hq in Hr.
  destruct (F2R_int k ltac:(nia)) as (T & E & HT & HTE).
  rewrite (rounded_exact _ _ T E Hr HT HTE) in Rq.
  exact (normal_float_unique _ _ _ Rq Rk).
Qed.

Lemma count_all {A} (P : A -> bool) (l : list A) :
  Forall (fun x => P x = true) l ->
  forall w : Z,
    fold_left (fun w x => if P x then (w + 1)%Z else w) l w
    = (w + Z.of_nat (length l))%Z.
Proof.
  induction 1 as [|x l Hx Hl IH]; intros w; cbn [fold_left length]; [lia|].
  rewrite Hx, IH. lia.
Qed.

Lemma equal_intervals k n :
  (0 <= k)%Z -> (0 < n)%nat -> (Z.of_nat n * k < 2 ^ 53)%Z ->
  (Z.of_nat n < 2 ^ 53)%Z ->
  isRegularPattern (repeat k n) = true.
Proof.
  intros Hk Hn Hnk Hn53.
  destruct n as [|m]; [lia|]. set (n := S m) in *.
  unfold isRegularPattern. change (repeat k n) with (k :: repeat k m) at 1.
  cbv beta iota zeta. change (k :: repeat k m) with (repeat k n).
  unfold average.
  rewrite sum_repeat by lia. rewrite repeat_length.
  set (avg := (F64.of_int (Z.of_nat n * k) / F64.of_int (Z.of_nat n))%float).
  pose proof (of_int_represents (Z.of_nat n) ltac:(lia)) as Rn.
  (* every interval is within the tolerance *)
  assert (Hin : F64.le (abs (F64.of_int k - avg)) (avg * 0.2) = true).
  { unfold F64.le. rewrite leb_spec, abs_spec, sub_spec, mul_spec.
    assert (R02 : represents 0.2 (F2R 7205759403792794 (-55)))
      by (by apply (represents_const _ 7205759403792794 (-55))).
    destruct (Z.eq_dec k 0) as [->|Hk0].
    - unfold avg. rewrite Z.mul_0_r, div_spec, of_int_zero.
      destruct (represents_prim _ _ Rn) as (Mn & En & ->).
      destruct (represents_prim _ _ R02) as (M02 & E02 & ->).
      reflexivity.
    - pose proof (mean_of_equal k (Z.of_nat n) ltac:(lia) ltac:(lia) Hnk) as Havg.
      fold avg in Havg.
      pose proof (of_int_represents k ltac:(nia)) as Rk.
      assert (Ravg : represents avg (IZR k))
        by (unfold represents; by rewrite Havg).
      rewrite Havg.
      destruct (represents_prim _ _ Rk) as (Mk & Ek & HPk). rewrite HPk.
      assert (Hsub : SF64sub (S754_finite false Mk Ek) (S754_finite false Mk Ek)
                     = S754_zero false).
      { unfold SF64sub. cbn [SFsub cond_Zopp]. rewrite Z.sub_diag. reflexivity. }
      rewrite Hsub. cbn [SFabs].
      destruct (mul_represents _ _ _ _ Ravg R02) as (vt & Rt & _).
      { assert (F2R (1 * 2 ^ 3) (-3) = 1) as H1
          by exact (F2R_shifted_int 1 3 ltac:(lia)).
        assert (F2R (2 ^ 52) (-55) <= F2R 7205759403792794 (-55)) as H2
          by (apply F2R_le; lia).
        assert (F2R 7205759403792794 (-55) <= F2R (2 ^ 53) (-55)) as H3
          by (apply F2R_le; lia).
        assert (F2R (2 ^ 52) (-55) = bpow (-3)) as H4.
        { unfold F2R. rewrite two_52, <- bpow_plus. reflexivity. }
        assert (F2R (2 ^ 53) (-55) = bpow (-2)) as H5.
        { unfold F2R. rewrite two_53, <- bpow_plus. reflexivity. }
        assert (1 <= IZR k) by (apply IZR_le; lia).
        assert (IZR k <= bpow 53) by (rewrite <- two_53; apply IZR_le; nia).
        pose proof (bpow_gt_0 (-3)). pose proof (bpow_gt_0 53).
        assert (bpow (-2) <= 1).
        { rewrite <- bpow_0. apply bpow_le. lia. }
        split.
        - assert (bpow (-1021) <= bpow (-3)) by (apply bpow_le; lia). nra.
        - assert (bpow 53 < bpow 1023) by (apply bpow_lt; lia). nra. }
      unfold represents in Rt. rewrite mul_spec, Havg, HPk in Rt.
      destruct Rt as (Mt & Et & HPt & _). rewrite HPt. reflexivity. }
  rewrite (count_all (fun interval => F64.le (abs (F64.of_int interval - avg))
                                        (avg * 0.2))).
  2:{ apply Forall_forall. intros x Hx. apply list_elem_of_In, repeat_spec in Hx.
      by subst x. }
  rewrite repeat_length, Z.add_0_l.
  unfold F64.ge. rewrite leb_spec.
  pose proof (mean_of_equal 1 (Z.of_nat n) ltac:(lia) ltac:(lia) ltac:(lia)) as H1.
  rewrite Z.mul_1_r in H1. rewrite H1. reflexivity.
Qed.

(** Payments at equal intervals form a regular pattern ([n] intervals of
    [k] days, with [n] and [n * k] below [2 ^ 53]): every interval is at
    distance zero from the mean.  In particular this holds for every
    group of just two payments, whose single interval is its own mean. *)
Theorem equal_intervals_regular k n :
  (0 <= k)%Z -> (0 < n)%nat -> (Z.of_nat n * k < 2 ^ 53)%Z ->
  (Z.of_nat n < 2 ^ 53)%Z ->
  isRegularPattern (repeat k n) = true.
Proof.
  intros Hk Hn Hnk Hn53. exact (equal_intervals k n Hk Hn Hnk Hn53).
Qed.

Lemma equal_intervals_regular_witness :
  (0 <= 30)%Z /\ (0 < 1)%nat /\ (Z.of_nat 1 * 30 < 2 ^ 53)%Z
  /\ (Z.of_nat 1 < 2 ^ 53)%Z
  /\ isRegularPattern [30%Z] = true.
Proof.
  assert (H1 : (0 <= 30)%Z) by lia.
  assert (H2 : (0 < 1)%nat) by lia.
  assert (H3 : (Z.of_nat 1 * 30 < 2 ^ 53)%Z) by (vm_compute; reflexivity).
  assert (H4 : (Z.of_nat 1 < 2 ^ 53)%Z) by (vm_compute; reflexivity).
  split; [exact H1|]. split; [exact H2|]. split; [exact H3|]. split; [exact H4|].
  exact (equal_intervals_regular 30 1 H1 H2 H3 H4).
Defined.

End RegularityFacts.

(** ** Evenly spaced payments are detected *)

Module DetectionFacts.
Import Rounding FrequencyFacts IntervalFacts RegularityFacts.
Import Json GoTime Subscriptions.
#[local] Open Scope Z_scope.

Definition day_ns : Z := 86400 * 10 ^ 9.

(** The instants [base], [base + k days], [base + 2 k days], ... *)
Definition schedule (base k : Z) (n : nat) : list Z :=
  map (fun i => base + Z.of_nat i * (k * day_ns)) (seq 0 n).

(** The dates of a group, in whatever order and time zone, are [k] days
    apart. *)
Definition evenly_spaced (dates : list Time) (base k : Z) : Prop :=
  map unix_ns dates ≡ₚ schedule base k (length dates).

(** The name [detectFrequency] gives to a spacing of [k] days. *)
Definition frequency_of_days (k : Z) : string :=
  if (25 <=? k) && (k <=? 35) then "monthly"
  else if (80 <=? k) && (k <=? 100) then "quarterly"
  else if (170 <=? k) && (k <=? 190) then "semi-annual"
  else if (350 <=? k) && (k <=? 380) then "annual"
  else if (7 <=? k) && (k <=? 14) then "biweekly"
  else if (1 <=? k) && (k <=? 7) then "weekly"
  else "irregular".

Lemma schedule_from base k s n :
  map (fun i => base + Z.of_nat i * (k * day_ns)) (seq s n)
  = match n with
    | O => []
    | S m => (base + Z.of_nat s * (k * day_ns))
             :: map (fun i => base + Z.of_nat i * (k * day_ns)) (seq (S s) m)
    end.
Proof. by destruct n. Qed.

Lemma schedule_sorted base k n :
  0 <= k -> StronglySorted Z.le (schedule base k n).
Proof.
  intros Hk. unfold schedule. generalize 0%nat as s.
  induction n as [|n IH]; intros s; cbn [seq map]; constructor; [apply IH|].
  apply Forall_forall. intros x Hx.
  apply list_elem_of_fmap in Hx as (i & -> & Hi).
  apply list_elem_of_In, in_seq in Hi. unfold day_ns. nia.
Qed.

(** Sorting brings evenly spaced dates onto the schedule. *)
Lemma sorted_on_schedule dates base k :
  0 <= k -> evenly_spaced dates base k ->
  map unix_ns (sort_dates dates) = schedule base k (length dates).
Proof.
  intros Hk Hev. apply (StronglySorted_unique Z.le).
  - apply (StronglySorted_fmap unix_ns (fun a b => unix_ns a <= unix_ns b) Z.le);
      [auto|].
    apply (OrderFacts.insertion_sort_ascending unix_ns).
  - by apply schedule_sorted.
  - etransitivity; [|exact Hev]. apply Permutation_map.
    apply SortFacts.insertion_sort_Permutation.
Qed.

(** Consecutive dates of a schedule are [k] days apart. *)
Lemma intervals_on_schedule base k :
  0 <= k -> k * day_ns < 2 ^ 63 ->
  forall l s,
    map unix_ns l
    = map (fun i => base + Z.of_nat i * (k * day_ns)) (seq s (length l)) ->
    intervals_of l = repeat k (length l - 1).
Proof.
  intros Hk Hk63. induction l as [|d0 [|d1 l] IH]; intros s Hl; [done|done|].
  change (intervals_of (d0 :: d1 :: l))
    with (daysBetween d1 d0 :: intervals_of (d1 :: l)).
  cbn [length map seq] in Hl. injection Hl as H0 H1 Hrest.
  rewrite (IH (S s)) by (cbn [length map seq]; by rewrite H1, Hrest).
  cbn [length]. replace (S (S (length l)) - 1)%nat with (S (S (length l) - 1)) by lia.
  cbn [repeat]. f_equal.
  assert (Hd : unix_ns d1 - unix_ns d0 = k * day_ns) by lia.
  rewrite days_between_seconds; rewrite Hd; unfold day_ns in *.
  - rewrite Z.div_mul by lia. reflexivity.
  - lia.
  - rewrite Z.mul_assoc. apply Z.mod_mul. lia.
Qed.

Lemma frequency_of_repeat k m :
  0 <= k < 2 ^ 17 -> (0 < m)%nat -> Z.of_nat m <= 2 ^ 30 ->
  detectFrequency (repeat k m) = frequency_of_days k.
Proof.
  intros Hk Hm Hm30.
  assert (Hne : repeat k m <> []) by (destruct m; [lia|discriminate]).
  pose proof (frequency_exact (repeat k m) Hne) as H. cbv zeta in H.
  rewrite sum_repeat, repeat_length in H by nia.
  rewrite H by nia. unfold frequency_of_days.
  assert (Hcmp : forall t, (t * Z.of_nat m <=? Z.of_nat m * k) = (t <=? k)).
  { intros t. apply eq_true_iff_eq. rewrite !Z.leb_le. nia. }
  assert (Hcmp' : forall t, (Z.of_nat m * k <=? t * Z.of_nat m) = (k <=? t)).
  { intros t. apply eq_true_iff_eq. rewrite !Z.leb_le. nia. }
  by rewrite !Hcmp, !Hcmp'.
Qed.

Section Detection.
Context (cal : Calendar) (cutoffDate : Time) (minAmount maxAmount : float).

(** When the payments that the first loop has put into one group (same
    merchant, same printed amount) lie [k] days apart, the group is
    reported: as a subscription of that merchant, with the number of
    payments, the frequency that goes with [k] days, and the confidence
    that goes with the number of payments. *)
Theorem evenly_spaced_payments_detected transactions key dates base k :
  paymentGroups cal transactions cutoffDate minAmount maxAmount !! key = Some dates ->
  evenly_spaced dates base k ->
  (2 <= length dates)%nat -> Z.of_nat (length dates) <= 2 ^ 30 ->
  0 <= k -> k * day_ns < 2 ^ 63 ->
  exists sub,
    sub ∈ analyzeForSubscriptions cal transactions cutoffDate minAmount maxAmount
    /\ merchant sub = fst key
    /\ occurrences sub = Z.of_nat (length dates)
    /\ frequency sub = frequency_of_days k
    /\ confidence sub
       = if 4 <=? Z.of_nat (length dates) then "high"
         else if 3 <=? Z.of_nat (length dates) then "medium"
         else "low".
Proof.
  intros Hgroup Hev Hlen Hlen30 Hk Hk63.
  assert (Hk17 : k < 2 ^ 17) by (unfold day_ns in Hk63; lia).
  set (sorted := sort_dates dates).
  assert (Hsl : length sorted = length dates)
    by apply SortFacts.insertion_sort_length.
  assert (Hint : intervals_of sorted = repeat k (length dates - 1)).
  { rewrite <- Hsl. apply (intervals_on_schedule base k Hk Hk63 sorted 0%nat).
    rewrite Hsl. by apply sorted_on_schedule. }
  assert (Hreg : isRegularPattern (intervals_of sorted) = true).
  { rewrite Hint. apply equal_intervals; [lia|lia|nia|lia]. }
  destruct (subscription_of cal key dates) as [sub|] eqn:Hsub.
  - exists sub. split; [by eapply DetectorFacts.analyze_complete|].
    apply DetectorFacts.subscription_of_Some in Hsub
      as (_ & _ & Hm & _ & Hf & Ho & Hc).
    fold sorted in Hf, Hc.
    split; [exact Hm|]. split; [exact Ho|]. split.
    + rewrite Hf, Hint. apply frequency_of_repeat; lia.
    + rewrite Hc. unfold calculateConfidence. rewrite Hreg.
      by rewrite andb_true_r.
  - exfalso. unfold subscription_of in Hsub.
    destruct (Z.ltb_spec (Z.of_nat (length dates)) 2) as [|_]; [lia|].
    fold sorted in Hsub. by rewrite Hreg in Hsub.
Qed.

End Detection.

Lemma evenly_spaced_payments_detected_witness :
  let key : paymentKey := ("Netflix Subscription", "15.99") in
  let dates := GroupFacts.dates_for UTC.calendar (mkTime 0 0) 1 999.99 key
                 ProvenanceFacts.demo_transactions in
  exists sub,
    sub ∈ analyzeForSubscriptions UTC.calendar ProvenanceFacts.demo_transactions
            (mkTime 0 0) 1 999.99
    /\ merchant sub = "Netflix Subscription"
    /\ occurrences sub = 4
    /\ frequency sub = "monthly"
    /\ confidence sub = "high".
Proof.
  cbv zeta.
  set (key := ("Netflix Subscription", "15.99") : paymentKey).
  set (dates := GroupFacts.dates_for UTC.calendar (mkTime 0 0) 1 999.99 key
                  ProvenanceFacts.demo_transactions).
  assert (Hg : paymentGroups UTC.calendar ProvenanceFacts.demo_transactions
                 (mkTime 0 0) 1 999.99 !! key = Some dates).
  { rewrite GroupFacts.paymentGroups_lookup. fold dates. vm_compute. reflexivity. }
  assert (Hev : evenly_spaced dates 1704067200000000000 30).
  { unfold evenly_spaced. assert (E : map unix_ns dates
                = schedule 1704067200000000000 30 (length dates))
      by (vm_compute; reflexivity).
    by rewrite E. }
  assert (H2 : (2 <= length dates)%nat) by (vm_compute; lia).
  assert (H30 : Z.of_nat (length dates) <= 2 ^ 30) by (vm_compute; discriminate).
  assert (Hk : 0 <= 30) by lia.
  assert (Hk63 : 30 * day_ns < 2 ^ 63) by (vm_compute; reflexivity).
  exact (evenly_spaced_payments_detected UTC.calendar (mkTime 0 0) 1 999.99
           ProvenanceFacts.demo_transactions key dates 1704067200000000000 30
           Hg Hev H2 H30 Hk Hk63).
Defined.

End DetectionFacts.

(** ** The order of binary64 numbers *)

Module FloatOrder.
#[local] Open Scope Z_scope.

(** An integer that orders the numbers as [SFcompare] does; the two zeros
    share a rank. *)
Definition rank (sf : spec_float) : Z :=
  match sf with
  | S754_zero _ => 0
  | S754_infinity s => if s then - 2 ^ 70 else 2 ^ 70
  | S754_nan => 0
  | S754_finite s m e =>
      let r := (e + 1075) * 2 ^ 53 + Zpos m in
      if s then - r else r
  end.

Definition is_number (sf : spec_float) : Prop := sf <> S754_nan.

Lemma valid_finite s m e :
  valid_binary (S754_finite s m e) = true ->
  -1074 <= e <= 971 /\ Zpos m < 2 ^ 53.
Proof.
  cbn [valid_binary]. unfold bounded, canonical_mantissa. intros H.
  apply andb_prop in H as [H1 H2]. apply Z.eqb_eq in H1. apply Z.leb_le in H2.
  unfold SpecFloat.fexp, emin, prec, emax in *.
  split; [lia|].
  destruct (Rounding.digits2_bounds m) as [_ D].
  assert (Zpos (digits2_pos m) <= 53) by lia.
  assert (2 ^ Zpos (digits2_pos m) <= 2 ^ 53) by (apply Z.pow_le_mono_r; lia).
  lia.
Qed.

Lemma rank_finite s m e :
  valid_binary (S754_finite s m e) = true ->
  let r := (e + 1075) * 2 ^ 53 + Zpos m in
  0 < r < 2 ^ 70.
Proof. intros H. apply valid_finite in H as [He Hm]. cbv zeta. lia. Qed.

Lemma SFcompare_rank a b :
  valid_binary a = true -> valid_binary b = true ->
  is_number a -> is_number b ->
  SFcompare a b = Some (rank a ?= rank b).
Proof.
  intros Ha Hb Na Nb.
  assert (Hcmp : forall x y c,
             match c with Lt => x < y | Eq => x = y | Gt => y < x end ->
             Some c = Some (x ?= y)).
  { intros x y c H. f_equal. symmetry.
    destruct c; [by apply Z.compare_eq_iff|by apply Z.compare_lt_iff|].
    by apply Z.compare_gt_iff. }
  destruct a as [sa|sa| |sa ma ea]; [| |done|];
    destruct b as [sb|sb| |sb mb eb]; try done; cbn [SFcompare rank].
  - destruct sb; apply Hcmp; lia.
  - pose proof (rank_finite _ _ _ Hb) as Hr. cbv zeta in Hr.
    destruct sb; apply Hcmp; lia.
  - destruct sa; apply Hcmp; lia.
  - destruct sa, sb; apply Hcmp; lia.
  - pose proof (rank_finite _ _ _ Hb) as Hr. cbv zeta in Hr.
    destruct sa, sb; apply Hcmp; lia.
  - pose proof (rank_finite _ _ _ Ha) as Hr. cbv zeta in Hr.
    destruct sa; apply Hcmp; lia.
  - pose proof (rank_finite _ _ _ Ha) as Hr. cbv zeta in Hr.
    destruct sa, sb; apply Hcmp; lia.
  - apply valid_finite in Ha as [Hea Hma]. apply valid_finite in Hb as [Heb Hmb].
    rewrite Pos.compare_cont_spec. cbn [Pos.switch_Eq].
    change (Pos.compare ma mb) with (Zpos ma ?= Zpos mb).
    destruct sa, sb.
    + destruct (Z.compare_spec ea eb) as [->|Hlt|Hgt].
      * destruct (Z.compare_spec (Zpos ma) (Zpos mb)) as [E|L|G];
          apply Hcmp; cbn [CompOpp Pos.switch_Eq]; lia.
      * apply Hcmp. nia.
      * apply Hcmp. nia.
    + apply Hcmp. lia.
    + apply Hcmp. lia.
    + destruct (Z.compare_spec ea eb) as [->|Hlt|Hgt].
      * destruct (Z.compare_spec (Zpos ma) (Zpos mb)) as [E|L|G];
          apply Hcmp; cbn [Pos.switch_Eq]; lia.
      * apply Hcmp. nia.
      * apply Hcmp. nia.
Qed.

(** The rank of a float that is a number. *)
Definition float_rank (f : float) : Z := rank (Prim2SF f).

Lemma is_nan_number f : is_nan f = false <-> is_number (Prim2SF f).
Proof.
  unfold is_nan, is_number. rewrite negb_false_iff, FloatAxioms.eqb_spec.
  unfold SFeqb.
  pose proof (Prim2SF_valid f) as Hv.
  destruct (Prim2SF f) as [s|s| |s m e] eqn:E.
  - by split.
  - split; [done|]. intros _. cbn. by destruct s.
  - split; [done|]. by intros H.
  - split; [done|]. intros _.
    rewrite (SFcompare_rank _ _ Hv Hv) by done. by rewrite Z.compare_refl.
Qed.

Lemma ltb_rank a b :
  is_nan a = false -> is_nan b = false ->
  PrimFloat.ltb a b = (float_rank a <? float_rank b).
Proof.
  intros Ha Hb. apply is_nan_number in Ha, Hb.
  rewrite ltb_spec. unfold SFltb, float_rank, Z.ltb.
  by rewrite (SFcompare_rank _ _ (Prim2SF_valid a) (Prim2SF_valid b) Ha Hb).
Qed.

Lemma leb_rank a b :
  is_nan a = false -> is_nan b = false ->
  PrimFloat.leb a b = (float_rank a <=? float_rank b).
Proof.
  intros Ha Hb. apply is_nan_number in Ha, Hb.
  rewrite leb_spec. unfold SFleb, float_rank, Z.leb.
  rewrite (SFcompare_rank _ _ (Prim2SF_valid a) (Prim2SF_valid b) Ha Hb).
  by destruct (rank (Prim2SF a) ?= rank (Prim2SF b)).
Qed.

End FloatOrder.

(** ** The listed categories are the largest *)

Module RankingFacts.
Import Json Categorize Sort Spending SpendingFacts FloatOrder.
#[local] Open Scope Z_scope.

Lemma bubble_ext {A} (less1 less2 : A -> A -> bool) (x : A) (rp : list A) :
  (forall y, y ∈ rp -> less1 x y = less2 x y) ->
  bubble less1 x rp = bubble less2 x rp.
Proof.
  induction rp as [|y rest IH]; intros H; cbn [bubble]; [done|].
  rewrite (H y (list_elem_of_here _ _)).
  destruct (less2 x y); [|done].
  f_equal. apply IH. intros z Hz. apply H. by apply list_elem_of_further.
Qed.

(** Sorting only asks about the elements of the list. *)
Lemma insertion_sort_ext {A} (less1 less2 : A -> A -> bool) (l : list A) :
  (forall x y, x ∈ l -> y ∈ l -> less1 x y = less2 x y) ->
  insertion_sort less1 l = insertion_sort less2 l.
Proof.
  intros H. unfold insertion_sort. f_equal.
  assert (G : forall l' acc,
             (forall x, x ∈ l' -> x ∈ l) -> (forall x, x ∈ acc -> x ∈ l) ->
             fold_left (fun rp x => bubble less1 x rp) l' acc
             = fold_left (fun rp x => bubble less2 x rp) l' acc).
  { induction l' as [|x l' IH]; intros acc Hl' Hacc; [done|].
    cbn [fold_left].
    rewrite (bubble_ext less1 less2 x acc).
    - apply IH.
      + intros z Hz. apply Hl'. by apply list_elem_of_further.
      + intros z Hz. rewrite (SortFacts.bubble_Permutation less2 x acc) in Hz.
        apply elem_of_cons in Hz as [->|Hz]; [|by apply Hacc].
        apply Hl', list_elem_of_here.
    - intros y Hy. apply H; [apply Hl', list_elem_of_here|by apply Hacc]. }
  apply G; [done|]. intros x Hx. inversion Hx.
Qed.

Lemma StronglySorted_lookup {A} (R : A -> A -> Prop) (l : list A) i j x y :
  StronglySorted R l -> (i < j)%nat -> l !! i = Some x -> l !! j = Some y -> R x y.
Proof.
  intros Hs. revert i j. induction Hs as [|z l Hs IH Hall]; intros i j Hij Hi Hj.
  - by rewrite lookup_nil in Hi.
  - destruct j as [|j]; [lia|]. cbn in Hj.
    destruct i as [|i].
    + cbn in Hi. injection Hi as ->.
      apply (proj1 (Forall_forall _ _) Hall). by eapply list_elem_of_lookup_2.
    + cbn in Hi. apply (IH i j); [lia|done|done].
Qed.

Lemma report_top_categories transactions days s :
  analyzeTransactions transactions days = Report s ->
  top_categories s = topCategories (aggregate transactions).
Proof.
  unfold analyzeTransactions. destruct transactions; [done|].
  by intros [= <-].
Qed.

Lemma no_report_no_transactions transactions days message :
  analyzeTransactions transactions days = NoTransactions message ->
  transactions = [].
Proof. unfold analyzeTransactions. by destruct transactions. Qed.

Section Ranking.
Context (transactions : list object).

Let total (c : string) : float := fsum 0 (spent_in c transactions).

(** No category total is [NaN]. *)
Hypothesis totals_are_numbers : forall c, is_nan (total c) = false.

Let t := aggregate transactions.

(** The sort key: larger amounts first. *)
Let key (c : categoryInfo) : Z := - float_rank (amount c).

Lemma category_amount c :
  c ∈ categories t ->
  amount c = total (name c) /\ spent_in (name c) transactions <> [].
Proof.
  unfold categories. intros H.
  apply list_elem_of_fmap in H as ([n a] & -> & Hna).
  apply elem_of_map_to_list in Hna. cbn [amount name].
  destruct (aggregate_spec transactions) as (_ & _ & _ & _ & H5 & _).
  cbv zeta in H5. fold t in H5. rewrite H5 in Hna. unfold total.
  destruct (spent_in n transactions) eqn:E; [done|].
  injection Hna as <-. by split.
Qed.

Lemma category_of_name c :
  spent_in c transactions <> [] ->
  exists ci, ci ∈ categories t /\ name ci = c.
Proof.
  intros Hne.
  destruct (aggregate_spec transactions) as (_ & _ & _ & _ & H5 & _).
  cbv zeta in H5. fold t in H5. specialize (H5 c).
  destruct (spent_in c transactions) eqn:E; [done|].
  apply elem_of_map_to_list in H5.
  eexists. split.
  - unfold categories. apply list_elem_of_fmap. eexists. split; [|exact H5].
    reflexivity.
  - reflexivity.
Qed.

Lemma sorted_by_key :
  sorted_categories t ≡ₚ categories t
  /\ StronglySorted (fun a b => key a <= key b) (sorted_categories t).
Proof.
  split; [apply SortFacts.insertion_sort_Permutation|].
  unfold sorted_categories.
  rewrite (insertion_sort_ext _ (fun a b => key a <? key b)).
  - apply (OrderFacts.insertion_sort_ascending key).
  - intros x y Hx Hy. unfold F64.gt, key.
    destruct (category_amount x Hx) as [-> _].
    destruct (category_amount y Hy) as [-> _].
    rewrite ltb_rank by apply totals_are_numbers.
    apply eq_true_iff_eq. rewrite !Z.ltb_lt. lia.
Qed.

Lemma key_le a b :
  a ∈ categories t -> b ∈ categories t ->
  key a <= key b -> F64.le (total (name b)) (total (name a)) = true.
Proof.
  intros Ha Hb H. unfold F64.le, key in *.
  destruct (category_amount a Ha) as [Ea _].
  destruct (category_amount b Hb) as [Eb _].
  rewrite Ea, Eb in H.
  rewrite leb_rank by apply totals_are_numbers. apply Z.leb_le. lia.
Qed.


End Ranking.

(** Only the six category names can have a total. *)
Lemma totals_by_name transactions :
  Forall (fun c => is_nan (fsum 0 (spent_in c transactions)) = false)
         CategorizeFacts.category_names ->
  forall c, is_nan (fsum 0 (spent_in c transactions)) = false.
Proof.
  intros H c. destruct (spent_in c transactions) eqn:E; [reflexivity|].
  rewrite <- E. apply (proj1 (Forall_forall _ _) H).
  apply (spent_in_category c transactions). by rewrite E.
Qed.

(** Spending in three categories. *)
Definition demo_spending : list object :=
  [ ProvenanceFacts.demo_tx "Starbucks Coffee" "2024-01-01T00:00:00Z" 8.5;
    ProvenanceFacts.demo_tx "Uber Ride" "2024-01-02T00:00:00Z" 18.5;
    ProvenanceFacts.demo_tx "Netflix Subscription" "2024-01-03T00:00:00Z" 15.99;
    ProvenanceFacts.demo_tx "Lyft Ride" "2024-01-04T00:00:00Z" 22.75 ].

Lemma demo_totals c : is_nan (fsum 0 (spent_in c demo_spending)) = false.
Proof.
  apply totals_by_name. unfold CategorizeFacts.category_names.
  repeat (constructor; [vm_compute; reflexivity|]). constructor.
Qed.


End RankingFacts.

(** ** Every regular group is reported, once *)

Module CoverageFacts.
Import Json GoTime Subscriptions GroupFacts.
#[local] Open Scope Z_scope.

Section Coverage.
Context (cal : Calendar) (cutoffDate : Time) (minAmount maxAmount : float).

(** What the second loop of [analyzeForSubscriptions] makes of the
    payments that a list of transactions contributes to one key. *)
Definition report_for (transactions : list object) (key : paymentKey)
  : option subscription :=
  subscription_of cal key
    (dates_for cal cutoffDate minAmount maxAmount key transactions).

Lemma no_payment_no_report transactions key :
  dates_for cal cutoffDate minAmount maxAmount key transactions = [] ->
  report_for transactions key = None.
Proof. unfold report_for. by intros ->. Qed.

Lemma reports_of_groups transactions (groups : list (paymentKey * list Time)) :
  NoDup groups.*1 ->
  (forall key dates, (key, dates) ∈ groups ->
     dates = dates_for cal cutoffDate minAmount maxAmount key transactions) ->
  exists keys,
    NoDup keys
    /\ Forall2 (fun key sub => report_for transactions key = Some sub) keys
         (omap (fun '(key, dates) => subscription_of cal key dates) groups)
    /\ forall key, key ∈ keys
         <-> key ∈ groups.*1 /\ is_Some (report_for transactions key).
Proof.
  induction groups as [|[key dates] rest IH]; intros Hnd Hdates.
  - exists []. split; [constructor|]. split; [constructor|].
    intros key. split; [intros H; inversion H|intros [H _]; inversion H].
  - cbn [fmap list_fmap fst] in Hnd. apply NoDup_cons in Hnd as [Hnotin Hnd].
    destruct (IH Hnd) as (keys & Hkeys & Hall & Hiff).
    { intros k d Hin. apply Hdates. by apply list_elem_of_further. }
    assert (Hd : dates = dates_for cal cutoffDate minAmount maxAmount key transactions)
      by (apply Hdates, list_elem_of_here).
    cbn [omap list_omap].
    destruct (subscription_of cal key dates) as [sub|] eqn:Esub.
    + exists (key :: keys). split; [|split].
      * apply NoDup_cons. split; [|done]. intros Hin. apply Hiff in Hin as [Hin _]. done.
      * constructor; [|done]. unfold report_for. by rewrite <- Hd.
      * intros k. cbn [fmap list_fmap fst]. rewrite !elem_of_cons, Hiff. split.
        -- intros [->|[H1 H2]]; [|by auto].
           split; [by left|]. unfold report_for. rewrite <- Hd, Esub. by eexists.
        -- intros [[->|H1] H2]; [by left|by right].
    + exists keys. split; [done|]. split; [done|].
      intros k. cbn [fmap list_fmap fst]. rewrite elem_of_cons, Hiff. split.
      * intros [H1 H2]. by auto.
      * intros [[->|H1] H2]; [|done].
        unfold report_for in H2. rewrite <- Hd, Esub in H2. by destruct H2.
Qed.

Lemma reported_iff_regular key dates :
  is_Some (subscription_of cal key dates)
  <-> (2 <= length dates)%nat
      /\ isRegularPattern (intervals_of (sort_dates dates)) = true.
Proof.
  unfold subscription_of.
  destruct (Z.ltb_spec (Z.of_nat (length dates)) 2) as [Hlt|Hge].
  - split; [by intros [? ?]|]. intros [H _]. lia.
  - destruct (isRegularPattern (intervals_of (sort_dates dates))).
    + split; [intros _; split; [lia|done]|]. intros _. by eexists.
    + split; [by intros [? ?]|]. by intros [_ ?].
Qed.

(** [analyzeForSubscriptions] reports exactly one subscription for every
    key (merchant, printed amount) whose accepted payments are at least
    two and pass the regularity test, and nothing else: the reported
    subscriptions correspond one to one, in order, to a duplicate-free
    list of exactly those keys, and what is reported for a key is made
    of the accepted payments of that key alone. *)
Theorem every_regular_group_reported_once transactions :
  exists keys,
    NoDup keys
    /\ Forall2 (fun key sub => report_for transactions key = Some sub) keys
         (analyzeForSubscriptions cal transactions cutoffDate minAmount maxAmount)
    /\ forall key,
         key ∈ keys
         <-> (2 <= length (dates_for cal cutoffDate minAmount maxAmount key
                             transactions))%nat
             /\ isRegularPattern
                  (intervals_of
                     (sort_dates
                        (dates_for cal cutoffDate minAmount maxAmount key
                           transactions)))
                = true.
Proof.
  set (groups := paymentGroups cal transactions cutoffDate minAmount maxAmount).
  destruct (reports_of_groups transactions (map_to_list groups))
    as (keys & Hnd & Hall & Hiff).
  { apply NoDup_fst_map_to_list. }
  { intros key dates Hin. apply elem_of_map_to_list in Hin.
    unfold groups in Hin. rewrite paymentGroups_lookup in Hin.
    destruct (dates_for cal cutoffDate minAmount maxAmount key transactions);
      [done|]. by injection Hin as <-. }
  assert (Hmember : forall key, is_Some (report_for transactions key) ->
                                key ∈ (map_to_list groups).*1).
  { intros key [sub Hsub].
    destruct (dates_for cal cutoffDate minAmount maxAmount key transactions)
      as [|d ds] eqn:Ed.
    { by rewrite (no_payment_no_report _ _ Ed) in Hsub. }
    apply list_elem_of_fmap. exists (key, d :: ds). split; [done|].
    apply elem_of_map_to_list. unfold groups.
    by rewrite paymentGroups_lookup, Ed. }
  exists keys. split; [done|]. split.
  - unfold analyzeForSubscriptions. destruct transactions as [|tx txs]; [|done].
    unfold groups, paymentGroups in Hall. cbn [fold_left] in Hall.
    by rewrite map_to_list_empty in Hall.
  - intros key. rewrite Hiff, <- reported_iff_regular. fold (report_for transactions key).
    split; [by intros [_ ?]|]. intros H. split; [|done]. by apply Hmember.
Qed.

End Coverage.

End CoverageFacts.

(** ** The order of the input *)

Module InputOrderFacts.
Import Json GoTime Subscriptions GroupFacts.
#[local] Open Scope Z_scope.

(** Two lists with the same images under [f] are equal when [f] tells
    their elements apart. *)
Lemma fmap_eq_inv {A B} (f : A -> B) (l1 l2 : list A) :
  (forall x y, x ∈ l1 -> y ∈ l2 -> f x = f y -> x = y) ->
  f <$> l1 = f <$> l2 -> l1 = l2.
Proof.
  revert l2. induction l1 as [|x l1 IH]; intros [|y l2] Hinj Heq; try done.
  injection Heq as Hxy Hrest. f_equal.
  - apply Hinj; [apply list_elem_of_here..|done].
  - apply IH; [|done]. intros a b Ha Hb. apply Hinj; by apply list_elem_of_further.
Qed.

(** Dates that are told apart by their instants have one sorted
    arrangement. *)
Definition told_apart (dates : list Time) : Prop :=
  forall d1 d2, d1 ∈ dates -> d2 ∈ dates -> unix_ns d1 = unix_ns d2 -> d1 = d2.

Lemma sorted_arrangement dates l1 l2 :
  told_apart dates ->
  l1 ≡ₚ dates -> l2 ≡ₚ dates ->
  StronglySorted (fun a b => unix_ns a <= unix_ns b) l1 ->
  StronglySorted (fun a b => unix_ns a <= unix_ns b) l2 ->
  l1 = l2.
Proof.
  intros Hinj H1 H2 S1 S2. apply (fmap_eq_inv unix_ns).
  - intros x y Hx Hy. apply Hinj; [by rewrite <- H1|by rewrite <- H2].
  - apply (StronglySorted_unique Z.le).
    + by apply (StronglySorted_fmap unix_ns (fun a b => unix_ns a <= unix_ns b) Z.le).
    + by apply (StronglySorted_fmap unix_ns (fun a b => unix_ns a <= unix_ns b) Z.le).
    + by rewrite H1, H2.
Qed.

Lemma sort_dates_Permutation dates dates' :
  told_apart dates -> dates' ≡ₚ dates -> sort_dates dates' = sort_dates dates.
Proof.
  intros Hinj Hperm. apply (sorted_arrangement dates); [done| | |..].
  - unfold sort_dates. by rewrite SortFacts.insertion_sort_Permutation.
  - unfold sort_dates. by rewrite SortFacts.insertion_sort_Permutation.
  - apply (OrderFacts.insertion_sort_ascending unix_ns).
  - apply (OrderFacts.insertion_sort_ascending unix_ns).
Qed.

Section Order.
Context (cal : Calendar) (cutoffDate : Time) (minAmount maxAmount : float).

(** A group yields the same as its sorted dates would. *)
Lemma subscription_of_Permutation key dates dates' :
  told_apart dates -> dates' ≡ₚ dates ->
  subscription_of cal key dates' = subscription_of cal key dates.
Proof.
  intros Hinj Hperm. unfold subscription_of.
  rewrite (sort_dates_Permutation dates dates' Hinj Hperm).
  by rewrite (Permutation_length Hperm).
Qed.

Lemma analyze_groups transactions :
  analyzeForSubscriptions cal transactions cutoffDate minAmount maxAmount
  = omap (fun '(key, dates) => subscription_of cal key dates)
         (map_to_list (paymentGroups cal transactions cutoffDate minAmount maxAmount)).
Proof.
  unfold analyzeForSubscriptions. destruct transactions; [|done].
  unfold paymentGroups. cbn [fold_left]. by rewrite map_to_list_empty.
Qed.

Lemma analyze_sorted_groups transactions :
  (forall key, told_apart (dates_for cal cutoffDate minAmount maxAmount key transactions)) ->
  analyzeForSubscriptions cal transactions cutoffDate minAmount maxAmount
  = omap (fun '(key, dates) => subscription_of cal key dates)
         (map_to_list (sort_dates <$>
            paymentGroups cal transactions cutoffDate minAmount maxAmount)).
Proof.
  intros Hinj. rewrite analyze_groups, map_to_list_fmap.
  apply list_omap_ext, Forall2_fmap_r, Forall_Forall2_diag, Forall_forall.
  intros [key dates] Hin. cbn [prod_map fst snd id].
  apply elem_of_map_to_list in Hin. rewrite paymentGroups_lookup in Hin.
  assert (Hd : dates = dates_for cal cutoffDate minAmount maxAmount key transactions).
  { destruct (dates_for cal cutoffDate minAmount maxAmount key transactions);
      [done|]. by injection Hin as <-. }
  symmetry. apply subscription_of_Permutation.
  - rewrite Hd. apply Hinj.
  - unfold sort_dates. apply SortFacts.insertion_sort_Permutation.
Qed.

Lemma order_irrelevant transactions transactions' :
  transactions' ≡ₚ transactions ->
  (forall key, told_apart (dates_for cal cutoffDate minAmount maxAmount key transactions)) ->
  analyzeForSubscriptions cal transactions' cutoffDate minAmount maxAmount
  = analyzeForSubscriptions cal transactions cutoffDate minAmount maxAmount.
Proof.
  intros Hperm Hinj.
  assert (Hdates : forall key,
             dates_for cal cutoffDate minAmount maxAmount key transactions'
             ≡ₚ dates_for cal cutoffDate minAmount maxAmount key transactions).
  { intros key. unfold dates_for. by rewrite Hperm. }
  assert (Hinj' : forall key,
             told_apart (dates_for cal cutoffDate minAmount maxAmount key transactions')).
  { intros key d1 d2 H1 H2. rewrite Hdates in H1, H2. by apply (Hinj key). }
  rewrite (analyze_sorted_groups transactions Hinj),
          (analyze_sorted_groups transactions' Hinj').
  do 2 f_equal. apply map_eq. intros key. rewrite !lookup_fmap, !paymentGroups_lookup.
  specialize (Hdates key).
  destruct (dates_for cal cutoffDate minAmount maxAmount key transactions')
    as [|d' ds'] eqn:E', (dates_for cal cutoffDate minAmount maxAmount key transactions)
    as [|d ds] eqn:E.
  - done.
  - by apply Permutation_nil_cons in Hdates.
  - symmetry in Hdates. by apply Permutation_nil_cons in Hdates.
  - cbn [fmap option_fmap option_map]. f_equal.
    apply sort_dates_Permutation; [|done]. rewrite <- E. apply Hinj.
Qed.

(** The subscriptions found do not depend on the order in which the
    transactions are listed, as long as payments of one group that fall
    on the same instant carry the same time zone (so that sorting them
    by instant has one outcome). *)
Theorem subscriptions_independent_of_input_order transactions transactions' :
  transactions' ≡ₚ transactions ->
  (forall key, told_apart (dates_for cal cutoffDate minAmount maxAmount key transactions)) ->
  analyzeForSubscriptions cal transactions' cutoffDate minAmount maxAmount
  ≡ₚ analyzeForSubscriptions cal transactions cutoffDate minAmount maxAmount.
Proof.
  intros Hperm Hinj. by rewrite (order_irrelevant transactions transactions' Hperm Hinj).
Qed.

End Order.

(** Time stamps written in UTC are told apart by their instants. *)
Lemma utc_zone s d : UTC.parse_timestamp s = Some d -> zone_offset d = 0.
Proof.
  unfold UTC.parse_timestamp.
  destruct (negb _); [done|].
  destruct (UTC.date_fields s) as [[[y m] dd]|]; [|done]. cbn [mbind option_bind].
  destruct (UTC.field s 11 2) as [hh|]; [|done]. cbn [mbind option_bind].
  destruct (UTC.field s 14 2) as [mm|]; [|done]. cbn [mbind option_bind].
  destruct (UTC.field s 17 2) as [ss|]; [|done]. cbn [mbind option_bind].
  destruct (_ && _); [|done]. by intros [= <-].
Qed.

Lemma utc_told_apart cutoffDate minAmount maxAmount key transactions :
  told_apart (dates_for UTC.calendar cutoffDate minAmount maxAmount key transactions).
Proof.
  intros d1 d2 H1 H2 Heq.
  apply elem_of_dates_for in H1 as (tx1 & _ & (_ & _ & _ & s1 & _ & P1 & _) & _).
  apply elem_of_dates_for in H2 as (tx2 & _ & (_ & _ & _ & s2 & _ & P2 & _) & _).
  apply utc_zone in P1, P2. destruct d1, d2. cbn in *. congruence.
Qed.

(** The demonstration payments, the last one listed first. *)
Definition demo_reordered : list object :=
  [ ProvenanceFacts.demo_tx "Netflix Subscription" "2024-03-31T00:00:00Z" 15.99;
    ProvenanceFacts.demo_tx "Netflix Subscription" "2024-01-01T00:00:00Z" 15.99;
    ProvenanceFacts.demo_tx "Netflix Subscription" "2024-01-31T00:00:00Z" 15.99;
    ProvenanceFacts.demo_tx "Spotify Premium" "2024-02-10T00:00:00Z" 10.99;
    ProvenanceFacts.demo_tx "Netflix Subscription" "2024-03-01T00:00:00Z" 15.99 ].

Lemma subscriptions_independent_of_input_order_witness :
  demo_reordered ≡ₚ ProvenanceFacts.demo_transactions
  /\ (forall key,
        told_apart (dates_for UTC.calendar (mkTime 0 0) 1 999.99 key
                      ProvenanceFacts.demo_transactions))
  /\ analyzeForSubscriptions UTC.calendar demo_reordered (mkTime 0 0) 1 999.99
     ≡ₚ analyzeForSubscriptions UTC.calendar ProvenanceFacts.demo_transactions
          (mkTime 0 0) 1 999.99.
Proof.
  assert (Hperm : demo_reordered ≡ₚ ProvenanceFacts.demo_transactions).
  { exact (Permutation_cons_append
             (take 4 ProvenanceFacts.demo_transactions)
             (ProvenanceFacts.demo_tx "Netflix Subscription"
                "2024-03-31T00:00:00Z" 15.99)). }
  assert (Hinj : forall key,
             told_apart (dates_for UTC.calendar (mkTime 0 0) 1 999.99 key
                           ProvenanceFacts.demo_transactions))
    by (intros key; apply utc_told_apart).
  split; [exact Hperm|]. split; [exact Hinj|].
  exact (subscriptions_independent_of_input_order UTC.calendar (mkTime 0 0) 1 999.99
           ProvenanceFacts.demo_transactions demo_reordered Hperm Hinj).
Defined.

End InputOrderFacts.

(** ** The monthly total of monthly subscriptions *)

Module CentsFacts.
Import Rounding FrequencyFacts RegularityFacts Subscriptions.
#[local] Open Scope R_scope.

(** The error of one rounding, for an argument below [2 ^ p]. *)
Lemma rounded_error x v p :
  rounded x v -> x < bpow p -> Rabs (v - x) <= bpow (p - 54).
Proof.
  intros (e & m1 & [X1 X2] & -> & Hhalf & _) Hx.
  assert (He : (e + 52 < p)%Z) by (apply bpow_lt_inv; lra).
  pose proof (bpow_gt_0 e) as He0.
  replace (IZR m1 * bpow e - x) with ((IZR m1 - x / bpow e) * bpow e)
    by (field; lra).
  rewrite Rabs_mult, (Rabs_pos_eq (bpow e)) by lra.
  assert (Hle : bpow e <= bpow (p - 53)) by (apply bpow_le; lia).
  replace (p - 54)%Z with ((p - 53) - 1)%Z by lia.
  rewrite bpow_minus, bpow_1.
  pose proof (Rabs_pos (IZR m1 - x / bpow e)). nra.
Qed.

Lemma zero_add a v : represents a v -> (0 + a)%float = a.
Proof.
  intros (M & E & Hf & _). apply Prim2SF_inj. rewrite add_spec, Hf. reflexivity.
Qed.

Lemma represents_int x v z :
  represents x v -> (0 < z < 2 ^ 53)%Z -> v = IZR z -> x = F64.of_int z.
Proof.
  intros Hx Hz ->. apply Prim2SF_inj.
  apply (normal_float_unique _ _ (IZR z)); [exact Hx|].
  by apply of_int_represents.
Qed.

(** [math.Round] of a number that is nearer than one half to an integer. *)
Lemma Round_near x v c :
  represents x v -> (0 < c < 2 ^ 53)%Z -> Rabs (v - IZR c) < / 2 ->
  F64.Round x = F64.of_int c.
Proof.
  intros Hx Hc Hnear. pose proof Hx as (M & E & Hf & HM & HE & Hv).
  apply Rabs_def2 in Hnear as [N1 N2].
  assert (Hwhole : forall z : Z, v = IZR z -> x = F64.of_int c).
  { intros z Hz. apply (represents_int x v c Hx Hc). rewrite Hz. f_equal.
    apply Z.le_antisymm; [apply IZR_le_half|apply IZR_ge_half]; lra. }
  unfold F64.Round. rewrite Hf.
  destruct E as [|p|p].
  - apply (Hwhole (Zpos M)). rewrite Hv. unfold F2R. rewrite bpow_0. lra.
  - apply (Hwhole (Zpos M * 2 ^ Zpos p)%Z). rewrite Hv. unfold F2R.
    rewrite mult_IZR, bpow_IZR by lia. reflexivity.
  - rewrite F2R_neg in Hv.
    set (d := (2 ^ Zpos p)%Z) in *.
    assert (Hd : (0 < d)%Z) by (unfold d; lia).
    assert (Hd' : 0 < IZR d) by (by apply IZR_lt).
    assert (HMv : IZR (Zpos M) = v * IZR d) by (rewrite Hv; field; lra).
    assert (H1 : (2 * Zpos M - 2 * c * d < d)%Z).
    { apply lt_IZR. rewrite minus_IZR, !mult_IZR, HMv. nra. }
    assert (H2 : (- d < 2 * Zpos M - 2 * c * d)%Z).
    { apply lt_IZR. rewrite opp_IZR, minus_IZR, !mult_IZR, HMv. nra. }
    pose proof (Z.div_mod (Zpos M) d ltac:(lia)) as Hdiv.
    pose proof (Z.mod_pos_bound (Zpos M) d Hd) as Hmod.
    set (q := (Zpos M / d)%Z) in *. set (r := (Zpos M mod d)%Z) in *.
    assert (Hn : (if (d <=? 2 * r)%Z then q + 1 else q)%Z = c).
    { destruct (Z.leb_spec d (2 * r)); nia. }
    rewrite Hn. destruct (Z.eqb_spec c 0); [lia|reflexivity].
Qed.

Lemma represents_100 : represents 100%float 100.
Proof. apply (represents_literal 100%float 100); [reflexivity|lia]. Qed.

(** A subscription paid every month, of [c] cents. *)
Definition monthly_of_cents (sub : subscription) (c : Z) : Prop :=
  frequency sub = "monthly"
  /\ (0 < c < 10 ^ 9)%Z
  /\ amount sub = (F64.of_int c / 100)%float.

Lemma bpow_literal k z : (0 <= k)%Z -> (2 ^ k)%Z = z -> bpow k = IZR z.
Proof. intros Hk <-. by apply bpow_IZR. Qed.

Lemma bpow_neg_literal k z : (0 <= k)%Z -> (2 ^ k)%Z = z -> bpow (- k) = / IZR z.
Proof. intros Hk <-. rewrite bpow_opp. f_equal. by apply bpow_IZR. Qed.

Lemma cent_amount c :
  (0 < c < 10 ^ 9)%Z ->
  exists v, represents (F64.of_int c / 100)%float v
            /\ Rabs (v - IZR c / 100) <= bpow (-30).
Proof.
  intros Hc.
  assert (C1 : 1 <= IZR c) by (apply IZR_le; lia).
  assert (C2 : IZR c < 1000000000) by (apply IZR_lt; lia).
  assert (B7 : bpow (-7) = / 128)
    by (apply (bpow_neg_literal 7); [lia|reflexivity]).
  assert (B24 : bpow 24 = 16777216)
    by (apply (bpow_literal 24); [lia|reflexivity]).
  destruct (div_represents (F64.of_int c) (IZR c) 100%float 100)
    as (v & Hv & Hr).
  - apply of_int_represents. lia.
  - exact represents_100.
  - split.
    + pose proof (bpow_le (-1021) (-7) ltac:(lia)). rewrite B7 in H. lra.
    + pose proof (bpow_le 24 1023 ltac:(lia)). rewrite B24 in H. lra.
  - exists v. split; [exact Hv|].
    apply (rounded_error _ _ 24 Hr). rewrite B24. lra.
Qed.

Lemma monthly_sum subs cents :
  Forall2 monthly_of_cents subs cents ->
  forall T vT k S,
    represents T vT -> (1 <= k)%Z -> (0 < S <= k * 10 ^ 9)%Z ->
    (k + Z.of_nat (length subs) <= 1000)%Z ->
    Rabs (vT - IZR S / 100) <= IZR k * bpow (-19) ->
    exists vT',
      represents (fold_left add_monthly subs T) vT'
      /\ Rabs (vT' - IZR (S + foldr Z.add 0%Z cents) / 100)
         <= IZR (k + Z.of_nat (length subs)) * bpow (-19).
Proof.
  induction 1 as [|sub c subs cents (Hfreq & Hc & Hamount) Hrest IH];
    intros T vT k S HT Hk HS Hlen Herr.
  - exists vT. cbn [fold_left foldr length]. rewrite !Z.add_0_r. by split.
  - cbn [fold_left foldr length] in *.
    destruct (cent_amount c Hc) as (va & Ha & Hea).
    assert (Hstep : add_monthly T sub = (T + (F64.of_int c / 100))%float).
    { unfold add_monthly. rewrite Hfreq, Hamount. reflexivity. }
    rewrite Hstep.
    assert (B19 : bpow (-19) = / 524288)
      by (apply (bpow_neg_literal 19); [lia|reflexivity]).
    assert (B20 : bpow (-20) = / 1048576)
      by (apply (bpow_neg_literal 20); [lia|reflexivity]).
    assert (B30 : bpow (-30) = / 1073741824)
      by (apply (bpow_neg_literal 30); [lia|reflexivity]).
    assert (B34 : bpow 34 = 17179869184)
      by (apply (bpow_literal 34); [lia|reflexivity]).
    rewrite B19 in Herr. rewrite B30 in Hea.
    apply Rabs_le_inv in Herr. apply Rabs_le_inv in Hea.
    assert (K1 : 1 <= IZR k) by (apply IZR_le; lia).
    assert (K2 : IZR k <= 999) by (apply IZR_le; lia).
    assert (S2 : IZR S <= IZR k * 1000000000).
    { rewrite <- (mult_IZR k 1000000000). apply IZR_le. lia. }
    assert (C2 : IZR c < 1000000000) by (apply IZR_lt; lia).
    assert (C1 : 0 < IZR c) by (apply IZR_lt; lia).
    assert (Hx : vT + va < bpow 34) by (rewrite B34; lra).
    destruct (add_represents T vT (F64.of_int c / 100)%float va HT Ha)
      as (v' & Hv' & Hr').
    { pose proof (bpow_le 34 1023 ltac:(lia)). lra. }
    pose proof (rounded_error _ _ 34 Hr' Hx) as He'.
    change (34 - 54)%Z with (-20)%Z in He'. rewrite B20 in He'.
    apply Rabs_le_inv in He'.
    destruct (IH (T + (F64.of_int c / 100))%float v' (k + 1)%Z (S + c)%Z)
      as (vT' & HT' & Herr').
    + exact Hv'.
    + lia.
    + lia.
    + lia.
    + rewrite !plus_IZR, B19. apply Rabs_le. lra.
    + exists vT'. split; [exact HT'|].
      replace (S + (c + foldr Z.add 0%Z cents))%Z
        with (S + c + foldr Z.add 0%Z cents)%Z by lia.
      replace (k + Z.of_nat (Datatypes.S (length subs)))%Z
        with (k + 1 + Z.of_nat (length subs))%Z by lia.
      exact Herr'.
Qed.

Lemma sum_of_cents subs cents :
  Forall2 monthly_of_cents subs cents ->
  (0 <= foldr Z.add 0 cents <= Z.of_nat (length subs) * 10 ^ 9)%Z.
Proof.
  induction 1 as [|sub c subs cents (_ & Hc & _) _ IH]; cbn [foldr length]; lia.
Qed.

(** The total of monthly subscriptions is exact to the cent. *)
Lemma monthly_total subs cents :
  Forall2 monthly_of_cents subs cents ->
  (length subs <= 1000)%nat ->
  calculateTotalMonthlyCost subs
  = (F64.of_int (foldr Z.add 0%Z cents) / 100)%float.
Proof.
  intros Hall Hlen. unfold calculateTotalMonthlyCost.
  destruct Hall as [|sub c subs cents (Hfreq & Hc & Hamount) Hrest].
  { vm_compute. reflexivity. }
  cbn [fold_left foldr length] in *.
  destruct (cent_amount c Hc) as (va & Ha & Hea).
  assert (Hstep : add_monthly 0 sub = (F64.of_int c / 100)%float).
  { unfold add_monthly. rewrite Hfreq, Hamount. cbn. by apply (zero_add _ va). }
  rewrite Hstep.
  assert (B19 : bpow (-19) = / 524288)
    by (apply (bpow_neg_literal 19); [lia|reflexivity]).
  assert (B30 : bpow (-30) = / 1073741824)
    by (apply (bpow_neg_literal 30); [lia|reflexivity]).
  assert (B13 : bpow (-13) = / 8192)
    by (apply (bpow_neg_literal 13); [lia|reflexivity]).
  assert (B41 : bpow 41 = 2199023255552)
    by (apply (bpow_literal 41); [lia|reflexivity]).
  destruct (monthly_sum subs cents Hrest (F64.of_int c / 100)%float va 1 c)
    as (vT & HT & Herr).
  - exact Ha.
  - lia.
  - lia.
  - lia.
  - rewrite B19. rewrite B30 in Hea. apply Rabs_le_inv in Hea. apply Rabs_le. lra.
  - pose proof (sum_of_cents subs cents Hrest) as Hsum.
    set (total := (c + foldr Z.add 0%Z cents)%Z) in *.
    set (n := (1 + Z.of_nat (length subs))%Z) in *.
    assert (Hn : (1 <= n <= 1000)%Z) by lia.
    assert (Htotal : (0 < total <= n * 10 ^ 9)%Z) by lia.
    rewrite B19 in Herr. apply Rabs_le_inv in Herr.
    assert (N1 : 1 <= IZR n <= 1000) by (split; apply IZR_le; lia).
    assert (T1 : 1 <= IZR total) by (apply IZR_le; lia).
    assert (T2 : IZR total <= IZR n * 1000000000).
    { rewrite <- (mult_IZR n 1000000000). apply IZR_le. lia. }
    destruct (mul_represents _ vT 100%float 100 HT represents_100)
      as (w & Hw & Hrw).
    { split.
      - pose proof (bpow_le (-1021) (-13) ltac:(lia)). rewrite B13 in H. lra.
      - pose proof (bpow_le 41 1023 ltac:(lia)). rewrite B41 in H. lra. }
    assert (Hx : vT * 100 < bpow 41) by (rewrite B41; lra).
    pose proof (rounded_error _ _ 41 Hrw Hx) as Hew.
    change (41 - 54)%Z with (-13)%Z in Hew. rewrite B13 in Hew.
    apply Rabs_le_inv in Hew.
    rewrite (Round_near _ w total Hw); [reflexivity|lia|].
    apply Rabs_def1; lra.
Qed.

(** When every subscription is monthly and its amount is the double
    nearest to a whole number of cents (below ten million dollars), the
    total monthly cost of up to 1000 subscriptions is exact to the cent:
    it is the double nearest to the exact total.  The errors of the
    intermediate sums never add up to half a cent. *)
Theorem monthly_total_exact_to_the_cent subs cents :
  Forall2 (fun sub c =>
             frequency sub = "monthly"
             /\ (0 < c < 10 ^ 9)%Z
             /\ amount sub = (F64.of_int c / 100)%float) subs cents ->
  (length subs <= 1000)%nat ->
  calculateTotalMonthlyCost subs
  = (F64.of_int (foldr Z.add 0%Z cents) / 100)%float.
Proof.
  intros Hall Hlen. exact (monthly_total subs cents Hall Hlen).
Qed.

(** Two monthly subscriptions, of 15.99 and 10.99. *)
Definition demo_monthly : list subscription :=
  [ mkSubscription "Netflix Subscription" 15.99 "monthly" 4 "2024-03-31"
                   "2024-05-01" 63.96 "high";
    mkSubscription "Spotify Premium" 10.99 "monthly" 3 "2024-03-10"
                   "2024-04-10" 32.97 "medium" ].

Lemma monthly_total_exact_to_the_cent_witness :
  Forall2 (fun sub c =>
             frequency sub = "monthly"
             /\ (0 < c < 10 ^ 9)%Z
             /\ amount sub = (F64.of_int c / 100)%float)
          demo_monthly [1599; 1099]%Z
  /\ (length demo_monthly <= 1000)%nat
  /\ calculateTotalMonthlyCost demo_monthly = 26.98%float.
Proof.
  assert (H1 : Forall2 (fun sub c =>
                          frequency sub = "monthly"
                          /\ (0 < c < 10 ^ 9)%Z
                          /\ amount sub = (F64.of_int c / 100)%float)
                       demo_monthly [1599; 1099]%Z).
  { unfold demo_monthly.
    repeat (apply List.Forall2_cons;
            [split; [reflexivity|split; [lia|vm_compute; reflexivity]]|]).
    apply List.Forall2_nil. }
  assert (H2 : (length demo_monthly <= 1000)%nat) by (cbn; lia).
  split; [exact H1|]. split; [exact H2|].
  rewrite (monthly_total_exact_to_the_cent demo_monthly [1599; 1099]%Z H1 H2).
  vm_compute. reflexivity.
Defined.

End CentsFacts.

(** ** The share of intervals within tolerance *)

Module ShareFacts.
Import Rounding FrequencyFacts Subscriptions.
#[local] Open Scope R_scope.

(** [0.7] is the double [6305039478318694 * 2 ^ -53], just below seven
    tenths. *)
Lemma represents_seven_tenths :
  represents 0.7%float (F2R 6305039478318694 (-53)).
Proof.
  apply (represents_const 0.7%float 6305039478318694 (-53)); reflexivity.
Qed.

(** A share [k / n] reaches [0.7] exactly when [10 k >= 7 n]. *)
Lemma share_threshold k n :
  (0 <= k <= n)%Z -> (0 < n <= 2 ^ 44)%Z ->
  F64.ge (F64.of_int k / F64.of_int n)%float 0.7 = (7 * n <=? 10 * k)%Z.
Proof.
  intros Hk Hn.
  destruct (Z.eq_dec k 0) as [->|Hk0].
  { rewrite (mean_nonpositive 0 n 0.7%float _ ltac:(lia) Hn represents_seven_tenths).
    symmetry. apply Z.leb_gt. lia. }
  pose proof (of_int_represents k ltac:(lia)) as Rk.
  pose proof (of_int_represents n ltac:(lia)) as Rn.
  assert (Hlo : F2R 1 (-44) <= IZR k / IZR n).
  { apply (ratio_ge_F2R _ _ _ 44); [lia|lia|]. nia. }
  assert (Hhi : IZR k / IZR n <= F2R 1 0).
  { apply (ratio_le_F2R _ _ _ 0); [lia|lia|]. lia. }
  destruct (div_represents _ _ _ _ Rk Rn) as (vq & Rq & Hq).
  { split.
    - assert (bpow (-1021) <= bpow (-44)) by (apply bpow_le; lia).
      unfold F2R in Hlo. lra.
    - assert (bpow 0 < bpow 1023) by (apply bpow_lt; lia).
      unfold F2R in Hhi. lra. }
  unfold F64.ge.
  pose proof (leb_represents _ _ _ _ represents_seven_tenths Rq) as Lge.
  apply eq_true_iff_eq. rewrite Lge, Z.leb_le. split; intros H.
  - destruct (Z.le_gt_cases (7 * n) (10 * k)) as [|Hgt]; [assumption|]. exfalso.
    assert (B : IZR k / IZR n <= F2R 6305039478318693 (-53)).
    { apply (ratio_le_F2R _ _ _ 53); [lia|lia|]. lia. }
    assert (B' : vq <= F2R 6305039478318693 (-53)).
    { apply (rounded_le _ _ 6305039478318693 (-53) Hq); [unfold mantissa; lia|exact B]. }
    assert (F2R 6305039478318693 (-53) < F2R 6305039478318694 (-53))
      by (apply F2R_lt; lia).
    lra.
  - apply (rounded_ge _ _ 6305039478318694 (-53) Hq); [unfold mantissa; lia|].
    apply (ratio_ge_F2R _ _ _ 53); [lia|lia|]. lia.
Qed.

(** The test of the second loop of [isRegularPattern]. *)
Definition within_tolerance (intervals : list Z) (interval : Z) : bool :=
  let avg := average intervals in
  F64.le (abs (F64.of_int interval - avg)) (avg * 0.2)%float.

Lemma count_filter {A} (P : A -> bool) (l : list A) :
  forall w : Z,
    fold_left (fun w x => if P x then (w + 1)%Z else w) l w
    = (w + Z.of_nat (length (List.filter P l)))%Z.
Proof.
  induction l as [|x l IH]; intros w; cbn [fold_left List.filter length]; [lia|].
  rewrite IH. destruct (P x); cbn [length]; lia.
Qed.

Lemma regular_share intervals :
  intervals <> [] ->
  (Z.of_nat (length intervals) <= 2 ^ 44)%Z ->
  isRegularPattern intervals
  = (7 * Z.of_nat (length intervals)
     <=? 10 * Z.of_nat (length (List.filter (within_tolerance intervals) intervals)))%Z.
Proof.
  intros Hne Hlen. unfold isRegularPattern.
  destruct intervals as [|i0 rest] eqn:E; [done|]. rewrite <- E in *.
  assert (Hn : (0 < Z.of_nat (length intervals))%Z) by (rewrite E; cbn; lia).
  change (fold_left _ intervals 0%Z)
    with (fold_left (fun w x => if within_tolerance intervals x then (w + 1)%Z else w)
                    intervals 0%Z).
  rewrite count_filter, Z.add_0_l.
  apply share_threshold; [|lia].
  split; [lia|]. apply inj_le, List.filter_length_le.
Qed.

(** Whether [isRegularPattern] accepts is decided exactly by the number
    of intervals that pass its tolerance test: at least seven in ten.
    The quotient of the two counts and the comparison with the double
    [0.7] never misjudge the share. *)
Theorem seven_in_ten_within_tolerance intervals :
  intervals <> [] ->
  (Z.of_nat (length intervals) <= 2 ^ 44)%Z ->
  isRegularPattern intervals
  = (7 * Z.of_nat (length intervals)
     <=? 10 * Z.of_nat (length (List.filter (within_tolerance intervals) intervals)))%Z.
Proof.
  intros Hne Hlen. exact (regular_share intervals Hne Hlen).
Qed.

Lemma seven_in_ten_within_tolerance_witness :
  let intervals := [30; 31; 29; 45]%Z in
  intervals <> []
  /\ (Z.of_nat (length intervals) <= 2 ^ 44)%Z
  /\ length (List.filter (within_tolerance intervals) intervals) = 3%nat
  /\ isRegularPattern intervals = true.
Proof.
  cbv zeta.
  assert (H1 : [30; 31; 29; 45]%Z <> []) by discriminate.
  assert (H2 : (Z.of_nat (length [30; 31; 29; 45]%Z) <= 2 ^ 44)%Z)
    by (vm_compute; discriminate).
  split; [exact H1|]. split; [exact H2|].
  split; [vm_compute; reflexivity|].
  rewrite (seven_in_ten_within_tolerance [30; 31; 29; 45]%Z H1 H2).
  vm_compute. reflexivity.
Defined.

End ShareFacts.
